(** * Marker send restrictions and the marker account model

    A shallow embedding of [x/marker/types/marker.go] and
    [x/marker/keeper/send_restrictions.go], followed by the properties
    of the transfer-authorization engine and of the marker entity.

    Conventions.
    - Go strings are byte sequences; they are [string] here ([ascii] is
      one byte), and the functions of Go's [strings] package that the
      code calls are written out in [GoStrings].
    - An [sdk.AccAddress] is represented by its canonical bech32 text,
      so [String()], [AccAddressFromBech32] and [GetAddress] are the
      identity and [Equals] is equality of texts.  The empty address is
      the empty text.
    - A Go function returning [(T, error)] returns [result T]; a method
      with a pointer receiver returns the updated receiver. *)

From Stdlib Require Import String Ascii List Bool ZArith Lia.
Import ListNotations.

Local Open Scope string_scope.
Local Open Scope list_scope.

(** ** Go's [strings] package, as far as the code uses it *)

Module GoStrings.

(** [s[:n]] *)
Fixpoint take (n : nat) (s : string) : string :=
  match n, s with
  | S n', String c s' => String c (take n' s')
  | _, _ => EmptyString
  end.

(** [s[n:]] *)
Fixpoint drop (n : nat) (s : string) : string :=
  match n, s with
  | S n', String _ s' => drop n' s'
  | _, _ => s
  end.

(** [strings.HasPrefix]:
    [len(s) >= len(prefix) && s[:len(prefix)] == prefix]. *)
Definition HasPrefix (s prefix : string) : bool :=
  (String.length prefix <=? String.length s)%nat
  && String.eqb (take (String.length prefix) s) prefix.

(** [strings.HasSuffix]:
    [len(s) >= len(suffix) && s[len(s)-len(suffix):] == suffix]. *)
Definition HasSuffix (s suffix : string) : bool :=
  (String.length suffix <=? String.length s)%nat
  && String.eqb (drop (String.length s - String.length suffix) s) suffix.

End GoStrings.

(** ** The SDK values the code handles *)

Module sdk.

(** The canonical bech32 text of an address. *)
Definition AccAddress : Type := string.

(** [aa.String()] *)
Definition String_ (aa : AccAddress) : string := aa.

(** [aa.Equals(aa2)] *)
Definition Equals (aa aa2 : AccAddress) : bool := String.eqb aa aa2.

(** [aa.Empty()] *)
Definition Empty (aa : AccAddress) : bool := String.eqb aa "".

(** [sdk.Coin]: a denom and an amount ([sdkmath.Int], unbounded). *)
Record Coin : Type := NewCoin { Denom : string; Amount : Z }.

(** [sdk.Coins] *)
Definition Coins : Type := list Coin.

(** [coin.IsZero()] *)
Definition IsZero (coin : Coin) : bool := (Amount coin =? 0)%Z.

(** [coins.Find(denom)]: "returns true and coin if the denom exists in
    coins, otherwise false and a zero coin; uses binary search;
    CONTRACT: coins must be valid (sorted)".  An empty sequence holds
    nothing and a sequence of one coin is compared with the denom;
    a longer one is cut at [len(coins)/2]: the search goes on in
    [coins[:midIdx]] when the denom is below the denom in the middle
    (strings compare byte by byte, as [String.ltb] does), stops when it
    is that denom, and goes on in [coins[midIdx+1:]] otherwise.  [fuel]
    bounds the number of cuts; the length of the sequence is always
    enough. *)
Fixpoint findWithin (fuel : nat) (coins : Coins) (denom : string) {struct fuel}
  : bool * Coin :=
  match coins with
  | [] => (false, NewCoin "" 0)
  | [coin] =>
      if String.eqb (Denom coin) denom then (true, coin) else (false, NewCoin "" 0)
  | _ =>
      match fuel with
      | O => (false, NewCoin "" 0)
      | S fuel =>
          let midIdx := (length coins / 2)%nat in
          match nth_error coins midIdx with
          | None => (false, NewCoin "" 0)
          | Some coin =>
              if String.ltb denom (Denom coin)
              then findWithin fuel (firstn midIdx coins) denom
              else if String.eqb denom (Denom coin)
              then (true, coin)
              else findWithin fuel (skipn (S midIdx) coins) denom
          end
      end
  end.

Definition Find (coins : Coins) (denom : string) : bool * Coin :=
  findWithin (length coins) coins denom.

(** The contract of [Find]: the denoms of the coins are in strictly
    ascending order (a valid [Coins] value is sorted by denom and holds
    no denom twice). *)
Fixpoint sortedByDenom (coins : Coins) : Prop :=
  match coins with
  | [] => True
  | coin :: rest =>
      (forall later, In later rest -> String.ltb (Denom coin) (Denom later) = true)
      /\ sortedByDenom rest
  end.

End sdk.

(** ** [x/marker/types]: the marker account *)

Module types.

Import sdk.

(** Modelled from the spec: the role enumeration is declared in generated
    code that is not part of the sources at hand; the spec lists the
    roles Admin, Mint, Burn, Deposit, Withdraw, Delete, Transfer and
    ForceTransfer. *)
Inductive Access : Type :=
| Access_Mint
| Access_Burn
| Access_Deposit
| Access_Withdraw
| Access_Delete
| Access_Admin
| Access_Transfer
| Access_ForceTransfer.

Definition Access_eqb (a b : Access) : bool :=
  match a, b with
  | Access_Mint, Access_Mint
  | Access_Burn, Access_Burn
  | Access_Deposit, Access_Deposit
  | Access_Withdraw, Access_Withdraw
  | Access_Delete, Access_Delete
  | Access_Admin, Access_Admin
  | Access_Transfer, Access_Transfer
  | Access_ForceTransfer, Access_ForceTransfer => true
  | _, _ => false
  end.

(** Modelled from the spec: the lifecycle status, declared in generated
    code; the spec orders it Undefined, Proposed, Finalized, Active,
    Cancelled, Destroyed. *)
Inductive MarkerStatus : Type :=
| StatusUndefined
| StatusProposed
| StatusFinalized
| StatusActive
| StatusCancelled
| StatusDestroyed.

Definition MarkerStatus_eqb (a b : MarkerStatus) : bool :=
  match a, b with
  | StatusUndefined, StatusUndefined
  | StatusProposed, StatusProposed
  | StatusFinalized, StatusFinalized
  | StatusActive, StatusActive
  | StatusCancelled, StatusCancelled
  | StatusDestroyed, StatusDestroyed => true
  | _, _ => false
  end.

(** Modelled from the spec: the marker type, declared in generated code;
    [MarkerType_Unknown] is the zero value the source names. *)
Inductive MarkerType : Type :=
| MarkerType_Unknown
| MarkerType_Coin
| MarkerType_RestrictedCoin.

Definition MarkerType_eqb (a b : MarkerType) : bool :=
  match a, b with
  | MarkerType_Unknown, MarkerType_Unknown
  | MarkerType_Coin, MarkerType_Coin
  | MarkerType_RestrictedCoin, MarkerType_RestrictedCoin => true
  | _, _ => false
  end.

(** Go errors are formatted messages.  Each constructor stands for one
    [fmt.Errorf] of the two source files and carries the values the
    message is formatted from; [ErrExternal] is an error handed up by a
    collaborator (address verifier, grant validation, stores). *)
Inductive error : Type :=
(* marker.go *)
| ErrNoAccess (addr : string) (role : Access) (denom : string) (marker : AccAddress)
    (* "%s does not have %s on %s marker (%s)" *)
| ErrNoneHavePermission (addrs : list string) (role : Access) (denom : string)
    (marker : AccAddress)
    (* "none of %q have permission %s on %s marker (%s)" *)
| ErrInvalidStatus (status : MarkerStatus)
    (* "error invalid marker status %s" *)
| ErrManagerNotProposed
    (* "manager address is only valid for proposed markers, use access grants instead" *)
| ErrSupplyDenom
    (* "supply coin denom must match marker denom" *)
| ErrRevokeInvalidAddress
    (* "can not revoke access for invalid address" *)
| ErrAlreadyRequired (name : string)
    (* "attribute %q is already required" *)
| ErrNotRequired (name : string)
    (* "attribute %q is already not required" *)
| ErrMergeDifferentAddress
    (* merging grants of two different addresses *)
(* send_restrictions.go *)
| ErrBypassRestrictedToFeeCollector (denom : string)
    (* "cannot send restricted denom %s to the fee collector" *)
| ErrCannotWithdraw (fromAddr : string) (denom : string)
    (* "cannot withdraw from marker account %s (%s)" *)
| ErrWithdrawNotActive (fromAmt : Coin) (denom : string) (fromAddr : AccAddress)
    (status : MarkerStatus)
    (* "cannot withdraw %s from %s marker (%s): marker status (%s) is not %s" *)
| ErrSendNotActive (denom : string) (status : MarkerStatus)
    (* "cannot send %s coins: marker status (%s) is not %s" *)
| ErrRestrictedToFeeCollector (denom : string)
    (* "restricted denom %s cannot be sent to the fee collector" *)
| ErrOnDenyList (fromAddr : string)
    (* "%s is on deny list for sending restricted marker" *)
| ErrNoneHave (addrs : list string) (role : Access) (denom : string)
    (marker : AccAddress)
    (* "none of %q have %s on %s marker (%s)" *)
| ErrNoTransferPermissions (fromAddr : string) (denom : string)
    (* "%s does not have transfer permissions for %s" *)
| ErrGetAttributes (toAddr : string) (err : error)
    (* "could not get attributes for %s: %w" *)
| ErrMissingAttributes (toAddr : string) (denom : string) (missing : list string)
    (* "address %s does not contain the %q required attribute%s: ..." *)
| ErrExternal (msg : string).

(** [(T, error)] *)
Inductive result (T : Type) : Type :=
| Ok (v : T)
| Err (err : error).

Arguments Ok {T} v.
Arguments Err {T} err.

Definition bind {T U : Type} (r : result T) (k : T -> result U) : result U :=
  match r with
  | Ok v => k v
  | Err err => Err err
  end.

(** A Go [error] result: [nil] is [Ok tt]. *)
Definition ofError (e : option error) : result unit :=
  match e with
  | None => Ok tt
  | Some err => Err err
  end.

Definition isErr {T : Type} (r : result T) : bool :=
  match r with
  | Ok _ => false
  | Err _ => true
  end.

Declare Scope go_scope.
Delimit Scope go_scope with go.
Notation "'let*' x ':=' r 'in' k" := (bind r (fun x => k))
  (at level 10, x name, r at level 100, k at level 200) : go_scope.
Notation "r ';;' k" := (bind r (fun _ => k))
  (at level 100, k at level 200, right associativity) : go_scope.
Local Open Scope go_scope.

(** *** Access grants

    Modelled from the spec: [AccessGrant] and its methods live in a file
    of the package that is not part of the sources at hand.  The spec
    (section 4.1) gives [hasRole], and says that granting "validates the
    grant is non-empty and well-formed" and "merges it with any existing
    grant for the same address (union of roles)". *)

Module AccessGrant.

Record t : Type := mk { Address : string; Permissions : list Access }.

(** Modelled from the spec: [hasRole(grant, role)]. *)
Definition HasAccess (ag : t) (access : Access) : bool :=
  existsb (Access_eqb access) (Permissions ag).

(** Modelled from the spec: the address a grant is keyed by. *)
Definition GetAddress (ag : t) : AccAddress := Address ag.

(** Modelled from the spec: the role set of a grant. *)
Definition GetAccessList (ag : t) : list Access := Permissions ag.

(** Modelled from the spec: a grant is valid when its address is
    well-formed and its role set is not empty. *)
Definition Validate (verify : AccAddress -> option error) (ag : t) : option error :=
  match verify (Address ag) with
  | Some err => Some err
  | None =>
      match Permissions ag with
      | [] => Some (ErrExternal "invalid access grant: no permissions")
      | _ :: _ => None
      end
  end.

(** Modelled from the spec: merging adds to the receiver every role of
    [other] it does not hold yet (union of roles); grants of different
    addresses do not merge. *)
Definition MergeAdd (ag other : t) : result t :=
  if String.eqb (Address ag) (Address other)
  then Ok (mk (Address ag)
              (fold_left (fun perms p =>
                            if existsb (Access_eqb p) perms then perms
                            else perms ++ [p])
                         (Permissions other) (Permissions ag)))
  else Err ErrMergeDifferentAddress.

End AccessGrant.

(** Modelled from the spec: the constructor of a grant for an address
    and a role list. *)
Definition NewAccessGrant (address : AccAddress) (access : list Access)
  : AccessGrant.t :=
  AccessGrant.mk (String_ address) access.

(** The methods of the interface [AccessGrantI] that [GrantAccess] calls
    on its argument.  [MergeAdd] has a pointer receiver: it returns the
    updated receiver. *)
Module AccessGrantI.

Class t (G : Type) : Type := {
  Validate : G -> option error;
  GetAddress : G -> AccAddress;
  GetAccessList : G -> list Access;
  MergeAdd : G -> AccessGrant.t -> result G
}.

End AccessGrantI.

(** Modelled from the spec: the numbers behind the lifecycle status
    (generated code), in the order the spec gives; [status < StatusActive]
    and [status >= StatusActive] compare them. *)
Definition MarkerStatus_value (status : MarkerStatus) : Z :=
  match status with
  | StatusUndefined => 0
  | StatusProposed => 1
  | StatusFinalized => 2
  | StatusActive => 3
  | StatusCancelled => 4
  | StatusDestroyed => 5
  end.

(** Modelled from the spec: [access.IsOneOf(accesses...)], membership in
    the listed roles. *)
Definition IsOneOf (access : Access) (accesses : list Access) : bool :=
  existsb (Access_eqb access) accesses.

(** The failures of the validation functions, one constructor for each
    [fmt.Errorf] and [errors.New] of [Validate], [ValidateIbcDenom] and
    [ValidateGrantsForMarkerType] in [marker.go] and of
    [NormalizeRequiredAttributes] in [send_restrictions.go].  They are
    Go errors like [error]; a wrapped error ([%w]) is carried along. *)
Inductive validationError : Type :=
| ErrInvalidMarkerStatus
    (* "invalid marker status" *)
| ErrNegativeSupply
    (* "total supply must be greater than or equal to zero" *)
| ErrManagerRequired
    (* "a manager is required if there are no accounts with ACCESS_ADMIN
       and marker is not ACTIVE" *)
| ErrZeroSupplyNoMint
    (* "cannot create a marker with zero total supply and no
       authorization for minting more" *)
| ErrEmptyDenom
    (* "marker denom cannot be empty" *)
| ErrInvalidDenom (err : error)
    (* "marker denom is invalid: %w" *)
| ErrIbcConfiguration (err : validationError)
    (* "invalid ibc denom configuration: %w" *)
| ErrAddressNotDerived (address denom : string)
    (* "address %s cannot be derived from the marker denom '%s'" *)
| ErrInvalidAccessPrivileges (err : validationError)
    (* "invalid access privileges granted: %w" *)
| ErrSelfGrant (denom : string) (selfGrant : list Access)
    (* "permissions cannot be granted to '%s' marker account: %v" *)
| ErrSelfManaged
    (* "marker can not be self managed" *)
| ErrForcedTransferNotRestricted
    (* "forced transfers can only be allowed on restricted markers" *)
| ErrIbcFixedSupply
    (* "fixed supply is not supported for ibc marker" *)
| ErrIbcAccess (access : Access)
    (* "%v is not supported for ibc marker" *)
| ErrAccessNotSupported (access : Access) (markerType : MarkerType)
    (* "%v is not supported for marker type %v" *)
| ErrUnsupportedMarkerType (markerType : MarkerType)
    (* "cannot validate access grants for unsupported marker type %s" *)
| ErrTooLong (attr : string) (len maxLength : nat)
    (* "required attribute %v length is too long %v : %v " *)
| ErrFromCollaborator (err : error).
    (* an error of a function called, returned as it is *)

(** [(T, error)] for the functions whose failures are [validationError]. *)
Inductive checked (T : Type) : Type :=
| Pass (v : T)
| Fail (err : validationError).

Arguments Pass {T} v.
Arguments Fail {T} err.

(** *** The marker account *)

Module MarkerAccount.

(** [Address] is the address of the embedded base account. *)
Record t : Type := mk {
  Address : string;
  Manager : string;
  AccessControl : list AccessGrant.t;
  Status : MarkerStatus;
  Denom : string;
  Supply : Z;
  MarkerType : MarkerType;
  SupplyFixed : bool;
  AllowGovernanceControl : bool;
  AllowForcedTransfer : bool;
  RequiredAttributes : list string
}.

(** Assignments to one field of the receiver. *)
Definition with_Manager (ma : t) (manager : string) : t :=
  mk (Address ma) manager (AccessControl ma) (Status ma) (Denom ma) (Supply ma)
     (MarkerType ma) (SupplyFixed ma) (AllowGovernanceControl ma)
     (AllowForcedTransfer ma) (RequiredAttributes ma).

Definition with_AccessControl (ma : t) (acl : list AccessGrant.t) : t :=
  mk (Address ma) (Manager ma) acl (Status ma) (Denom ma) (Supply ma)
     (MarkerType ma) (SupplyFixed ma) (AllowGovernanceControl ma)
     (AllowForcedTransfer ma) (RequiredAttributes ma).

Definition with_Status (ma : t) (status : MarkerStatus) : t :=
  mk (Address ma) (Manager ma) (AccessControl ma) status (Denom ma) (Supply ma)
     (MarkerType ma) (SupplyFixed ma) (AllowGovernanceControl ma)
     (AllowForcedTransfer ma) (RequiredAttributes ma).

Definition with_Supply (ma : t) (supply : Z) : t :=
  mk (Address ma) (Manager ma) (AccessControl ma) (Status ma) (Denom ma) supply
     (MarkerType ma) (SupplyFixed ma) (AllowGovernanceControl ma)
     (AllowForcedTransfer ma) (RequiredAttributes ma).

Definition GetDenom (ma : t) : string := Denom ma.

Definition GetStatus (ma : t) : MarkerStatus := Status ma.

Definition GetMarkerType (ma : t) : types.MarkerType := MarkerType ma.

Definition GetAddress (ma : t) : AccAddress := Address ma.

Definition GetRequiredAttributes (ma : t) : list string := RequiredAttributes ma.

Definition GetAccessList (ma : t) : list AccessGrant.t := AccessControl ma.

(** [HasAccess]: some grant of [addr] carries [role]. *)
Definition HasAccess (ma : t) (addr : string) (role : Access) : bool :=
  existsb (fun g => String.eqb (AccessGrant.Address g) addr
                    && AccessGrant.HasAccess g role)
          (AccessControl ma).

Definition ValidateHasAccess (ma : t) (addr : string) (role : Access)
  : result unit :=
  if negb (HasAccess ma addr role)
  then Err (ErrNoAccess addr role (GetDenom ma) (GetAddress ma))
  else Ok tt.

Definition AddressHasAccess (ma : t) (addr : AccAddress) (role : Access) : bool :=
  HasAccess ma (String_ addr) role.

Definition ValidateAddressHasAccess (ma : t) (addr : AccAddress) (role : Access)
  : result unit :=
  ValidateHasAccess ma (String_ addr) role.

(** [AddressListForPermission]: the addresses of the grants carrying
    [role], in the order of the access list. *)
Fixpoint addressList (acl : list AccessGrant.t) (role : Access) : list AccAddress :=
  match acl with
  | [] => []
  | g :: rest =>
      if AccessGrant.HasAccess g role
      then AccessGrant.GetAddress g :: addressList rest role
      else addressList rest role
  end.

Definition AddressListForPermission (ma : t) (role : Access) : list AccAddress :=
  addressList (AccessControl ma) role.

Definition SetStatus (ma : t) (status : MarkerStatus) : result t :=
  if MarkerStatus_eqb status StatusUndefined
  then Err (ErrInvalidStatus status)
  else
    let ma := if MarkerStatus_eqb status StatusActive
              then with_Manager ma ""
              else ma in
    Ok (with_Status ma status).

Definition SetSupply (ma : t) (total : Coin) : result t :=
  if negb (String.eqb (sdk.Denom total) (Denom ma))
  then Err ErrSupplyDenom
  else Ok (with_Supply ma (Amount total)).

Section AddressVerifier.

(** [sdk.VerifyAddressFormat], which depends on the chain's configuration. *)
Variable VerifyAddressFormat : AccAddress -> option error.

Definition SetManager (ma : t) (manager : AccAddress) : result t :=
  if negb (Empty manager) && negb (MarkerStatus_eqb (Status ma) StatusProposed)
  then Err ErrManagerNotProposed
  else
    ofError (VerifyAddressFormat manager) ;;
    Ok (with_Manager ma (String_ manager)).

Definition RevokeAccess (ma : t) (addr : AccAddress) : result t :=
  match VerifyAddressFormat addr with
  | Some _ => Err ErrRevokeInvalidAddress
  | None =>
      Ok (with_AccessControl ma
            (filter (fun ac => negb (String.eqb (AccessGrant.Address ac) (String_ addr)))
                    (AccessControl ma)))
  end.

(** The loop of [GrantAccess] over the access list: every existing grant
    of the same address is merged into [access]. *)
Fixpoint mergeExisting {G : Type} `{AccessGrantI.t G}
  (access : G) (acl : list AccessGrant.t) : result G :=
  match acl with
  | [] => Ok access
  | ac :: rest =>
      if Equals (AccessGrant.GetAddress ac) (AccessGrantI.GetAddress access)
      then
        let* access' :=
          AccessGrantI.MergeAdd access
            (NewAccessGrant (AccessGrant.GetAddress ac)
                            (AccessGrant.GetAccessList ac)) in
        mergeExisting access' rest
      else mergeExisting access rest
  end.

Definition GrantAccess {G : Type} `{AccessGrantI.t G} (ma : t) (access : G)
  : result t :=
  ofError (AccessGrantI.Validate access) ;;
  let* access := mergeExisting access (AccessControl ma) in
  let* ma := RevokeAccess ma (AccessGrantI.GetAddress access) in
  Ok (with_AccessControl ma
        (AccessControl ma
         ++ [NewAccessGrant (AccessGrantI.GetAddress access)
                            (AccessGrantI.GetAccessList access)])).

End AddressVerifier.

(** The plain setters. *)
Definition SetAllowForcedTransfer (ma : t) (allowForcedTransfer : bool) : t :=
  mk (Address ma) (Manager ma) (AccessControl ma) (Status ma) (Denom ma) (Supply ma)
     (MarkerType ma) (SupplyFixed ma) (AllowGovernanceControl ma)
     allowForcedTransfer (RequiredAttributes ma).

Definition SetRequiredAttributes (ma : t) (requiredAttributes : list string) : t :=
  mk (Address ma) (Manager ma) (AccessControl ma) (Status ma) (Denom ma) (Supply ma)
     (MarkerType ma) (SupplyFixed ma) (AllowGovernanceControl ma)
     (AllowForcedTransfer ma) requiredAttributes.

(** [NewMarkerAccount] creates a marker account over a base account,
    given here by its address; the manager is cleared for a status of
    Active or later. *)
Definition NewMarkerAccount (baseAcc : AccAddress) (totalSupply : Coin)
  (manager : AccAddress) (accessControls : list AccessGrant.t)
  (status : MarkerStatus) (markerType : types.MarkerType)
  (supplyFixed allowGovernanceControl allowForcedTransfer : bool)
  (requiredAttributes : list string) : t :=
  let manager := if (MarkerStatus_value StatusActive <=? MarkerStatus_value status)%Z
                 then ""
                 else manager in
  mk baseAcc (String_ manager) accessControls status (sdk.Denom totalSupply)
     (Amount totalSupply) markerType supplyFixed allowGovernanceControl
     allowForcedTransfer requiredAttributes.

(** [GetSupply] builds the coin with [sdk.NewCoin], which panics on a
    coin that is not valid (a denom the SDK rejects, or a negative
    amount): [None] is the panic. *)
Definition GetSupply (ValidateDenom : string -> option error) (ma : t)
  : option Coin :=
  match ValidateDenom (Denom ma) with
  | Some _ => None
  | None => if (Supply ma <? 0)%Z then None else Some (NewCoin (Denom ma) (Supply ma))
  end.

End MarkerAccount.

(** [AccessGrant] implements [AccessGrantI]. *)
Definition AccessGrant_AccessGrantI (verify : AccAddress -> option error)
  : AccessGrantI.t AccessGrant.t := {|
  AccessGrantI.Validate := AccessGrant.Validate verify;
  AccessGrantI.GetAddress := AccessGrant.GetAddress;
  AccessGrantI.GetAccessList := AccessGrant.GetAccessList;
  AccessGrantI.MergeAdd := AccessGrant.MergeAdd
|}.

Definition AtLeastOneAddrHasAccess (ma : MarkerAccount.t) (addrs : list AccAddress)
  (role : Access) : bool :=
  existsb (fun addr => MarkerAccount.HasAccess ma (String_ addr) role) addrs.

Definition ValidateAtLeastOneAddrHasAccess (ma : MarkerAccount.t)
  (addrs : list AccAddress) (role : Access) : result unit :=
  match addrs with
  | [addr] => MarkerAccount.ValidateHasAccess ma (String_ addr) role
  | _ =>
      if negb (AtLeastOneAddrHasAccess ma addrs role)
      then Err (ErrNoneHavePermission (map String_ addrs) role
                  (MarkerAccount.GetDenom ma) (MarkerAccount.GetAddress ma))
      else Ok tt
  end.

Fixpoint AddToRequiredAttributes (currentAttrs addAttrs : list string)
  : result (list string) :=
  match addAttrs with
  | [] => Ok currentAttrs
  | aa :: rest =>
      if existsb (String.eqb aa) currentAttrs
      then Err (ErrAlreadyRequired aa)
      else AddToRequiredAttributes (currentAttrs ++ [aa]) rest
  end.

(** The first loop of [RemoveFromRequiredAttributes]: every name to
    remove must be present; [toRem] collects them. *)
Fixpoint collectRemovals (currentAttrs removeAttrs toRem : list string)
  : result (list string) :=
  match removeAttrs with
  | [] => Ok toRem
  | ra :: rest =>
      if existsb (String.eqb ra) currentAttrs
      then collectRemovals currentAttrs rest (ra :: toRem)
      else Err (ErrNotRequired ra)
  end.

Definition RemoveFromRequiredAttributes (currentAttrs removeAttrs : list string)
  : result (list string) :=
  let* toRem := collectRemovals currentAttrs removeAttrs [] in
  Ok (filter (fun ca => negb (existsb (String.eqb ca) toRem)) currentAttrs).

(** [ValidateIbcDenom]: an ibc denom has no fixed supply and no grant
    of Mint or Burn. *)
Fixpoint ibcAccessCheck (permissions : list Access) : checked unit :=
  match permissions with
  | [] => Pass tt
  | access :: rest =>
      if IsOneOf access [Access_Burn; Access_Mint]
      then Fail (ErrIbcAccess access)
      else ibcAccessCheck rest
  end.

Fixpoint ibcGrantsCheck (grants : list AccessGrant.t) : checked unit :=
  match grants with
  | [] => Pass tt
  | grant :: rest =>
      match ibcAccessCheck (AccessGrant.Permissions grant) with
      | Fail err => Fail err
      | Pass _ => ibcGrantsCheck rest
      end
  end.

Definition ValidateIbcDenom (ma : MarkerAccount.t) : checked unit :=
  if negb (GoStrings.HasPrefix (MarkerAccount.Denom ma) "ibc/")
  then Pass tt
  else if MarkerAccount.SupplyFixed ma
  then Fail ErrIbcFixedSupply
  else ibcGrantsCheck (MarkerAccount.AccessControl ma).

(** The roles a Coin marker supports, and those a RestrictedCoin marker
    supports. *)
Definition coinAccesses : list Access :=
  [Access_Admin; Access_Burn; Access_Delete; Access_Deposit; Access_Mint;
   Access_Withdraw].

Definition restrictedCoinAccesses : list Access :=
  [Access_Admin; Access_Burn; Access_Delete; Access_Deposit; Access_Mint;
   Access_Withdraw; Access_Transfer; Access_ForceTransfer].

(** The body of the loops of [ValidateGrantsForMarkerType] for one access. *)
Definition accessForMarkerType (markerType : MarkerType) (access : Access)
  : checked unit :=
  match markerType with
  | MarkerType_Coin =>
      if negb (IsOneOf access coinAccesses)
      then Fail (ErrAccessNotSupported access markerType)
      else Pass tt
  | MarkerType_RestrictedCoin =>
      if negb (IsOneOf access restrictedCoinAccesses)
      then Fail (ErrAccessNotSupported access markerType)
      else Pass tt
  | _ => Fail (ErrUnsupportedMarkerType markerType)
  end.

Fixpoint accessesForMarkerType (markerType : MarkerType) (permissions : list Access)
  : checked unit :=
  match permissions with
  | [] => Pass tt
  | access :: rest =>
      match accessForMarkerType markerType access with
      | Fail err => Fail err
      | Pass _ => accessesForMarkerType markerType rest
      end
  end.

Fixpoint grantsForMarkerType (markerType : MarkerType) (grants : list AccessGrant.t)
  : checked unit :=
  match grants with
  | [] => Pass tt
  | grant :: rest =>
      match accessesForMarkerType markerType (AccessGrant.Permissions grant) with
      | Fail err => Fail err
      | Pass _ => grantsForMarkerType markerType rest
      end
  end.

Section Validation.

(** The functions of the package that [Validate] calls and that live in
    files not at hand, and the validation of the base account. *)
Variable ValidMarkerStatus : MarkerStatus -> bool.
Variable TrimSpace : string -> string.
Variable MarkerAddress : string -> result AccAddress.
Variable ValidateGrants : list AccessGrant.t -> option error.
Variable GrantsForAddress : AccAddress -> list AccessGrant.t -> AccessGrant.t.
Variable BaseAccountValidate : MarkerAccount.t -> option error.

(** [ValidateGrantsForMarkerType] checks a collection of grants. *)
Definition ValidateGrantsForMarkerType (markerType : MarkerType)
  (grants : list AccessGrant.t) : checked unit :=
  match grantsForMarkerType markerType grants with
  | Fail err => Fail err
  | Pass _ =>
      match ValidateGrants grants with
      | Some err => Fail (ErrFromCollaborator err)
      | None => Pass tt
      end
  end.

(** [Validate] performs minimal sanity checking over a marker account. *)
Definition Validate (ma : MarkerAccount.t) : checked unit :=
  if negb (ValidMarkerStatus (MarkerAccount.Status ma))
  then Fail ErrInvalidMarkerStatus
  else if (MarkerAccount.Supply ma <? 0)%Z
  then Fail ErrNegativeSupply
  else if (MarkerStatus_value (MarkerAccount.Status ma)
           <? MarkerStatus_value StatusActive)%Z
          && String.eqb (MarkerAccount.Manager ma) ""
          && (length (MarkerAccount.AddressListForPermission ma Access_Admin) =? 0)%nat
  then Fail ErrManagerRequired
  else if MarkerStatus_eqb (MarkerAccount.Status ma) StatusFinalized
          && (length (MarkerAccount.AddressListForPermission ma Access_Mint) =? 0)%nat
          && (MarkerAccount.Supply ma =? 0)%Z
  then Fail ErrZeroSupplyNoMint
  else if String.eqb (TrimSpace (MarkerAccount.Denom ma)) ""
  then Fail ErrEmptyDenom
  else
    match MarkerAddress (MarkerAccount.Denom ma) with
    | Err err => Fail (ErrInvalidDenom err)
    | Ok markerAddress =>
        match ValidateIbcDenom ma with
        | Fail err => Fail (ErrIbcConfiguration err)
        | Pass _ =>
            if negb (Equals (MarkerAccount.Address ma) markerAddress)
            then Fail (ErrAddressNotDerived (MarkerAccount.Address ma)
                         (MarkerAccount.Denom ma))
            else
              match ValidateGrantsForMarkerType (MarkerAccount.MarkerType ma)
                      (MarkerAccount.AccessControl ma) with
              | Fail err => Fail (ErrInvalidAccessPrivileges err)
              | Pass _ =>
                  let selfGrant :=
                    AccessGrant.GetAccessList
                      (GrantsForAddress (MarkerAccount.GetAddress ma)
                         (MarkerAccount.AccessControl ma)) in
                  if (0 <? length selfGrant)%nat
                  then Fail (ErrSelfGrant (MarkerAccount.Denom ma) selfGrant)
                  else if String.eqb (MarkerAccount.Manager ma)
                            (String_ (MarkerAccount.GetAddress ma))
                  then Fail ErrSelfManaged
                  else if MarkerAccount.AllowForcedTransfer ma
                          && negb (MarkerType_eqb (MarkerAccount.MarkerType ma)
                                     MarkerType_RestrictedCoin)
                  then Fail ErrForcedTransferNotRestricted
                  else
                    match BaseAccountValidate ma with
                    | Some err => Fail (ErrFromCollaborator err)
                    | None => Pass tt
                    end
              end
        end
    end.

End Validation.

End types.

(** ** [x/marker/keeper]: the send restriction *)

Module keeper.

Import sdk types.
Local Open Scope go_scope.

(** [attrTypes.Attribute]; the matcher reads its name only. *)
Record Attribute : Type := mkAttribute { Name : string }.

(** Modelled from the spec: the flags a call carries in its context
    ([types.HasBypass], [types.GetTransferAgents] and
    [internalsdk.HasFeeGrantInUse] read them; they live in files that are
    not part of the sources at hand).  The spec calls them bypassActive,
    transferAgents and feeGrantInUse. *)
Record Context : Type := mkContext {
  HasBypass : bool;
  GetTransferAgents : list AccAddress;
  HasFeeGrantInUse : bool
}.

(** The keeper: its three configured addresses and the reads it makes
    against the state of the call ([GetMarker], [IsSendDeny],
    [IsReqAttrBypassAddr], and [attrKeeper.GetAllAttributesAddr]). *)
Record Keeper : Type := mkKeeper {
  markerModuleAddr : AccAddress;
  ibcTransferModuleAddr : AccAddress;
  feeCollectorAddr : AccAddress;
  GetMarker : Context -> AccAddress -> result (option MarkerAccount.t);
  IsSendDeny : Context -> AccAddress -> AccAddress -> bool;
  IsReqAttrBypassAddr : AccAddress -> bool;
  GetAllAttributesAddr : Context -> AccAddress -> result (list Attribute)
}.

(** [m, _ := k.GetMarker(ctx, addr)]: the marker, [nil] on an error. *)
Definition markerOrNil (r : result (option MarkerAccount.t))
  : option MarkerAccount.t :=
  match r with
  | Ok m => m
  | Err _ => None
  end.

(** [MatchAttribute] returns true if the provided attr satisfies the reqAttr. *)
Definition MatchAttribute (reqAttr attr : string) : bool :=
  if (String.length reqAttr <? 1)%nat then false
  else if GoStrings.HasPrefix reqAttr "*."
       then GoStrings.HasSuffix attr (GoStrings.drop 1 reqAttr)
       else String.eqb reqAttr attr.

(** [findMissingAttributes]: the entries of [required] that no attribute
    name matches, in the order of [required]. *)
Fixpoint findMissingAttributes (required : list string) (attributes : list Attribute)
  : list string :=
  match required with
  | [] => []
  | req :: rest =>
      if existsb (fun attr => MatchAttribute req (Name attr)) attributes
      then findMissingAttributes rest attributes
      else req :: findMissingAttributes rest attributes
  end.

Section Send.

(** [types.MustGetMarkerAddress]: the address derived from a denom (the
    denoms of a [Coins] value are valid, so it does not panic). *)
Variable MustGetMarkerAddress : string -> AccAddress.

Variable k : Keeper.

(** [validateSendDenom] makes sure a send of the given denom is allowed
    for the given addresses. *)
Definition validateSendDenom (ctx : Context) (fromAddr toAddr : AccAddress)
  (admins : list AccAddress) (denom : string) (toMarker : option MarkerAccount.t)
  : result unit :=
  let markerAddr := MustGetMarkerAddress denom in
  let* marker := GetMarker k ctx markerAddr in
  match marker with
  | None => Ok tt
  | Some marker =>
      (* If there's a marker, it must be active. *)
      if negb (MarkerStatus_eqb (MarkerAccount.GetStatus marker) StatusActive)
      then Err (ErrSendNotActive denom (MarkerAccount.GetStatus marker))
      (* Not a restricted marker: nothing more to do. *)
      else if negb (MarkerType_eqb (MarkerAccount.GetMarkerType marker)
                                   MarkerType_RestrictedCoin)
      then Ok tt
      (* Restricted coins can't end up with the fee collector. *)
      else if Equals toAddr (feeCollectorAddr k)
      then Err (ErrRestrictedToFeeCollector denom)
      (* An admin with transfer access. *)
      else if (0 <? length admins)%nat
              && AtLeastOneAddrHasAccess marker admins Access_Transfer
      then Ok tt
      (* The send-deny list. *)
      else if IsSendDeny k ctx markerAddr fromAddr
      then Err (ErrOnDenyList (String_ fromAddr))
      (* The fromAddr has transfer access. *)
      else if MarkerAccount.AddressHasAccess marker fromAddr Access_Transfer
      then Ok tt
      else
        match toMarker with
        | Some _ =>
            (* Going to a marker: transfer permission is required. *)
            if (length admins =? 0)%nat
            then Err (ErrNoAccess (String_ fromAddr) Access_Transfer denom
                        (MarkerAccount.GetAddress marker))
            else Err (ErrNoneHave (String_ fromAddr :: map String_ admins)
                        Access_Transfer denom (MarkerAccount.GetAddress marker))
        | None =>
            let reqAttr := MarkerAccount.GetRequiredAttributes marker in
            if (length reqAttr =? 0)%nat
            then
              if IsReqAttrBypassAddr k fromAddr
              then Ok tt
              else Err (ErrNoTransferPermissions (String_ fromAddr) denom)
            else if IsReqAttrBypassAddr k toAddr
            then Ok tt
            else
              match GetAllAttributesAddr k ctx toAddr with
              | Err err => Err (ErrGetAttributes (String_ toAddr) err)
              | Ok attributes =>
                  let missing := findMissingAttributes reqAttr attributes in
                  if negb (length missing =? 0)%nat
                  then Err (ErrMissingAttributes (String_ toAddr) denom missing)
                  else Ok tt
              end
        end
  end.

(** The loop of the bypass branch: no restricted denom may reach the fee
    collector. *)
Fixpoint feeCollectorCheck (ctx : Context) (amt : Coins) : result unit :=
  match amt with
  | [] => Ok tt
  | coin :: rest =>
      let markerAddr := MustGetMarkerAddress (Denom coin) in
      let* marker := GetMarker k ctx markerAddr in
      match marker with
      | Some marker =>
          if MarkerType_eqb (MarkerAccount.GetMarkerType marker)
                            MarkerType_RestrictedCoin
          then Err (ErrBypassRestrictedToFeeCollector (Denom coin))
          else feeCollectorCheck ctx rest
      | None => feeCollectorCheck ctx rest
      end
  end.

(** Sending from a marker needs a transfer agent with withdraw access,
    unless a feegrant is in use. *)
Definition withdrawCheck (ctx : Context) (admins : list AccAddress)
  (fromAddr : AccAddress) (fromMarker : MarkerAccount.t) : result unit :=
  if negb (HasFeeGrantInUse ctx)
  then
    if (length admins =? 0)%nat
    then Err (ErrCannotWithdraw (String_ fromAddr) (MarkerAccount.GetDenom fromMarker))
    else ValidateAtLeastOneAddrHasAccess fromMarker admins Access_Withdraw
  else Ok tt.

(** The coins created by a marker can only be withdrawn when it is active. *)
Definition fromStatusCheck (fromAddr : AccAddress) (amt : Coins)
  (fromMarker : MarkerAccount.t) : result unit :=
  if negb (MarkerStatus_eqb (MarkerAccount.GetStatus fromMarker) StatusActive)
  then
    let (hasFromCoin, fromAmt) := Find amt (MarkerAccount.GetDenom fromMarker) in
    if hasFromCoin && negb (IsZero fromAmt)
    then Err (ErrWithdrawNotActive fromAmt (MarkerAccount.GetDenom fromMarker)
                fromAddr (MarkerAccount.GetStatus fromMarker))
    else Ok tt
  else Ok tt.

(** Going to a restricted marker: an admin (if there is one) or fromAddr
    (if there isn't an admin) must have deposit access on it. *)
Definition depositCheck (admins : list AccAddress) (fromAddr : AccAddress)
  (toMarker : option MarkerAccount.t) : result unit :=
  match toMarker with
  | Some toMarker =>
      if MarkerType_eqb (MarkerAccount.GetMarkerType toMarker)
                        MarkerType_RestrictedCoin
      then
        if (0 <? length admins)%nat
        then ValidateAtLeastOneAddrHasAccess toMarker admins Access_Deposit
        else MarkerAccount.ValidateAddressHasAccess toMarker fromAddr Access_Deposit
      else Ok tt
  | None => Ok tt
  end.

(** The ability to send each denom involved. *)
Fixpoint validateSendDenoms (ctx : Context) (fromAddr toAddr : AccAddress)
  (admins : list AccAddress) (amt : Coins) (toMarker : option MarkerAccount.t)
  : result unit :=
  match amt with
  | [] => Ok tt
  | coin :: rest =>
      validateSendDenom ctx fromAddr toAddr admins (Denom coin) toMarker ;;
      validateSendDenoms ctx fromAddr toAddr admins rest toMarker
  end.

(** What [SendRestrictionFn] does once the sender side has been dealt
    with: the deposit check and the per-denom checks. *)
Definition receiverAndDenomChecks (ctx : Context) (fromAddr toAddr : AccAddress)
  (admins : list AccAddress) (amt : Coins) : result AccAddress :=
  let toMarker := markerOrNil (GetMarker k ctx toAddr) in
  depositCheck admins fromAddr toMarker ;;
  validateSendDenoms ctx fromAddr toAddr admins amt toMarker ;;
  Ok toAddr.

Definition SendRestrictionFn (ctx : Context) (fromAddr toAddr : AccAddress)
  (amt : Coins) : result AccAddress :=
  if HasBypass ctx
     || Equals fromAddr (markerModuleAddr k)
     || Equals fromAddr (ibcTransferModuleAddr k)
  then
    (if Equals toAddr (feeCollectorAddr k)
     then feeCollectorCheck ctx amt
     else Ok tt) ;;
    Ok toAddr
  else
    let admins := GetTransferAgents ctx in
    match markerOrNil (GetMarker k ctx fromAddr) with
    | Some fromMarker =>
        withdrawCheck ctx admins fromAddr fromMarker ;;
        fromStatusCheck fromAddr amt fromMarker ;;
        receiverAndDenomChecks ctx fromAddr toAddr admins amt
    | None => receiverAndDenomChecks ctx fromAddr toAddr admins amt
    end.

End Send.

Section Normalize.

(** [attrKeeper.GetMaxValueLength] and [nameKeeper.Normalize]. *)
Variable GetMaxValueLength : Context -> nat.
Variable Normalize : Context -> string -> result string.

(** The body of the loop of [NormalizeRequiredAttributes]: a name that
    starts with "*." is normalized behind that prefix. *)
Definition normalizeRequiredAttribute (ctx : Context) (maxLength : nat)
  (attr : string) : checked string :=
  if (maxLength <? String.length attr)%nat
  then Fail (ErrTooLong attr (String.length attr) maxLength)
  else
    let (prefix, attr) :=
      if GoStrings.HasPrefix attr "*."
      then (GoStrings.take 2 attr, GoStrings.drop 2 attr)
      else ("", attr) in
    match Normalize ctx attr with
    | Err err => Fail (ErrFromCollaborator err)
    | Ok normalizedAttr => Pass (prefix ++ normalizedAttr)%string
    end.

Fixpoint normalizeEach (ctx : Context) (maxLength : nat)
  (requiredAttributes : list string) : checked (list string) :=
  match requiredAttributes with
  | [] => Pass []
  | attr :: rest =>
      match normalizeRequiredAttribute ctx maxLength attr with
      | Fail err => Fail err
      | Pass normalized =>
          match normalizeEach ctx maxLength rest with
          | Fail err => Fail err
          | Pass result => Pass (normalized :: result)
          end
      end
  end.

(** [NormalizeRequiredAttributes] normalizes the required attribute
    names using the name module's Normalize method. *)
Definition NormalizeRequiredAttributes (ctx : Context)
  (requiredAttributes : list string) : checked (list string) :=
  let maxLength := GetMaxValueLength ctx in
  normalizeEach ctx maxLength requiredAttributes.

End Normalize.

End keeper.

(** ** The vocabulary of the specification

    These definitions follow the words of the specification, not the
    code: the failure taxonomy of its section 7, read off the messages
    of the code, and the plain notions "starts with" and "ends with". *)

Module Spec.

Import sdk types.

Inductive Reason : Type :=
| WithdrawNotAuthorized
| MarkerNotActive
| DepositNotAuthorized
| RestrictedToFeeCollector
| SenderDenied
| TransferNotAuthorized
| MissingRequiredAttributes
| AttributeLookupFailed
| InvalidGrant
| InvalidAddress
| AlreadyRequired
| NotRequired
| MarkerInvariantViolation.

(** The reason a missing role stands for: Withdraw, Deposit and Transfer
    are the roles the engine asks for. *)
Definition reasonOfRole (role : Access) : option Reason :=
  match role with
  | Access_Withdraw => Some WithdrawNotAuthorized
  | Access_Deposit => Some DepositNotAuthorized
  | Access_Transfer => Some TransferNotAuthorized
  | _ => None
  end.

(** The reason an error of the code stands for; an error of a
    collaborator has none of its own. *)
Definition reasonOf (err : error) : option Reason :=
  match err with
  | ErrNoAccess _ role _ _ => reasonOfRole role
  | ErrNoneHavePermission _ role _ _ => reasonOfRole role
  | ErrNoneHave _ role _ _ => reasonOfRole role
  | ErrInvalidStatus _ => Some MarkerInvariantViolation
  | ErrManagerNotProposed => Some MarkerInvariantViolation
  | ErrSupplyDenom => Some MarkerInvariantViolation
  | ErrRevokeInvalidAddress => Some InvalidAddress
  | ErrAlreadyRequired _ => Some AlreadyRequired
  | ErrNotRequired _ => Some NotRequired
  | ErrMergeDifferentAddress => Some InvalidGrant
  | ErrBypassRestrictedToFeeCollector _ => Some RestrictedToFeeCollector
  | ErrCannotWithdraw _ _ => Some WithdrawNotAuthorized
  | ErrWithdrawNotActive _ _ _ _ => Some MarkerNotActive
  | ErrSendNotActive _ _ => Some MarkerNotActive
  | ErrRestrictedToFeeCollector _ => Some RestrictedToFeeCollector
  | ErrOnDenyList _ => Some SenderDenied
  | ErrNoTransferPermissions _ _ => Some TransferNotAuthorized
  | ErrGetAttributes _ _ => Some AttributeLookupFailed
  | ErrMissingAttributes _ _ _ => Some MissingRequiredAttributes
  | ErrExternal _ => None
  end.

(** A result is a denial for [reason]. *)
Definition deniedWith {T : Type} (r : result T) (reason : Reason) : Prop :=
  exists err, r = Err err /\ reasonOf err = Some reason.

(** A result is a denial, whatever the reason. *)
Definition denied {T : Type} (r : result T) : Prop :=
  exists err, r = Err err.

(** A denom of [amounts] resolves to a marker of type RestrictedCoin. *)
Definition hasRestrictedDenom (MustGetMarkerAddress : string -> AccAddress)
  (k : keeper.Keeper) (ctx : keeper.Context) (amounts : Coins) : Prop :=
  exists coin marker,
    In coin amounts
    /\ keeper.GetMarker k ctx (MustGetMarkerAddress (Denom coin)) = Ok (Some marker)
    /\ MarkerAccount.MarkerType marker = MarkerType_RestrictedCoin.

Definition startsWith (s pre : string) : Prop :=
  exists rest : string, s = (pre ++ rest)%string.

Definition endsWith (s suf : string) : Prop :=
  exists pre : string, s = (pre ++ suf)%string.

(** [findMissing(requiredPatterns, heldAttributeNames)] of the
    specification is [findMissingAttributes] on attributes of those names. *)
Definition findMissing (requiredPatterns heldAttributeNames : list string)
  : list string :=
  keeper.findMissingAttributes requiredPatterns
    (map keeper.mkAttribute heldAttributeNames).

(** [grantAccess(account, grant)] of the specification is [GrantAccess]
    on a grant record. *)
Definition grantAccess (verify : AccAddress -> option error)
  (account : MarkerAccount.t) (grant : AccessGrant.t) : result MarkerAccount.t :=
  @MarkerAccount.GrantAccess verify AccessGrant.t
    (AccessGrant_AccessGrantI verify) account grant.

(** What the implementation of [AccessGrantI] must provide for the
    merge to be the one of the specification: the address is kept and
    the roles are the union. *)
Definition mergesByUnion {G : Type} (I : AccessGrantI.t G) : Prop :=
  forall (g g' : G) (other : AccessGrant.t),
    AccessGrantI.MergeAdd g other = Ok g' ->
    AccessGrantI.GetAddress g' = AccessGrantI.GetAddress g
    /\ forall role,
         In role (AccessGrantI.GetAccessList g')
         <-> In role (AccessGrantI.GetAccessList g)
             \/ In role (AccessGrant.Permissions other).

(** The access-control entries of one address. *)
Definition entriesFor (address : string) (acl : list AccessGrant.t)
  : list AccessGrant.t :=
  filter (fun g => String.eqb (AccessGrant.Address g) address) acl.

(** The access-control entries of every other address. *)
Definition entriesNotFor (address : string) (acl : list AccessGrant.t)
  : list AccessGrant.t :=
  filter (fun g => negb (String.eqb (AccessGrant.Address g) address)) acl.

(** The calls that change a marker account.  A method that returns an
    error has not touched its receiver. *)
Inductive Mutation : Type :=
| CallSetStatus (status : MarkerStatus)
| CallSetManager (manager : AccAddress)
| CallSetSupply (total : Coin)
| CallGrantAccess (grant : AccessGrant.t)
| CallRevokeAccess (addr : AccAddress)
| CallSetAllowForcedTransfer (allowForcedTransfer : bool)
| CallSetRequiredAttributes (requiredAttributes : list string).

Definition call (verify : AccAddress -> option error) (ma : MarkerAccount.t)
  (m : Mutation) : result MarkerAccount.t :=
  match m with
  | CallSetStatus status => MarkerAccount.SetStatus ma status
  | CallSetManager manager => MarkerAccount.SetManager verify ma manager
  | CallSetSupply total => MarkerAccount.SetSupply ma total
  | CallGrantAccess grant => grantAccess verify ma grant
  | CallRevokeAccess addr => MarkerAccount.RevokeAccess verify ma addr
  | CallSetAllowForcedTransfer allow =>
      Ok (MarkerAccount.SetAllowForcedTransfer ma allow)
  | CallSetRequiredAttributes attrs =>
      Ok (MarkerAccount.SetRequiredAttributes ma attrs)
  end.

Definition after (verify : AccAddress -> option error) (ma : MarkerAccount.t)
  (m : Mutation) : MarkerAccount.t :=
  match call verify ma m with
  | Ok ma' => ma'
  | Err _ => ma
  end.

Definition afterAll (verify : AccAddress -> option error) (ma : MarkerAccount.t)
  (calls : list Mutation) : MarkerAccount.t :=
  fold_left (after verify) calls ma.

(** An Active marker has no manager. *)
Definition noManagerWhenActive (ma : MarkerAccount.t) : Prop :=
  MarkerAccount.Status ma = StatusActive -> MarkerAccount.Manager ma = "".

End Spec.

(** ** Concrete markers and calls, used as examples *)

Module Scenario.

Import sdk types.

(** The SDK's default address check rejects the empty address. *)
Definition verifyNonEmpty (addr : AccAddress) : option error :=
  if Empty addr then Some (ErrExternal "addresses cannot be empty") else None.

Definition alice : AccAddress := "pb1alice".
Definition bob : AccAddress := "pb1bob".
Definition carol : AccAddress := "pb1carol".

(** A marker of the given denom, status, type and grants; its address
    is derived from the denom. *)
Definition markerAddr (denom : string) : AccAddress := ("pb1marker/" ++ denom)%string.

Definition marker (denom : string) (status : MarkerStatus) (markerType : MarkerType)
  (grants : list AccessGrant.t) (requiredAttributes : list string)
  : MarkerAccount.t :=
  MarkerAccount.mk (markerAddr denom) "" grants status denom 1000 markerType
    true true false requiredAttributes.

(** A Proposed coin marker on which alice and bob hold Admin. *)
Definition twoAdmins : MarkerAccount.t :=
  marker "hotdog" StatusProposed MarkerType_Coin
    [AccessGrant.mk alice [Access_Admin]; AccessGrant.mk bob [Access_Admin]] [].

(** [twoAdmins] after alice has been granted Mint as well. *)
Definition twoAdminsRegranted : MarkerAccount.t :=
  marker "hotdog" StatusProposed MarkerType_Coin
    [AccessGrant.mk bob [Access_Admin];
     AccessGrant.mk alice [Access_Mint; Access_Admin]] [].

(** An Active coin marker without grants. *)
Definition activeCoin : MarkerAccount.t :=
  marker "hotdog" StatusActive MarkerType_Coin [] [].

(** A RestrictedCoin marker that requires "kyc.example": alice holds
    Transfer on it and bob holds Withdraw. *)
Definition security (status : MarkerStatus) : MarkerAccount.t :=
  marker "security" status MarkerType_RestrictedCoin
    [AccessGrant.mk alice [Access_Transfer]; AccessGrant.mk bob [Access_Withdraw]]
    ["kyc.example"].

Definition markerModule : AccAddress := "pb1markermodule".
Definition ibcTransferModule : AccAddress := "pb1ibctransfer".
Definition feeCollector : AccAddress := "pb1feecollector".

(** A keeper over a list of markers, a send-deny list of (marker
    address, denied address) pairs and the attribute names held by
    addresses; no address bypasses the required attributes. *)
Definition keeperOf (markers : list MarkerAccount.t)
  (sendDeny : list (AccAddress * AccAddress)) (held : list (AccAddress * string))
  : keeper.Keeper :=
  keeper.mkKeeper markerModule ibcTransferModule feeCollector
    (fun _ addr =>
       Ok (find (fun m => String.eqb (MarkerAccount.Address m) addr) markers))
    (fun _ markerAddress addr =>
       existsb (fun entry => String.eqb (fst entry) markerAddress
                             && String.eqb (snd entry) addr) sendDeny)
    (fun _ => false)
    (fun _ addr =>
       Ok (map (fun h => keeper.mkAttribute (snd h))
               (filter (fun h => String.eqb (fst h) addr) held))).

(** Calls: an ordinary one, one with bypass, one with a feegrant in use,
    and one made by transfer agents. *)
Definition plainCall : keeper.Context := keeper.mkContext false [] false.
Definition bypassCall : keeper.Context := keeper.mkContext true [] false.
Definition feeGrantCall : keeper.Context := keeper.mkContext false [] true.
Definition agentCall (agents : list AccAddress) : keeper.Context :=
  keeper.mkContext false agents false.

(** [security] with a further grant: carol holds Transfer too. *)
Definition securityWithCarol (status : MarkerStatus) : MarkerAccount.t :=
  marker "security" status MarkerType_RestrictedCoin
    [AccessGrant.mk alice [Access_Transfer]; AccessGrant.mk bob [Access_Withdraw];
     AccessGrant.mk carol [Access_Transfer]]
    ["kyc.example"].

Definition dave : AccAddress := "pb1dave".

(** Stand-ins for the helpers [Validate] calls: every status but
    Undefined is recognized, a denom is blank when it is empty, the
    marker address is derived as in [markerAddr], and the grants of an
    address are the roles of its entries. *)
Definition recognizedStatus (status : MarkerStatus) : bool :=
  negb (MarkerStatus_eqb status StatusUndefined).

Definition derivedAddress (denom : string) : result AccAddress :=
  Ok (markerAddr denom).

Definition grantsOf (addr : AccAddress) (grants : list AccessGrant.t)
  : AccessGrant.t :=
  AccessGrant.mk addr
    (flat_map AccessGrant.Permissions
       (filter (fun g => String.eqb (AccessGrant.Address g) addr) grants)).

Definition validate (ma : MarkerAccount.t) : checked unit :=
  Validate recognizedStatus (fun s => s) derivedAddress (fun _ => None) grantsOf
    (fun _ => None) ma.

(** [twoAdmins] without alice's grant. *)
Definition onlyBob : MarkerAccount.t :=
  marker "hotdog" StatusProposed MarkerType_Coin
    [AccessGrant.mk bob [Access_Admin]] [].

(** A marker the lifecycle has left behind. *)
Definition destroyedCoin : MarkerAccount.t :=
  marker "hotdog" StatusDestroyed MarkerType_Coin [] [].

End Scenario.

(** * Properties *)

(** ** Strings *)

Section StringFacts.

Import GoStrings.

Lemma length_app_string (s1 s2 : string) :
  String.length (s1 ++ s2)%string = String.length s1 + String.length s2.
Proof.
  induction s1 as [|c s1 IH]; simpl; [reflexivity | now rewrite IH].
Qed.

Lemma take_drop (n : nat) (s : string) : (take n s ++ drop n s)%string = s.
Proof.
  revert s; induction n as [|n IH]; intros [|c s]; simpl; try reflexivity.
  now rewrite IH.
Qed.

Lemma take_app_length (p s : string) : take (String.length p) (p ++ s)%string = p.
Proof.
  induction p as [|c p IH]; simpl.
  - now destruct s.
  - now rewrite IH.
Qed.

Lemma drop_app_length (p s : string) : drop (String.length p) (p ++ s)%string = s.
Proof.
  induction p as [|c p IH]; simpl; [reflexivity | exact IH].
Qed.

Lemma HasPrefix_startsWith (s prefix : string) :
  HasPrefix s prefix = true <-> Spec.startsWith s prefix.
Proof.
  unfold HasPrefix, Spec.startsWith; split.
  - intros H; apply andb_true_iff in H as [_ H].
    apply String.eqb_eq in H.
    exists (drop (String.length prefix) s).
    rewrite <- H at 1. symmetry; apply take_drop.
  - intros [rest ->]. apply andb_true_iff; split.
    + apply Nat.leb_le. rewrite length_app_string; lia.
    + apply String.eqb_eq, take_app_length.
Qed.

Lemma HasSuffix_endsWith (s suffix : string) :
  HasSuffix s suffix = true <-> Spec.endsWith s suffix.
Proof.
  unfold HasSuffix, Spec.endsWith; split.
  - intros H; apply andb_true_iff in H as [_ H].
    apply String.eqb_eq in H.
    exists (take (String.length s - String.length suffix) s).
    rewrite <- H at 2. symmetry; apply take_drop.
  - intros [pre ->]. apply andb_true_iff; split.
    + apply Nat.leb_le. rewrite length_app_string; lia.
    + apply String.eqb_eq.
      rewrite length_app_string.
      replace (String.length pre + String.length suffix - String.length suffix)
        with (String.length pre) by lia.
      apply drop_app_length.
Qed.

End StringFacts.

(** ** The attribute matcher *)

Section Matcher.

Import keeper Spec.

Lemma MatchAttribute_wildcard (rest attributeName : string) :
  MatchAttribute ("*." ++ rest) attributeName
  = GoStrings.HasSuffix attributeName ("." ++ rest).
Proof.
  unfold MatchAttribute.
  assert (Hp : GoStrings.HasPrefix ("*." ++ rest) "*." = true)
    by (apply HasPrefix_startsWith; now exists rest).
  now rewrite Hp.
Qed.

Lemma MatchAttribute_exact (requiredPattern attributeName : string) :
  requiredPattern <> "" ->
  ~ Spec.startsWith requiredPattern "*." ->
  MatchAttribute requiredPattern attributeName
  = String.eqb requiredPattern attributeName.
Proof.
  intros Hne Hnw; unfold MatchAttribute.
  destruct requiredPattern as [|c p]; [contradiction|]; simpl.
  destruct (GoStrings.HasPrefix (String c p) "*.") eqn:Hp; [|reflexivity].
  now apply HasPrefix_startsWith in Hp.
Qed.

(** C5.  [MatchAttribute] never matches the empty pattern; a pattern
    that starts with "*." matches exactly the attribute names that end
    with the pattern less its leading '*' (the '.' belongs to the
    required suffix); any other pattern matches exactly the attribute
    name equal to it. *)
Theorem MatchAttribute_spec :
  (forall attributeName, MatchAttribute "" attributeName = false)
  /\ (forall requiredPattern attributeName,
        Spec.startsWith requiredPattern "*." ->
        (MatchAttribute requiredPattern attributeName = true
         <-> Spec.endsWith attributeName (GoStrings.drop 1 requiredPattern)))
  /\ (forall requiredPattern attributeName,
        requiredPattern <> "" ->
        ~ Spec.startsWith requiredPattern "*." ->
        (MatchAttribute requiredPattern attributeName = true
         <-> requiredPattern = attributeName)).
Proof.
  split; [reflexivity | split].
  - intros p a [rest ->].
    rewrite MatchAttribute_wildcard. simpl GoStrings.drop.
    apply HasSuffix_endsWith.
  - intros p a Hne Hnw.
    rewrite (MatchAttribute_exact p a Hne Hnw).
    apply String.eqb_eq.
Qed.

Lemma MatchAttribute_spec_witness :
  MatchAttribute "" "kyc.example" = false
  /\ (MatchAttribute "*.kyc.example" "a.kyc.example" = true
      <-> Spec.endsWith "a.kyc.example" ".kyc.example")
  /\ (MatchAttribute "kyc.example" "kyc.example" = true
      <-> "kyc.example" = "kyc.example").
Proof.
  destruct MatchAttribute_spec as (H1 & H2 & H3).
  split; [apply H1 | split].
  - apply (H2 "*.kyc.example" "a.kyc.example").
    exists "kyc.example"; reflexivity.
  - apply (H3 "kyc.example" "kyc.example").
    + discriminate.
    + intros [rest Hrest]; discriminate Hrest.
Defined.

(** C6, as amended.  On the three vectors [findMissingAttributes] gives
    nothing missing, the wildcard pattern missing, and the exact
    pattern missing: "kyc.example" does not end with ".kyc.example". *)
Theorem findMissing_vectors :
  findMissing ["*.kyc.example"] ["a.kyc.example"] = []
  /\ findMissing ["*.kyc.example"] ["kyc.example"] = ["*.kyc.example"]
  /\ findMissing ["kyc.example"] ["sub.kyc.example"] = ["kyc.example"].
Proof.
  repeat split; reflexivity.
Qed.

(** C6, as stated, fails on its second vector. *)
Lemma findMissing_vectors_counterexample :
  ~ (findMissing ["*.kyc.example"] ["a.kyc.example"] = []
     /\ findMissing ["*.kyc.example"] ["kyc.example"] = []
     /\ findMissing ["kyc.example"] ["sub.kyc.example"] = ["kyc.example"]).
Proof.
  intros (_ & H & _). vm_compute in H. discriminate H.
Qed.

End Matcher.

(** ** Required attributes *)

Section RequiredAttributes.

Import types.

Lemma existsb_eqb_In (a : string) (l : list string) :
  existsb (String.eqb a) l = true <-> In a l.
Proof.
  rewrite existsb_exists; split.
  - intros [x [Hx Heq]]. apply String.eqb_eq in Heq. now subst.
  - intros H. exists a. split; [exact H | apply String.eqb_refl].
Qed.

Lemma existsb_eqb_not_In (a : string) (l : list string) :
  existsb (String.eqb a) l = false <-> ~ In a l.
Proof.
  rewrite <- existsb_eqb_In. now destruct (existsb (String.eqb a) l).
Qed.

(** A run of fresh, pairwise different names is appended and the scan
    goes on with the rest. *)
Lemma AddToRequiredAttributes_fresh_prefix (pre rest current : list string) :
  NoDup pre ->
  (forall n, In n pre -> ~ In n current) ->
  AddToRequiredAttributes current (pre ++ rest)
  = AddToRequiredAttributes (current ++ pre) rest.
Proof.
  revert current; induction pre as [|aa pre IH]; intros current Hnd Hfresh.
  - now rewrite app_nil_r.
  - simpl. inversion Hnd as [|? ? Hnotin Hnd']; subst.
    assert (Haa : existsb (String.eqb aa) current = false).
    { apply existsb_eqb_not_In, Hfresh. now left. }
    rewrite Haa, IH.
    + now rewrite <- app_assoc.
    + exact Hnd'.
    + intros n Hn Hin. apply in_app_or in Hin as [Hin | [<- | []]].
      * apply (Hfresh n); [now right | exact Hin].
      * contradiction.
Qed.

(** C9, as amended.  [AddToRequiredAttributes] fails with
    [ErrAlreadyRequired] naming the first name of [toAdd] that is
    present in [current] or repeats an earlier name of [toAdd];
    when no name of [toAdd] is present in [current] and none is
    repeated, it returns [current] with the names of [toAdd] appended
    in order; adding the same name a second time fails. *)
Theorem AddToRequiredAttributes_spec :
  (forall current pre name post,
      NoDup pre ->
      (forall n, In n pre -> ~ In n current) ->
      In name current \/ In name pre ->
      AddToRequiredAttributes current (pre ++ name :: post)
      = Err (ErrAlreadyRequired name))
  /\ (forall current toAdd,
        NoDup toAdd ->
        (forall n, In n toAdd -> ~ In n current) ->
        AddToRequiredAttributes current toAdd = Ok (current ++ toAdd))
  /\ (forall current name updated,
        AddToRequiredAttributes current [name] = Ok updated ->
        AddToRequiredAttributes updated [name] = Err (ErrAlreadyRequired name)).
Proof.
  split; [|split].
  - intros current pre name post Hnd Hfresh Hin.
    rewrite AddToRequiredAttributes_fresh_prefix by assumption.
    simpl.
    assert (H : existsb (String.eqb name) (current ++ pre) = true).
    { apply existsb_eqb_In, in_or_app. exact Hin. }
    now rewrite H.
  - intros current toAdd Hnd Hfresh.
    rewrite <- (app_nil_r toAdd) at 1.
    now rewrite AddToRequiredAttributes_fresh_prefix.
  - intros current name updated. simpl.
    destruct (existsb (String.eqb name) current) eqn:Hc; [discriminate|].
    intros [= <-].
    assert (H : existsb (String.eqb name) (current ++ [name]) = true).
    { apply existsb_eqb_In, in_or_app. right; now left. }
    now rewrite H.
Qed.

Lemma AddToRequiredAttributes_spec_witness :
  AddToRequiredAttributes ["kyc"] (["aml"] ++ "kyc" :: ["tax"])
  = Err (ErrAlreadyRequired "kyc")
  /\ AddToRequiredAttributes ["kyc"] (["aml"] ++ "aml" :: ["tax"])
     = Err (ErrAlreadyRequired "aml")
  /\ AddToRequiredAttributes ["kyc"] ["aml"; "tax"] = Ok (["kyc"] ++ ["aml"; "tax"])
  /\ AddToRequiredAttributes ["kyc"; "aml"] ["aml"] = Err (ErrAlreadyRequired "aml").
Proof.
  destruct AddToRequiredAttributes_spec as (Hfail & Hok & Htwice).
  assert (Hnd1 : NoDup ["aml"]) by (constructor; [intros [] | constructor]).
  assert (Hfresh1 : forall n, In n ["aml"] -> ~ In n ["kyc"]).
  { intros n [<- | []] [H | []]; discriminate H. }
  split; [|split; [|split]].
  - apply Hfail; [exact Hnd1 | exact Hfresh1 | left; now left].
  - apply Hfail; [exact Hnd1 | exact Hfresh1 | right; now left].
  - apply Hok.
    + constructor; [intros [H | []]; discriminate H | constructor; [intros [] | constructor]].
    + intros n [<- | [<- | []]] [H | []]; discriminate H.
  - apply (Htwice ["kyc"] "aml"). reflexivity.
Defined.

(** C9, as stated, fails when a name is repeated within [toAdd]: no
    name of [toAdd] is present in [current], yet the call fails. *)
Lemma AddToRequiredAttributes_counterexample :
  (forall n, In n ["kyc"; "kyc"] -> ~ In n [])
  /\ AddToRequiredAttributes [] ["kyc"; "kyc"] <> Ok ([] ++ ["kyc"; "kyc"])
  /\ AddToRequiredAttributes [] ["kyc"; "kyc"] = Err (ErrAlreadyRequired "kyc").
Proof.
  split; [intros n _ [] | split; [discriminate | reflexivity]].
Qed.

End RequiredAttributes.

(** ** The marker account *)

Section Manager.

Import sdk types types.MarkerAccount.

Variable VerifyAddressFormat : AccAddress -> option error.

Lemma MarkerStatus_eqb_eq (a b : MarkerStatus) :
  MarkerStatus_eqb a b = true <-> a = b.
Proof.
  destruct a, b; simpl; split; intros H; try reflexivity; discriminate H.
Qed.

Lemma MarkerStatus_eqb_neq (a b : MarkerStatus) :
  MarkerStatus_eqb a b = false <-> a <> b.
Proof.
  rewrite <- MarkerStatus_eqb_eq. now destruct (MarkerStatus_eqb a b).
Qed.

(** C8.  With an address verifier that rejects the empty address (as
    the SDK's does), [SetManager] fails on every marker whose status is
    not Proposed; for a manager address that is not empty the failure
    is the status check itself.  On a Proposed marker and a well-formed
    address it sets the manager field to that address. *)
Theorem SetManager_requires_proposed
  (Hempty : VerifyAddressFormat "" <> None)
  (ma : MarkerAccount.t) (manager : AccAddress) :
  (Status ma <> StatusProposed ->
   Spec.denied (SetManager VerifyAddressFormat ma manager))
  /\ (Status ma <> StatusProposed -> Empty manager = false ->
      SetManager VerifyAddressFormat ma manager = Err ErrManagerNotProposed)
  /\ (Status ma = StatusProposed -> VerifyAddressFormat manager = None ->
      SetManager VerifyAddressFormat ma manager
      = Ok (with_Manager ma (String_ manager))
      /\ Manager (with_Manager ma (String_ manager)) = manager).
Proof.
  unfold SetManager, Spec.denied.
  split; [|split].
  - intros Hst. apply MarkerStatus_eqb_neq in Hst. rewrite Hst.
    destruct (Empty manager) eqn:He; simpl.
    + apply String.eqb_eq in He; subst manager.
      destruct (VerifyAddressFormat "") as [err|]; [|contradiction].
      now exists err.
    + now exists ErrManagerNotProposed.
  - intros Hst He. apply MarkerStatus_eqb_neq in Hst. now rewrite Hst, He.
  - intros Hst Hv. apply MarkerStatus_eqb_eq in Hst. rewrite Hst, Hv.
    rewrite andb_false_r. split; reflexivity.
Qed.

End Manager.

Section Grants.

Import sdk types types.MarkerAccount Spec.

Variable VerifyAddressFormat : AccAddress -> option error.

Lemma Access_eqb_eq (a b : Access) : Access_eqb a b = true <-> a = b.
Proof.
  destruct a, b; simpl; split; intros H; try reflexivity; discriminate H.
Qed.

Lemma AccessGrant_HasAccess_In (g : AccessGrant.t) (role : Access) :
  AccessGrant.HasAccess g role = true <-> In role (AccessGrant.Permissions g).
Proof.
  unfold AccessGrant.HasAccess. rewrite existsb_exists; split.
  - intros [x [Hx Heq]]. apply Access_eqb_eq in Heq. now subst.
  - intros H. exists role. split; [exact H | now apply Access_eqb_eq].
Qed.

Lemma HasAccess_In (ma : MarkerAccount.t) (addr : string) (role : Access) :
  HasAccess ma addr role = true
  <-> exists g, In g (AccessControl ma)
                /\ AccessGrant.Address g = addr
                /\ In role (AccessGrant.Permissions g).
Proof.
  unfold HasAccess. rewrite existsb_exists.
  split; intros [g [Hg H]]; exists g; split; try exact Hg.
  - apply andb_true_iff in H as [Ha Hr].
    split; [now apply String.eqb_eq | now apply AccessGrant_HasAccess_In].
  - destruct H as [Ha Hr]. apply andb_true_iff.
    split; [now apply String.eqb_eq | now apply AccessGrant_HasAccess_In].
Qed.

Lemma entriesNotFor_In (addr : string) (acl : list AccessGrant.t) (g : AccessGrant.t) :
  In g (entriesNotFor addr acl) <-> In g acl /\ AccessGrant.Address g <> addr.
Proof.
  unfold entriesNotFor. rewrite filter_In, negb_true_iff.
  split; intros [Hg H]; split; try exact Hg.
  - intros Heq. apply String.eqb_eq in Heq. congruence.
  - destruct (String.eqb (AccessGrant.Address g) addr) eqn:E; [|reflexivity].
    apply String.eqb_eq in E. contradiction.
Qed.

Lemma entriesFor_entriesNotFor (addr : string) (acl : list AccessGrant.t) :
  entriesFor addr (entriesNotFor addr acl) = [].
Proof.
  unfold entriesFor, entriesNotFor.
  induction acl as [|g acl IH]; simpl; [reflexivity|].
  destruct (String.eqb (AccessGrant.Address g) addr) eqn:E; simpl; [exact IH|].
  now rewrite E.
Qed.

Lemma entriesNotFor_idem (addr : string) (acl : list AccessGrant.t) :
  entriesNotFor addr (entriesNotFor addr acl) = entriesNotFor addr acl.
Proof.
  unfold entriesNotFor.
  induction acl as [|g acl IH]; simpl; [reflexivity|].
  destruct (String.eqb (AccessGrant.Address g) addr) eqn:E; simpl; [exact IH|].
  now rewrite E, IH.
Qed.

Lemma filter_drops_one {A : Type} (f : A -> bool) (l : list A) (x : A) :
  In x l -> f x = false -> length (filter f l) < length l.
Proof.
  induction l as [|y l IH]; simpl; [intros []|].
  intros [-> | Hin] Hx.
  - rewrite Hx. pose proof (filter_length_le f l). lia.
  - specialize (IH Hin Hx). destruct (f y); simpl; lia.
Qed.

Lemma addressList_app (l1 l2 : list AccessGrant.t) (role : Access) :
  addressList (l1 ++ l2) role = addressList l1 role ++ addressList l2 role.
Proof.
  induction l1 as [|g l1 IH]; simpl; [reflexivity|].
  destruct (AccessGrant.HasAccess g role); simpl; now rewrite IH.
Qed.

Section Interface.

Context {G : Type} {I : AccessGrantI.t G}.
Hypothesis Hmerge : mergesByUnion I.

Lemma mergeExisting_union (acl : list AccessGrant.t) (access merged : G) :
  mergeExisting access acl = Ok merged ->
  AccessGrantI.GetAddress merged = AccessGrantI.GetAddress access
  /\ forall role,
       In role (AccessGrantI.GetAccessList merged)
       <-> In role (AccessGrantI.GetAccessList access)
           \/ exists g, In g acl
                        /\ AccessGrant.Address g = AccessGrantI.GetAddress access
                        /\ In role (AccessGrant.Permissions g).
Proof.
  revert access; induction acl as [|ac acl IH]; intros access; simpl.
  - intros [= <-]. split; [reflexivity|].
    intros role; split; [now left | intros [H | [g [[] _]]]; exact H].
  - unfold Equals, AccessGrant.GetAddress.
    destruct (String.eqb (AccessGrant.Address ac) (AccessGrantI.GetAddress access))
      eqn:E.
    + apply String.eqb_eq in E.
      destruct (AccessGrantI.MergeAdd access _) as [access'|err] eqn:Hm;
        simpl; [|discriminate].
      intros Hrest. apply Hmerge in Hm as [Haddr Hroles].
      apply IH in Hrest as [Haddr' Hroles'].
      split; [congruence|].
      intros role. rewrite Hroles', Hroles, Haddr. simpl.
      split.
      * intros [[H | H] | [g (Hg & Ha & Hr)]].
        -- now left.
        -- right. exists ac. auto.
        -- right. exists g. auto.
      * intros [H | [g ([<- | Hg] & Ha & Hr)]].
        -- left; now left.
        -- left; now right.
        -- right. exists g. auto.
    + intros Hrest. apply IH in Hrest as [Haddr Hroles].
      split; [exact Haddr|].
      intros role. rewrite Hroles. split.
      * intros [H | [g (Hg & Ha & Hr)]]; [now left | right; exists g; auto].
      * intros [H | [g ([<- | Hg] & Ha & Hr)]].
        -- now left.
        -- apply String.eqb_neq in E. contradiction.
        -- right. exists g. auto.
Qed.

(** The shape of the access list after a successful [GrantAccess]. *)
Lemma GrantAccess_shape (ma ma' : MarkerAccount.t) (access : G) :
  GrantAccess VerifyAddressFormat ma access = Ok ma' ->
  exists perms,
    ma' = with_AccessControl ma
            (entriesNotFor (AccessGrantI.GetAddress access) (AccessControl ma)
             ++ [AccessGrant.mk (AccessGrantI.GetAddress access) perms])
    /\ forall role,
         In role perms
         <-> In role (AccessGrantI.GetAccessList access)
             \/ HasAccess ma (AccessGrantI.GetAddress access) role = true.
Proof.
  unfold GrantAccess, RevokeAccess.
  destruct (AccessGrantI.Validate access); simpl; [discriminate|].
  destruct (mergeExisting access (AccessControl ma)) as [merged|err] eqn:Hm;
    simpl; [|discriminate].
  apply mergeExisting_union in Hm as [Haddr Hroles].
  destruct (VerifyAddressFormat (AccessGrantI.GetAddress merged));
    simpl; [discriminate|].
  intros [= <-].
  exists (AccessGrantI.GetAccessList merged).
  rewrite Haddr. split; [reflexivity|].
  intros role. rewrite Hroles, HasAccess_In. reflexivity.
Qed.

(** C10.  After a successful [GrantAccess] for an address that already
    had an access-control entry, the prior entry is gone and the merged
    entry is the last of the access list: it carries the roles held
    before and the roles granted, and for each of them
    [AddressListForPermission] reports the address last, after the
    addresses of all other grants. *)
Theorem GrantAccess_moves_entry_to_end
  (ma ma' : MarkerAccount.t) (access : G) :
  (exists ac, In ac (AccessControl ma)
              /\ AccessGrant.Address ac = AccessGrantI.GetAddress access) ->
  GrantAccess VerifyAddressFormat ma access = Ok ma' ->
  exists merged : AccessGrant.t,
    AccessControl ma'
    = entriesNotFor (AccessGrantI.GetAddress access) (AccessControl ma) ++ [merged]
    /\ AccessGrant.Address merged = AccessGrantI.GetAddress access
    /\ (forall role,
          AccessGrant.HasAccess merged role = true
          <-> In role (AccessGrantI.GetAccessList access)
              \/ HasAccess ma (AccessGrantI.GetAddress access) role = true)
    /\ (forall role,
          AccessGrant.HasAccess merged role = true ->
          AddressListForPermission ma' role
          = addressList
              (entriesNotFor (AccessGrantI.GetAddress access) (AccessControl ma))
              role
            ++ [AccessGrantI.GetAddress access])
    /\ length (AccessControl ma') <= length (AccessControl ma).
Proof.
  intros [ac [Hac Haddr]] Hgrant.
  apply GrantAccess_shape in Hgrant as [perms [-> Hroles]].
  exists (AccessGrant.mk (AccessGrantI.GetAddress access) perms).
  split; [reflexivity | split; [reflexivity | split; [|split]]].
  - intros role. rewrite AccessGrant_HasAccess_In. apply Hroles.
  - intros role Hrole. unfold AddressListForPermission. simpl.
    rewrite addressList_app. simpl. now rewrite Hrole.
  - simpl. rewrite length_app. simpl.
    assert (Hlt : length (entriesNotFor (AccessGrantI.GetAddress access)
                                        (AccessControl ma))
                  < length (AccessControl ma)).
    { unfold entriesNotFor. apply filter_drops_one with (x := ac); [exact Hac|].
      apply negb_false_iff, String.eqb_eq, Haddr. }
    lia.
Qed.

End Interface.

End Grants.

Section GrantTwice.

Import sdk types types.MarkerAccount Spec.

Variable VerifyAddressFormat : AccAddress -> option error.

Lemma MergeAdd_roles (other perms : list Access) (role : Access) :
  In role (fold_left (fun perms p =>
                        if existsb (Access_eqb p) perms then perms
                        else perms ++ [p]) other perms)
  <-> In role perms \/ In role other.
Proof.
  revert perms; induction other as [|p other IH]; intros perms; simpl.
  - split; [now left | intros [H | []]; exact H].
  - rewrite IH. destruct (existsb (Access_eqb p) perms) eqn:E.
    + apply existsb_exists in E as [x [Hx Heq]].
      apply Access_eqb_eq in Heq; subst x.
      split; [intros [H | H]; auto | intros [H | [<- | H]]; auto].
    + rewrite in_app_iff. simpl.
      split; [intros [[H | [<- | []]] | H]; auto | intros [H | [<- | H]]; auto].
Qed.

Lemma AccessGrant_mergesByUnion :
  mergesByUnion (AccessGrant_AccessGrantI VerifyAddressFormat).
Proof.
  intros g g' other. simpl. unfold AccessGrant.MergeAdd.
  destruct (String.eqb (AccessGrant.Address g) (AccessGrant.Address other));
    [|discriminate].
  intros [= <-]. split; [reflexivity|].
  intros role. simpl. apply MergeAdd_roles.
Qed.

Lemma HasAccess_after_grant (ma : MarkerAccount.t) (addr : string)
  (perms : list Access) (role : Access) :
  HasAccess (with_AccessControl ma
               (entriesNotFor addr (AccessControl ma) ++ [AccessGrant.mk addr perms]))
            addr role = true
  <-> In role perms.
Proof.
  rewrite HasAccess_In. simpl. split.
  - intros [g (Hg & Ha & Hr)].
    apply in_app_or in Hg as [Hg | [<- | []]].
    + apply entriesNotFor_In in Hg as [_ Hne]. contradiction.
    + exact Hr.
  - intros Hr. exists (AccessGrant.mk addr perms).
    split; [apply in_or_app; right; now left | now split].
Qed.

Lemma grantAccess_shape (ma ma' : MarkerAccount.t) (address : string)
  (perms : list Access) :
  grantAccess VerifyAddressFormat ma (AccessGrant.mk address perms) = Ok ma' ->
  exists merged,
    ma' = with_AccessControl ma
            (entriesNotFor address (AccessControl ma)
             ++ [AccessGrant.mk address merged])
    /\ forall role,
         In role merged <-> In role perms \/ HasAccess ma address role = true.
Proof.
  exact (GrantAccess_shape VerifyAddressFormat AccessGrant_mergesByUnion
           ma ma' (AccessGrant.mk address perms)).
Qed.

(** C7, as amended.  After two successful grants for one address, with
    role sets [A] and then [B], the access list holds exactly one entry
    for the address; its roles are those of [A], those of [B] and those
    the address held on the marker before, so exactly [A] and [B] when
    it held none. *)
Theorem grantAccess_twice_union
  (ma ma1 ma2 : MarkerAccount.t) (address : string) (A B : list Access) :
  grantAccess VerifyAddressFormat ma (AccessGrant.mk address A) = Ok ma1 ->
  grantAccess VerifyAddressFormat ma1 (AccessGrant.mk address B) = Ok ma2 ->
  exists entry,
    entriesFor address (AccessControl ma2) = [entry]
    /\ (forall role,
          AccessGrant.HasAccess entry role = true
          <-> In role A \/ In role B \/ HasAccess ma address role = true)
    /\ (entriesFor address (AccessControl ma) = [] ->
        forall role,
          AccessGrant.HasAccess entry role = true <-> In role A \/ In role B).
Proof.
  intros H1 H2.
  apply grantAccess_shape in H1 as [P1 [-> HP1]].
  apply grantAccess_shape in H2 as [P2 [-> HP2]].
  assert (Hroles : forall role,
             In role P2 <-> In role A \/ In role B \/ HasAccess ma address role = true).
  { intros role. rewrite HP2, HasAccess_after_grant, HP1. tauto. }
  exists (AccessGrant.mk address P2).
  split; [|split].
  - change (AccessControl (with_AccessControl _ ?l)) with l.
    unfold entriesFor at 1. rewrite filter_app.
    change (filter _ (entriesNotFor address ?l))
      with (entriesFor address (entriesNotFor address l)).
    rewrite entriesFor_entriesNotFor. simpl. now rewrite String.eqb_refl.
  - intros role. rewrite AccessGrant_HasAccess_In. apply Hroles.
  - intros Hnone role. rewrite AccessGrant_HasAccess_In, Hroles.
    assert (Hno : HasAccess ma address role = true -> False).
    { rewrite HasAccess_In. intros [g (Hg & Ha & _)].
      assert (Hin : In g (entriesFor address (AccessControl ma))).
      { apply filter_In. split; [exact Hg | now apply String.eqb_eq]. }
      rewrite Hnone in Hin. exact Hin. }
    tauto.
Qed.

End GrantTwice.

Section GrantExamples.

Import sdk types types.MarkerAccount Spec Scenario.

Lemma SetManager_requires_proposed_witness :
  Spec.denied (SetManager verifyNonEmpty activeCoin alice)
  /\ SetManager verifyNonEmpty activeCoin alice = Err ErrManagerNotProposed
  /\ (SetManager verifyNonEmpty twoAdmins alice
      = Ok (with_Manager twoAdmins (String_ alice))
      /\ Manager (with_Manager twoAdmins (String_ alice)) = alice).
Proof.
  assert (Hempty : verifyNonEmpty "" <> None) by discriminate.
  split; [|split].
  - apply (SetManager_requires_proposed verifyNonEmpty Hempty activeCoin alice).
    discriminate.
  - apply (SetManager_requires_proposed verifyNonEmpty Hempty activeCoin alice).
    + discriminate.
    + reflexivity.
  - apply (SetManager_requires_proposed verifyNonEmpty Hempty twoAdmins alice).
    + reflexivity.
    + reflexivity.
Defined.

Lemma GrantAccess_moves_entry_to_end_witness :
  exists merged : AccessGrant.t,
    AccessControl twoAdminsRegranted
    = entriesNotFor alice (AccessControl twoAdmins) ++ [merged]
    /\ AccessGrant.Address merged = alice
    /\ (forall role,
          AccessGrant.HasAccess merged role = true
          <-> In role [Access_Mint] \/ HasAccess twoAdmins alice role = true)
    /\ (forall role,
          AccessGrant.HasAccess merged role = true ->
          AddressListForPermission twoAdminsRegranted role
          = addressList (entriesNotFor alice (AccessControl twoAdmins)) role
            ++ [alice])
    /\ length (AccessControl twoAdminsRegranted) <= length (AccessControl twoAdmins).
Proof.
  apply (@GrantAccess_moves_entry_to_end verifyNonEmpty AccessGrant.t
           (AccessGrant_AccessGrantI verifyNonEmpty)
           (AccessGrant_mergesByUnion verifyNonEmpty)
           twoAdmins twoAdminsRegranted (AccessGrant.mk alice [Access_Mint])).
  - exists (AccessGrant.mk alice [Access_Admin]). split; [now left | reflexivity].
  - reflexivity.
Defined.

(** The order [AddressListForPermission] reports changes with the
    re-grant: alice was first among the admins and is last afterwards. *)
Example regrant_changes_reported_order :
  grantAccess verifyNonEmpty twoAdmins (AccessGrant.mk alice [Access_Mint])
  = Ok twoAdminsRegranted
  /\ AddressListForPermission twoAdmins Access_Admin = [alice; bob]
  /\ AddressListForPermission twoAdminsRegranted Access_Admin = [bob; alice].
Proof.
  repeat split.
Qed.

Lemma grantAccess_twice_union_witness :
  exists entry,
    entriesFor carol (AccessControl
      (marker "hotdog" StatusProposed MarkerType_Coin
         [AccessGrant.mk alice [Access_Admin]; AccessGrant.mk bob [Access_Admin];
          AccessGrant.mk carol [Access_Burn; Access_Deposit; Access_Mint]] []))
    = [entry]
    /\ (forall role,
          AccessGrant.HasAccess entry role = true
          <-> In role [Access_Mint; Access_Burn]
              \/ In role [Access_Burn; Access_Deposit]
              \/ HasAccess twoAdmins carol role = true)
    /\ (entriesFor carol (AccessControl twoAdmins) = [] ->
        forall role,
          AccessGrant.HasAccess entry role = true
          <-> In role [Access_Mint; Access_Burn]
              \/ In role [Access_Burn; Access_Deposit]).
Proof.
  apply (grantAccess_twice_union verifyNonEmpty twoAdmins
           (marker "hotdog" StatusProposed MarkerType_Coin
              [AccessGrant.mk alice [Access_Admin]; AccessGrant.mk bob [Access_Admin];
               AccessGrant.mk carol [Access_Mint; Access_Burn]] [])).
  - reflexivity.
  - reflexivity.
Defined.

(** C7, as stated, fails on a marker where the address already holds a
    role: alice holds Admin, is granted Mint and then Burn, and her one
    entry carries Admin, which is in neither granted set. *)
Lemma grantAccess_twice_counterexample :
  exists ma1 ma2 entry,
    grantAccess verifyNonEmpty twoAdmins (AccessGrant.mk alice [Access_Mint]) = Ok ma1
    /\ grantAccess verifyNonEmpty ma1 (AccessGrant.mk alice [Access_Burn]) = Ok ma2
    /\ entriesFor alice (AccessControl ma2) = [entry]
    /\ ~ (forall role,
            AccessGrant.HasAccess entry role = true
            <-> In role [Access_Mint] \/ In role [Access_Burn]).
Proof.
  eexists; eexists; eexists.
  split; [reflexivity | split; [reflexivity | split; [reflexivity|]]].
  intros H. destruct (proj1 (H Access_Admin) eq_refl) as [[E | []] | [E | []]];
    discriminate E.
Qed.

End GrantExamples.

(** ** The send restriction *)

Section Engine.

Import sdk types keeper Spec.
Local Open Scope go_scope.

Variable MustGetMarkerAddress : string -> AccAddress.
Variable k : Keeper.

Lemma MarkerType_eqb_eq (a b : MarkerType) : MarkerType_eqb a b = true <-> a = b.
Proof.
  destruct a, b; simpl; split; intros H; try reflexivity; discriminate H.
Qed.

Lemma denied_bind {T U : Type} (r : result T) (f : T -> result U) :
  (forall v, r = Ok v -> denied (f v)) -> denied (bind r f).
Proof.
  destruct r as [v|err]; simpl; intros H; [now apply H | now exists err].
Qed.

Lemma deniedWith_denied {T : Type} (r : result T) (reason : Reason) :
  deniedWith r reason -> denied r.
Proof.
  intros [err [H _]]. now exists err.
Qed.

(** *** The per-denom rule *)

(** C1.  For a denom whose marker is an Active RestrictedCoin, a
    destination other than the fee collector and no transfer agent
    holding Transfer on the marker, [validateSendDenom] denies a sender
    on the marker's deny list with [SenderDenied], whether or not the
    sender holds Transfer: the deny list is consulted first. *)
Theorem validateSendDenom_deny_list_first
  (ctx : Context) (fromAddr toAddr : AccAddress) (admins : list AccAddress)
  (denom : string) (toMarker : option MarkerAccount.t) (marker : MarkerAccount.t) :
  GetMarker k ctx (MustGetMarkerAddress denom) = Ok (Some marker) ->
  MarkerAccount.Status marker = StatusActive ->
  MarkerAccount.MarkerType marker = MarkerType_RestrictedCoin ->
  Equals toAddr (feeCollectorAddr k) = false ->
  AtLeastOneAddrHasAccess marker admins Access_Transfer = false ->
  IsSendDeny k ctx (MustGetMarkerAddress denom) fromAddr = true ->
  validateSendDenom MustGetMarkerAddress k ctx fromAddr toAddr admins denom toMarker
  = Err (ErrOnDenyList (String_ fromAddr))
  /\ deniedWith (validateSendDenom MustGetMarkerAddress k ctx fromAddr toAddr admins denom toMarker)
       SenderDenied.
Proof.
  intros Hm Hst Hty Hto Hadm Hdeny.
  assert (H : validateSendDenom MustGetMarkerAddress k ctx fromAddr toAddr admins denom toMarker
              = Err (ErrOnDenyList (String_ fromAddr))).
  { unfold validateSendDenom. rewrite Hm. simpl.
    unfold MarkerAccount.GetStatus, MarkerAccount.GetMarkerType.
    rewrite Hst, Hty, Hto, Hadm, Hdeny. simpl.
    now rewrite andb_false_r. }
  split; [exact H|]. rewrite H. now exists (ErrOnDenyList (String_ fromAddr)).
Qed.

(** An Active RestrictedCoin denom never passes the per-denom rule on
    its way to the fee collector. *)
Lemma validateSendDenom_fee_collector
  (ctx : Context) (fromAddr toAddr : AccAddress) (admins : list AccAddress)
  (denom : string) (toMarker : option MarkerAccount.t) (marker : MarkerAccount.t) :
  Equals toAddr (feeCollectorAddr k) = true ->
  GetMarker k ctx (MustGetMarkerAddress denom) = Ok (Some marker) ->
  MarkerAccount.Status marker = StatusActive ->
  MarkerAccount.MarkerType marker = MarkerType_RestrictedCoin ->
  validateSendDenom MustGetMarkerAddress k ctx fromAddr toAddr admins denom toMarker
  = Err (ErrRestrictedToFeeCollector denom).
Proof.
  intros Hto Hm Hst Hty. unfold validateSendDenom. rewrite Hm. simpl.
  unfold MarkerAccount.GetStatus, MarkerAccount.GetMarkerType.
  now rewrite Hst, Hty, Hto.
Qed.

(** A RestrictedCoin denom on its way to the fee collector is denied by
    the per-denom rule, for its status or for its destination. *)
Lemma validateSendDenom_fee_collector_denied
  (ctx : Context) (fromAddr toAddr : AccAddress) (admins : list AccAddress)
  (denom : string) (toMarker : option MarkerAccount.t) (marker : MarkerAccount.t) :
  Equals toAddr (feeCollectorAddr k) = true ->
  GetMarker k ctx (MustGetMarkerAddress denom) = Ok (Some marker) ->
  MarkerAccount.MarkerType marker = MarkerType_RestrictedCoin ->
  denied (validateSendDenom MustGetMarkerAddress k ctx fromAddr toAddr admins denom toMarker).
Proof.
  intros Hto Hm Hty. unfold validateSendDenom. rewrite Hm. simpl.
  unfold MarkerAccount.GetStatus, MarkerAccount.GetMarkerType.
  rewrite Hty, Hto. simpl.
  destruct (MarkerStatus_eqb (MarkerAccount.Status marker) StatusActive); simpl;
    eexists; reflexivity.
Qed.

Lemma validateSendDenoms_fee_collector_denied
  (ctx : Context) (fromAddr toAddr : AccAddress) (admins : list AccAddress)
  (amt : Coins) (toMarker : option MarkerAccount.t) :
  Equals toAddr (feeCollectorAddr k) = true ->
  hasRestrictedDenom MustGetMarkerAddress k ctx amt ->
  denied (validateSendDenoms MustGetMarkerAddress k ctx fromAddr toAddr admins amt toMarker).
Proof.
  intros Hto (coin & marker & Hin & Hm & Hty).
  induction amt as [|c amt IH]; [destruct Hin|].
  simpl. destruct Hin as [-> | Hin].
  - destruct (validateSendDenom_fee_collector_denied ctx fromAddr toAddr admins
                (Denom coin) toMarker marker Hto Hm Hty) as [err ->].
    now exists err.
  - apply denied_bind. intros _ _. now apply IH.
Qed.

(** *** The bypass branch *)

Lemma feeCollectorCheck_denied (ctx : Context) (amt : Coins) :
  hasRestrictedDenom MustGetMarkerAddress k ctx amt -> denied (feeCollectorCheck MustGetMarkerAddress k ctx amt).
Proof.
  intros (coin & marker & Hin & Hm & Hty).
  induction amt as [|c amt IH]; [destruct Hin|].
  simpl. destruct Hin as [-> | Hin].
  - rewrite Hm. simpl. unfold MarkerAccount.GetMarkerType. rewrite Hty. simpl.
    eexists; reflexivity.
  - apply denied_bind. intros [m|] _.
    + destruct (MarkerType_eqb _ _); [eexists; reflexivity | now apply IH].
    + now apply IH.
Qed.

Lemma feeCollectorCheck_reason (ctx : Context) (amt : Coins) :
  (forall coin, In coin amt ->
     exists m, GetMarker k ctx (MustGetMarkerAddress (Denom coin)) = Ok m) ->
  hasRestrictedDenom MustGetMarkerAddress k ctx amt ->
  exists coin, In coin amt
               /\ feeCollectorCheck MustGetMarkerAddress k ctx amt
                  = Err (ErrBypassRestrictedToFeeCollector (Denom coin)).
Proof.
  intros Hlookup (coin & marker & Hin & Hm & Hty).
  induction amt as [|c amt IH]; [destruct Hin|].
  simpl. destruct (Hlookup c (or_introl eq_refl)) as [m Hc]. rewrite Hc. simpl.
  assert (Hrest : In coin amt ->
                  exists coin0, In coin0 (c :: amt)
                    /\ feeCollectorCheck MustGetMarkerAddress k ctx amt
                       = Err (ErrBypassRestrictedToFeeCollector (Denom coin0))).
  { intros Hin'. destruct IH as [coin0 [Hin0 H0]]; [|exact Hin'|].
    - intros coin' Hin''. apply Hlookup. now right.
    - exists coin0. split; [now right | exact H0]. }
  destruct m as [m|].
  - destruct (MarkerType_eqb (MarkerAccount.GetMarkerType m) MarkerType_RestrictedCoin)
      eqn:E.
    + exists c. split; [now left | reflexivity].
    + destruct Hin as [-> | Hin]; [|now apply Hrest].
      rewrite Hm in Hc. injection Hc as <-.
      unfold MarkerAccount.GetMarkerType in E. rewrite Hty in E. discriminate E.
  - destruct Hin as [-> | Hin]; [|now apply Hrest].
    rewrite Hm in Hc. discriminate Hc.
Qed.

(** *** The sender side *)

Lemma AtLeastOneAddrHasAccess_single (ma : MarkerAccount.t) (addr : AccAddress)
  (role : Access) :
  AtLeastOneAddrHasAccess ma [addr] role = MarkerAccount.HasAccess ma (String_ addr) role.
Proof.
  unfold AtLeastOneAddrHasAccess. simpl. apply orb_false_r.
Qed.

Lemma ValidateAtLeastOneAddrHasAccess_ok (ma : MarkerAccount.t)
  (addrs : list AccAddress) (role : Access) :
  AtLeastOneAddrHasAccess ma addrs role = true ->
  ValidateAtLeastOneAddrHasAccess ma addrs role = Ok tt.
Proof.
  intros H. destruct addrs as [|a [|b rest]].
  - discriminate H.
  - rewrite AtLeastOneAddrHasAccess_single in H.
    unfold ValidateAtLeastOneAddrHasAccess, MarkerAccount.ValidateHasAccess.
    now rewrite H.
  - unfold ValidateAtLeastOneAddrHasAccess. now rewrite H.
Qed.

Lemma withdrawCheck_denied (ctx : Context) (admins : list AccAddress)
  (fromAddr : AccAddress) (fromMarker : MarkerAccount.t) :
  HasFeeGrantInUse ctx = false ->
  AtLeastOneAddrHasAccess fromMarker admins Access_Withdraw = false ->
  deniedWith (withdrawCheck ctx admins fromAddr fromMarker) WithdrawNotAuthorized.
Proof.
  intros Hfee Hnone. unfold withdrawCheck. rewrite Hfee. simpl.
  destruct admins as [|a [|b rest]]; simpl.
  - eexists; split; reflexivity.
  - rewrite AtLeastOneAddrHasAccess_single in Hnone.
    unfold MarkerAccount.ValidateHasAccess. rewrite Hnone. simpl.
    eexists; split; reflexivity.
  - unfold AtLeastOneAddrHasAccess in Hnone. simpl in Hnone.
    unfold AtLeastOneAddrHasAccess. simpl. rewrite Hnone. simpl.
    eexists; split; reflexivity.
Qed.

Lemma withdrawCheck_ok (ctx : Context) (admins : list AccAddress)
  (fromAddr : AccAddress) (fromMarker : MarkerAccount.t) :
  HasFeeGrantInUse ctx = true
  \/ AtLeastOneAddrHasAccess fromMarker admins Access_Withdraw = true ->
  withdrawCheck ctx admins fromAddr fromMarker = Ok tt.
Proof.
  unfold withdrawCheck. intros [Hfee | Hone].
  - now rewrite Hfee.
  - destruct (HasFeeGrantInUse ctx); simpl; [reflexivity|].
    destruct admins as [|a rest]; [discriminate Hone|].
    simpl length. simpl Nat.eqb. cbv iota.
    now apply ValidateAtLeastOneAddrHasAccess_ok.
Qed.

(** *** Looking a denom up among the coins *)

Lemma ltb_irrefl (s : string) : String.ltb s s = false.
Proof.
  unfold String.ltb. pose proof (String.compare_antisym s s) as H.
  destruct (String.compare s s); try reflexivity. discriminate H.
Qed.

Lemma ltb_asym (s1 s2 : string) :
  String.ltb s1 s2 = true -> String.ltb s2 s1 = false.
Proof.
  unfold String.ltb. rewrite (String.compare_antisym s2 s1).
  now destruct (String.compare s1 s2).
Qed.

Lemma sortedByDenom_app (before : Coins) (coin : Coin) (after : Coins) :
  sortedByDenom (before ++ coin :: after) ->
  sortedByDenom before
  /\ sortedByDenom after
  /\ (forall c, In c before -> String.ltb (Denom c) (Denom coin) = true)
  /\ (forall c, In c after -> String.ltb (Denom coin) (Denom c) = true).
Proof.
  induction before as [|b before IH]; simpl.
  - intros [Hlater Hafter].
    split; [exact I | split; [exact Hafter | split; [intros c [] | exact Hlater]]].
  - intros [Hlater Hrest]. destruct (IH Hrest) as (Hb & Ha & Hlt & Hgt).
    split; [split; [|exact Hb] | split; [exact Ha | split; [|exact Hgt]]].
    + intros later Hin. apply Hlater. apply in_or_app. now left.
    + intros c [<- | Hin]; [|now apply Hlt].
      apply Hlater. apply in_or_app. right. now left.
Qed.

Lemma findWithin_step (fuel : nat) (coins : Coins) (denom : string) :
  2 <= length coins ->
  findWithin (S fuel) coins denom
  = match nth_error coins (length coins / 2) with
    | None => (false, NewCoin "" 0)
    | Some coin =>
        if String.ltb denom (Denom coin)
        then findWithin fuel (firstn (length coins / 2) coins) denom
        else if String.eqb denom (Denom coin)
        then (true, coin)
        else findWithin fuel (skipn (S (length coins / 2)) coins) denom
    end.
Proof.
  destruct coins as [|c1 [|c2 rest]]; simpl length; intros H; try lia.
  reflexivity.
Qed.

Lemma findWithin_short (fuel : nat) (coins : Coins) (denom : string) :
  length coins < 2 ->
  findWithin fuel coins denom
  = match coins with
    | coin :: _ =>
        if String.eqb (Denom coin) denom then (true, coin) else (false, NewCoin "" 0)
    | [] => (false, NewCoin "" 0)
    end.
Proof.
  destruct coins as [|c1 [|c2 rest]]; simpl length; intros H; try lia;
    destruct fuel; reflexivity.
Qed.

Lemma middle_cut (coins : Coins) :
  2 <= length coins ->
  exists coin,
    nth_error coins (length coins / 2) = Some coin
    /\ coins = firstn (length coins / 2) coins
               ++ coin :: skipn (S (length coins / 2)) coins
    /\ length (firstn (length coins / 2) coins) < length coins
    /\ length (skipn (S (length coins / 2)) coins) < length coins.
Proof.
  intros Hlen.
  assert (Hmid : length coins / 2 < length coins) by (apply Nat.div_lt; lia).
  destruct (nth_error coins (length coins / 2)) as [coin|] eqn:E.
  - exists coin. split; [reflexivity|].
    split; [symmetry; now apply firstn_skipn_middle|].
    pose proof (firstn_le_length (length coins / 2) coins).
    rewrite length_skipn. lia.
  - apply nth_error_None in E. lia.
Qed.

(** What [Find] returns is the zero coin, or a coin of the sequence that
    has the denom: on any sequence, sorted or not. *)
Lemma findWithin_found (fuel : nat) (coins : Coins) (denom : string) :
  findWithin fuel coins denom = (false, NewCoin "" 0)
  \/ exists coin,
       findWithin fuel coins denom = (true, coin)
       /\ In coin coins /\ Denom coin = denom.
Proof.
  revert coins; induction fuel as [|fuel IH]; intros coins.
  - destruct coins as [|c1 [|c2 rest]]; simpl; auto.
    destruct (String.eqb (Denom c1) denom) eqn:E; auto.
    right. exists c1. apply String.eqb_eq in E. auto.
  - destruct (Nat.lt_ge_cases (length coins) 2) as [Hshort | Hlong].
    + rewrite findWithin_short by exact Hshort.
      destruct coins as [|c1 rest]; auto.
      destruct (String.eqb (Denom c1) denom) eqn:E; auto.
      right. exists c1. apply String.eqb_eq in E. simpl. auto.
    + rewrite findWithin_step by exact Hlong.
      destruct (middle_cut coins Hlong) as (coin & -> & Hcut & _).
      destruct (String.ltb denom (Denom coin)).
      * destruct (IH (firstn (length coins / 2) coins))
          as [H | (c & H & Hin & Hd)]; auto.
        right. exists c. repeat split; auto.
        rewrite Hcut. apply in_or_app. now left.
      * destruct (String.eqb denom (Denom coin)) eqn:E.
        -- right. exists coin. apply String.eqb_eq in E. repeat split; auto.
           rewrite Hcut. apply in_or_app. right. now left.
        -- destruct (IH (skipn (S (length coins / 2)) coins))
             as [H | (c & H & Hin & Hd)]; auto.
           right. exists c. repeat split; auto.
           rewrite Hcut. apply in_or_app. right. now right.
Qed.

(** On a sorted sequence [Find] finds the coin of a denom that is there. *)
Lemma findWithin_sorted (fuel : nat) (coins : Coins) (coin : Coin) :
  length coins <= fuel ->
  sortedByDenom coins ->
  In coin coins ->
  findWithin fuel coins (Denom coin) = (true, coin).
Proof.
  revert coins; induction fuel as [|fuel IH]; intros coins Hfuel Hsorted Hin.
  - destruct coins; [destruct Hin | simpl in Hfuel; lia].
  - destruct (Nat.lt_ge_cases (length coins) 2) as [Hshort | Hlong].
    + rewrite findWithin_short by exact Hshort.
      destruct coins as [|c1 [|c2 rest]]; [destruct Hin | | simpl in Hshort; lia].
      destruct Hin as [-> | []]. now rewrite String.eqb_refl.
    + rewrite findWithin_step by exact Hlong.
      destruct (middle_cut coins Hlong) as (mid & -> & Hcut & Hleft & Hright).
      rewrite Hcut in Hsorted, Hin.
      apply sortedByDenom_app in Hsorted as (Hsl & Hsr & Hlt & Hgt).
      apply in_app_or in Hin as [Hin | [-> | Hin]].
      * rewrite (Hlt coin Hin). apply IH; [lia | exact Hsl | exact Hin].
      * now rewrite ltb_irrefl, String.eqb_refl.
      * rewrite (ltb_asym _ _ (Hgt coin Hin)).
        assert (E : String.eqb (Denom coin) (Denom mid) = false).
        { apply String.eqb_neq. intros Heq. specialize (Hgt coin Hin).
          rewrite Heq, ltb_irrefl in Hgt. discriminate Hgt. }
        rewrite E. apply IH; [lia | exact Hsr | exact Hin].
Qed.

(** The length of the sequence is fuel enough: more changes nothing. *)
Lemma findWithin_fuel (fuel fuel' : nat) (coins : Coins) (denom : string) :
  length coins <= fuel -> length coins <= fuel' ->
  findWithin fuel coins denom = findWithin fuel' coins denom.
Proof.
  revert fuel' coins; induction fuel as [|fuel IH]; intros fuel' coins H H'.
  - destruct coins; [|simpl in H; lia]. now destruct fuel'.
  - destruct (Nat.lt_ge_cases (length coins) 2) as [Hshort | Hlong].
    + now rewrite !findWithin_short by exact Hshort.
    + destruct fuel' as [|fuel']; [lia|].
      rewrite !findWithin_step by exact Hlong.
      destruct (middle_cut coins Hlong) as (mid & -> & _ & Hleft & Hright).
      destruct (String.ltb denom (Denom mid)); [apply IH; lia|].
      destruct (String.eqb denom (Denom mid)); [reflexivity | apply IH; lia].
Qed.

Lemma Find_sorted (amt : Coins) (coin : Coin) :
  sortedByDenom amt -> In coin amt -> Find amt (Denom coin) = (true, coin).
Proof.
  intros Hsorted Hin. unfold Find. now apply findWithin_sorted.
Qed.

Lemma Find_found (amt : Coins) (denom : string) :
  Find amt denom = (false, NewCoin "" 0)
  \/ exists coin, Find amt denom = (true, coin) /\ In coin amt /\ Denom coin = denom.
Proof.
  apply findWithin_found.
Qed.

Lemma fromStatusCheck_denied (fromAddr : AccAddress) (amt : Coins)
  (fromMarker : MarkerAccount.t) (coin : Coin) :
  MarkerAccount.Status fromMarker <> StatusActive ->
  sortedByDenom amt ->
  In coin amt ->
  Denom coin = MarkerAccount.Denom fromMarker ->
  Amount coin <> 0%Z ->
  fromStatusCheck fromAddr amt fromMarker
  = Err (ErrWithdrawNotActive coin (MarkerAccount.Denom fromMarker)
           fromAddr (MarkerAccount.Status fromMarker)).
Proof.
  intros Hst Hsorted Hin Hd Hnz. unfold fromStatusCheck, MarkerAccount.GetStatus,
    MarkerAccount.GetDenom.
  apply MarkerStatus_eqb_neq in Hst. rewrite Hst. simpl.
  rewrite <- Hd at 1. rewrite (Find_sorted amt coin Hsorted Hin).
  assert (Hz : IsZero coin = false) by (unfold IsZero; now apply Z.eqb_neq).
  now rewrite Hz.
Qed.

Lemma fromStatusCheck_nothing_of_own_denom (fromAddr : AccAddress) (amt : Coins)
  (fromMarker : MarkerAccount.t) :
  (forall coin, In coin amt -> Denom coin = MarkerAccount.Denom fromMarker ->
                Amount coin = 0%Z) ->
  fromStatusCheck fromAddr amt fromMarker = Ok tt.
Proof.
  intros H. unfold fromStatusCheck, MarkerAccount.GetDenom.
  destruct (negb _); [|reflexivity].
  destruct (Find_found amt (MarkerAccount.Denom fromMarker))
    as [-> | (coin & -> & Hin & Hd)]; [reflexivity|].
  unfold IsZero. rewrite (H coin Hin Hd). reflexivity.
Qed.

Lemma SendRestrictionFn_from_marker (ctx : Context) (fromAddr toAddr : AccAddress)
  (amt : Coins) (fromMarker : MarkerAccount.t) :
  HasBypass ctx || Equals fromAddr (markerModuleAddr k)
    || Equals fromAddr (ibcTransferModuleAddr k) = false ->
  GetMarker k ctx fromAddr = Ok (Some fromMarker) ->
  SendRestrictionFn MustGetMarkerAddress k ctx fromAddr toAddr amt
  = (withdrawCheck ctx (GetTransferAgents ctx) fromAddr fromMarker ;;
     fromStatusCheck fromAddr amt fromMarker ;;
     receiverAndDenomChecks MustGetMarkerAddress k ctx fromAddr toAddr
       (GetTransferAgents ctx) amt).
Proof.
  intros Hnb Hfrom. unfold SendRestrictionFn. now rewrite Hnb, Hfrom.
Qed.

(** C3.  On a transfer that is not bypassed and whose sender is a
    marker account: without a feegrant in use the transfer is denied
    with [WithdrawNotAuthorized] when there is no transfer agent or none
    holds Withdraw on the sender's marker; with a feegrant in use the
    withdraw check is skipped and the result is that of the remaining
    checks. *)
Theorem withdraw_needs_agent_unless_feegrant
  (ctx : Context) (fromAddr toAddr : AccAddress) (amt : Coins)
  (fromMarker : MarkerAccount.t) :
  HasBypass ctx || Equals fromAddr (markerModuleAddr k)
    || Equals fromAddr (ibcTransferModuleAddr k) = false ->
  GetMarker k ctx fromAddr = Ok (Some fromMarker) ->
  (HasFeeGrantInUse ctx = false ->
   GetTransferAgents ctx = []
   \/ AtLeastOneAddrHasAccess fromMarker (GetTransferAgents ctx) Access_Withdraw
      = false ->
   deniedWith (SendRestrictionFn MustGetMarkerAddress k ctx fromAddr toAddr amt)
     WithdrawNotAuthorized)
  /\ (HasFeeGrantInUse ctx = true ->
      withdrawCheck ctx (GetTransferAgents ctx) fromAddr fromMarker = Ok tt
      /\ SendRestrictionFn MustGetMarkerAddress k ctx fromAddr toAddr amt
         = (fromStatusCheck fromAddr amt fromMarker ;;
            receiverAndDenomChecks MustGetMarkerAddress k ctx fromAddr toAddr
              (GetTransferAgents ctx) amt)).
Proof.
  intros Hnb Hfrom.
  rewrite (SendRestrictionFn_from_marker ctx fromAddr toAddr amt fromMarker Hnb Hfrom).
  split.
  - intros Hfee Hnone.
    assert (Hnone' : AtLeastOneAddrHasAccess fromMarker (GetTransferAgents ctx)
                       Access_Withdraw = false).
    { destruct Hnone as [-> | H]; [reflexivity | exact H]. }
    destruct (withdrawCheck_denied ctx (GetTransferAgents ctx) fromAddr fromMarker
                Hfee Hnone') as [err [-> Hr]].
    now exists err.
  - intros Hfee.
    assert (Hw : withdrawCheck ctx (GetTransferAgents ctx) fromAddr fromMarker = Ok tt)
      by (apply withdrawCheck_ok; now left).
    now rewrite Hw.
Qed.

(** C4, as amended.  On a transfer that is not bypassed and whose
    sender is a marker account that is not Active: when the amounts,
    sorted by denom as a valid coin list is, hold the marker's own
    denom in a positive (or any non-zero) amount, the transfer is
    denied, with [MarkerNotActive] once the withdraw check has passed
    (a feegrant in use, or a transfer agent holding Withdraw) and with
    [WithdrawNotAuthorized] when it has not; when the amounts hold no
    coin of the marker's own denom, or hold it with amount zero, the
    status check passes and the transfer goes on to the remaining
    checks. *)
Theorem withdraw_from_inactive_marker
  (ctx : Context) (fromAddr toAddr : AccAddress) (amt : Coins)
  (fromMarker : MarkerAccount.t) :
  HasBypass ctx || Equals fromAddr (markerModuleAddr k)
    || Equals fromAddr (ibcTransferModuleAddr k) = false ->
  GetMarker k ctx fromAddr = Ok (Some fromMarker) ->
  MarkerAccount.Status fromMarker <> StatusActive ->
  (sortedByDenom amt ->
   forall coin,
     In coin amt ->
     Denom coin = MarkerAccount.Denom fromMarker ->
     Amount coin <> 0%Z ->
     (HasFeeGrantInUse ctx = true
      \/ AtLeastOneAddrHasAccess fromMarker (GetTransferAgents ctx) Access_Withdraw
         = true ->
      SendRestrictionFn MustGetMarkerAddress k ctx fromAddr toAddr amt
      = Err (ErrWithdrawNotActive coin (MarkerAccount.Denom fromMarker) fromAddr
               (MarkerAccount.Status fromMarker))
      /\ deniedWith (SendRestrictionFn MustGetMarkerAddress k ctx fromAddr toAddr amt)
           MarkerNotActive)
     /\ (HasFeeGrantInUse ctx = false ->
         AtLeastOneAddrHasAccess fromMarker (GetTransferAgents ctx) Access_Withdraw
         = false ->
         deniedWith (SendRestrictionFn MustGetMarkerAddress k ctx fromAddr toAddr amt)
           WithdrawNotAuthorized))
  /\ ((forall coin, In coin amt -> Denom coin = MarkerAccount.Denom fromMarker ->
                    Amount coin = 0%Z) ->
      fromStatusCheck fromAddr amt fromMarker = Ok tt
      /\ SendRestrictionFn MustGetMarkerAddress k ctx fromAddr toAddr amt
         = (withdrawCheck ctx (GetTransferAgents ctx) fromAddr fromMarker ;;
            receiverAndDenomChecks MustGetMarkerAddress k ctx fromAddr toAddr
              (GetTransferAgents ctx) amt)).
Proof.
  intros Hnb Hfrom Hst.
  rewrite (SendRestrictionFn_from_marker ctx fromAddr toAddr amt fromMarker Hnb Hfrom).
  split.
  - intros Hsorted coin Hin Hd Hnz. split.
    + intros Hpass. rewrite (withdrawCheck_ok _ _ _ _ Hpass). simpl.
      rewrite (fromStatusCheck_denied fromAddr amt fromMarker coin
                 Hst Hsorted Hin Hd Hnz).
      split; [reflexivity | eexists; split; reflexivity].
    + intros Hfee Hnone.
      destruct (withdrawCheck_denied ctx (GetTransferAgents ctx) fromAddr fromMarker
                  Hfee Hnone) as [err [-> Hr]].
      now exists err.
  - intros Hnothing.
    rewrite (fromStatusCheck_nothing_of_own_denom fromAddr amt fromMarker Hnothing).
    split; [reflexivity|].
    now destruct (withdrawCheck _ _ _ _).
Qed.

(** C2, as amended.  A transfer to the fee collector that carries a
    denom of a RestrictedCoin marker is always denied.  When bypass is
    active or the sender is a module account, and the marker of every
    denom can be looked up, the denial is [RestrictedToFeeCollector];
    on the ordinary path the per-denom rule denies an Active
    RestrictedCoin denom with [RestrictedToFeeCollector] whatever the
    transfer agents, the deny list and the sender's grants are. *)
Theorem fee_collector_never_receives_restricted
  (ctx : Context) (fromAddr toAddr : AccAddress) (amt : Coins) :
  Equals toAddr (feeCollectorAddr k) = true ->
  hasRestrictedDenom MustGetMarkerAddress k ctx amt ->
  denied (SendRestrictionFn MustGetMarkerAddress k ctx fromAddr toAddr amt)
  /\ (HasBypass ctx || Equals fromAddr (markerModuleAddr k)
        || Equals fromAddr (ibcTransferModuleAddr k) = true ->
      (forall coin, In coin amt ->
         exists m, GetMarker k ctx (MustGetMarkerAddress (Denom coin)) = Ok m) ->
      deniedWith (SendRestrictionFn MustGetMarkerAddress k ctx fromAddr toAddr amt)
        RestrictedToFeeCollector)
  /\ (forall admins denom toMarker marker,
        GetMarker k ctx (MustGetMarkerAddress denom) = Ok (Some marker) ->
        MarkerAccount.Status marker = StatusActive ->
        MarkerAccount.MarkerType marker = MarkerType_RestrictedCoin ->
        validateSendDenom MustGetMarkerAddress k ctx fromAddr toAddr admins denom
          toMarker
        = Err (ErrRestrictedToFeeCollector denom)).
Proof.
  intros Hto Hres. split; [|split].
  - unfold SendRestrictionFn.
    destruct (HasBypass ctx || Equals fromAddr (markerModuleAddr k)
              || Equals fromAddr (ibcTransferModuleAddr k)).
    + rewrite Hto. apply denied_bind. intros v Hv.
      destruct (feeCollectorCheck_denied ctx amt Hres) as [err He].
      rewrite He in Hv. discriminate Hv.
    + assert (Hrest : denied (receiverAndDenomChecks MustGetMarkerAddress k ctx
                                fromAddr toAddr (GetTransferAgents ctx) amt)).
      { unfold receiverAndDenomChecks.
        apply denied_bind. intros _ _. apply denied_bind. intros v Hv.
        destruct (validateSendDenoms_fee_collector_denied ctx fromAddr toAddr
                    (GetTransferAgents ctx) amt
                    (markerOrNil (GetMarker k ctx toAddr)) Hto Hres) as [err He].
        rewrite He in Hv. discriminate Hv. }
      destruct (markerOrNil (GetMarker k ctx fromAddr)); [|exact Hrest].
      apply denied_bind. intros _ _. apply denied_bind. intros _ _. exact Hrest.
  - intros Hbypass Hlookup. unfold SendRestrictionFn. rewrite Hbypass, Hto.
    destruct (feeCollectorCheck_reason ctx amt Hlookup Hres) as [coin [_ ->]].
    eexists; split; reflexivity.
  - intros admins denom toMarker marker Hm Hst Hty.
    exact (validateSendDenom_fee_collector ctx fromAddr toAddr admins denom
             toMarker marker Hto Hm Hst Hty).
Qed.

End Engine.

(** ** The send restriction on concrete calls *)

Section EngineExamples.

Import sdk types keeper Spec Scenario.
Local Open Scope go_scope.

Lemma validateSendDenom_deny_list_first_witness :
  MarkerAccount.AddressHasAccess (security StatusActive) alice Access_Transfer = true
  /\ (validateSendDenom markerAddr
        (keeperOf [security StatusActive] [(markerAddr "security", alice)] [])
        plainCall alice bob [] "security" None
      = Err (ErrOnDenyList (String_ alice))
      /\ deniedWith
           (validateSendDenom markerAddr
              (keeperOf [security StatusActive] [(markerAddr "security", alice)] [])
              plainCall alice bob [] "security" None)
           SenderDenied).
Proof.
  split; [reflexivity|].
  apply (validateSendDenom_deny_list_first markerAddr
           (keeperOf [security StatusActive] [(markerAddr "security", alice)] [])
           plainCall alice bob [] "security" None (security StatusActive));
    reflexivity.
Defined.

Lemma fee_collector_never_receives_restricted_witness :
  denied (SendRestrictionFn markerAddr (keeperOf [security StatusActive] [] [])
            bypassCall alice feeCollector [NewCoin "nhash" 7; NewCoin "security" 5])
  /\ deniedWith
       (SendRestrictionFn markerAddr (keeperOf [security StatusActive] [] [])
          bypassCall alice feeCollector [NewCoin "nhash" 7; NewCoin "security" 5])
       RestrictedToFeeCollector
  /\ validateSendDenom markerAddr (keeperOf [security StatusActive] [] [])
       bypassCall alice feeCollector [] "security" None
     = Err (ErrRestrictedToFeeCollector "security").
Proof.
  destruct (fee_collector_never_receives_restricted markerAddr
              (keeperOf [security StatusActive] [] [])
              bypassCall alice feeCollector
              [NewCoin "nhash" 7; NewCoin "security" 5])
    as (Hdenied & Hbypass & Hdenom).
  - reflexivity.
  - exists (NewCoin "security" 5), (security StatusActive).
    split; [right; now left | split; reflexivity].
  - split; [exact Hdenied | split].
    + apply Hbypass; [reflexivity|].
      intros coin [<- | [<- | []]]; eexists; reflexivity.
    + apply (Hdenom [] "security" None (security StatusActive)); reflexivity.
Defined.

(** C2, as stated, fails on an ordinary call when the RestrictedCoin
    marker is not Active: the per-denom rule checks the status before
    the destination, and the denial is [MarkerNotActive]. *)
Lemma fee_collector_counterexample :
  Equals feeCollector (feeCollectorAddr (keeperOf [security StatusProposed] [] []))
  = true
  /\ hasRestrictedDenom markerAddr (keeperOf [security StatusProposed] [] [])
       plainCall [NewCoin "security" 5]
  /\ SendRestrictionFn markerAddr (keeperOf [security StatusProposed] [] [])
       plainCall alice feeCollector [NewCoin "security" 5]
     = Err (ErrSendNotActive "security" StatusProposed)
  /\ ~ deniedWith
         (SendRestrictionFn markerAddr (keeperOf [security StatusProposed] [] [])
            plainCall alice feeCollector [NewCoin "security" 5])
         RestrictedToFeeCollector.
Proof.
  split; [reflexivity | split; [|split; [reflexivity|]]].
  - exists (NewCoin "security" 5), (security StatusProposed).
    split; [now left | split; reflexivity].
  - intros [err [Herr Hreason]]. vm_compute in Herr.
    injection Herr as <-. discriminate Hreason.
Qed.

Lemma withdraw_needs_agent_unless_feegrant_witness :
  deniedWith
    (SendRestrictionFn markerAddr (keeperOf [security StatusActive] [] [])
       plainCall (markerAddr "security") bob [NewCoin "nhash" 7])
    WithdrawNotAuthorized
  /\ deniedWith
       (SendRestrictionFn markerAddr (keeperOf [security StatusActive] [] [])
          (agentCall [alice; carol]) (markerAddr "security") bob [NewCoin "nhash" 7])
       WithdrawNotAuthorized
  /\ (withdrawCheck feeGrantCall (GetTransferAgents feeGrantCall)
        (markerAddr "security") (security StatusActive) = Ok tt
      /\ SendRestrictionFn markerAddr (keeperOf [security StatusActive] [] [])
           feeGrantCall (markerAddr "security") bob [NewCoin "nhash" 7]
         = (fromStatusCheck (markerAddr "security") [NewCoin "nhash" 7]
              (security StatusActive) ;;
            receiverAndDenomChecks markerAddr (keeperOf [security StatusActive] [] [])
              feeGrantCall (markerAddr "security") bob
              (GetTransferAgents feeGrantCall) [NewCoin "nhash" 7])).
Proof.
  split; [|split].
  - apply (withdraw_needs_agent_unless_feegrant markerAddr
             (keeperOf [security StatusActive] [] []) plainCall
             (markerAddr "security") bob [NewCoin "nhash" 7] (security StatusActive));
      [reflexivity | reflexivity | reflexivity | left; reflexivity].
  - apply (withdraw_needs_agent_unless_feegrant markerAddr
             (keeperOf [security StatusActive] [] []) (agentCall [alice; carol])
             (markerAddr "security") bob [NewCoin "nhash" 7] (security StatusActive));
      [reflexivity | reflexivity | reflexivity | right; reflexivity].
  - apply (withdraw_needs_agent_unless_feegrant markerAddr
             (keeperOf [security StatusActive] [] []) feeGrantCall
             (markerAddr "security") bob [NewCoin "nhash" 7] (security StatusActive));
      reflexivity.
Defined.

Lemma withdraw_from_inactive_marker_witness :
  (SendRestrictionFn markerAddr (keeperOf [security StatusFinalized] [] [])
     (agentCall [bob]) (markerAddr "security") carol
     [NewCoin "nhash" 7; NewCoin "security" 5]
   = Err (ErrWithdrawNotActive (NewCoin "security" 5) "security"
            (markerAddr "security") StatusFinalized)
   /\ deniedWith
        (SendRestrictionFn markerAddr (keeperOf [security StatusFinalized] [] [])
           (agentCall [bob]) (markerAddr "security") carol
           [NewCoin "nhash" 7; NewCoin "security" 5])
        MarkerNotActive)
  /\ (fromStatusCheck (markerAddr "security")
        [NewCoin "nhash" 7; NewCoin "security" 0] (security StatusFinalized) = Ok tt
      /\ SendRestrictionFn markerAddr (keeperOf [security StatusFinalized] [] [])
           (agentCall [bob]) (markerAddr "security") carol
           [NewCoin "nhash" 7; NewCoin "security" 0]
         = (withdrawCheck (agentCall [bob]) (GetTransferAgents (agentCall [bob]))
              (markerAddr "security") (security StatusFinalized) ;;
            receiverAndDenomChecks markerAddr
              (keeperOf [security StatusFinalized] [] [])
              (agentCall [bob]) (markerAddr "security") carol
              (GetTransferAgents (agentCall [bob]))
              [NewCoin "nhash" 7; NewCoin "security" 0]))
  /\ (fromStatusCheck (markerAddr "security") [NewCoin "nhash" 7]
        (security StatusFinalized) = Ok tt
      /\ SendRestrictionFn markerAddr (keeperOf [security StatusFinalized] [] [])
           (agentCall [bob]) (markerAddr "security") carol [NewCoin "nhash" 7]
         = (withdrawCheck (agentCall [bob]) (GetTransferAgents (agentCall [bob]))
              (markerAddr "security") (security StatusFinalized) ;;
            receiverAndDenomChecks markerAddr
              (keeperOf [security StatusFinalized] [] [])
              (agentCall [bob]) (markerAddr "security") carol
              (GetTransferAgents (agentCall [bob])) [NewCoin "nhash" 7])).
Proof.
  split; [|split].
  - apply (proj1 (withdraw_from_inactive_marker markerAddr
             (keeperOf [security StatusFinalized] [] []) (agentCall [bob])
             (markerAddr "security") carol
             [NewCoin "nhash" 7; NewCoin "security" 5] (security StatusFinalized)
             eq_refl eq_refl ltac:(discriminate))).
    + simpl. split; [intros later [<- | []]; reflexivity|].
      split; [intros later [] | exact I].
    + right; now left.
    + reflexivity.
    + discriminate.
    + right; reflexivity.
  - apply (proj2 (withdraw_from_inactive_marker markerAddr
             (keeperOf [security StatusFinalized] [] []) (agentCall [bob])
             (markerAddr "security") carol
             [NewCoin "nhash" 7; NewCoin "security" 0] (security StatusFinalized)
             eq_refl eq_refl ltac:(discriminate))).
    intros coin [<- | [<- | []]] H; [discriminate H | reflexivity].
  - apply (proj2 (withdraw_from_inactive_marker markerAddr
             (keeperOf [security StatusFinalized] [] []) (agentCall [bob])
             (markerAddr "security") carol
             [NewCoin "nhash" 7] (security StatusFinalized)
             eq_refl eq_refl ltac:(discriminate))).
    intros coin [<- | []] H; discriminate H.
Defined.

(** [Find] relies on its contract: among coins that are not sorted by
    denom the bisection misses a denom that is there, and the status of
    the sending marker is then not held against the send. *)
Example Find_needs_sorted_coins :
  Find [NewCoin "security" 5; NewCoin "nhash" 7] "security" = (false, NewCoin "" 0)
  /\ Find [NewCoin "nhash" 7; NewCoin "security" 5] "security"
     = (true, NewCoin "security" 5)
  /\ fromStatusCheck (markerAddr "security")
       [NewCoin "security" 5; NewCoin "nhash" 7] (security StatusFinalized)
     = Ok tt.
Proof.
  repeat split.
Qed.

(** The other denoms do move: the call above with "nhash" only is allowed. *)
Example inactive_marker_other_denoms_move :
  SendRestrictionFn markerAddr (keeperOf [security StatusFinalized] [] [])
    (agentCall [bob]) (markerAddr "security") carol [NewCoin "nhash" 7]
  = Ok carol.
Proof.
  reflexivity.
Qed.

(** C4, as stated, fails when the withdraw check does not pass: without
    a transfer agent and without a feegrant the sender marker's own
    denom is denied with [WithdrawNotAuthorized], before the status of
    the marker is looked at. *)
Lemma withdraw_from_inactive_marker_counterexample :
  HasBypass plainCall
    || Equals (markerAddr "security")
         (markerModuleAddr (keeperOf [security StatusFinalized] [] []))
    || Equals (markerAddr "security")
         (ibcTransferModuleAddr (keeperOf [security StatusFinalized] [] []))
  = false
  /\ GetMarker (keeperOf [security StatusFinalized] [] []) plainCall
       (markerAddr "security")
     = Ok (Some (security StatusFinalized))
  /\ MarkerAccount.Status (security StatusFinalized) <> StatusActive
  /\ In (NewCoin (MarkerAccount.Denom (security StatusFinalized)) 5)
       [NewCoin "security" 5]
  /\ SendRestrictionFn markerAddr (keeperOf [security StatusFinalized] [] [])
       plainCall (markerAddr "security") carol [NewCoin "security" 5]
     = Err (ErrCannotWithdraw (markerAddr "security") "security")
  /\ ~ deniedWith
         (SendRestrictionFn markerAddr (keeperOf [security StatusFinalized] [] [])
            plainCall (markerAddr "security") carol [NewCoin "security" 5])
         MarkerNotActive.
Proof.
  split; [reflexivity | split; [reflexivity | split; [discriminate | split;
    [now left | split; [reflexivity|]]]]].
  intros [err [Herr Hreason]]. vm_compute in Herr.
  injection Herr as <-. discriminate Hreason.
Qed.

End EngineExamples.

(** * Further properties of the marker account *)

Section AccessQueries.

Import sdk types types.MarkerAccount Spec.

Lemma addressList_In (acl : list AccessGrant.t) (role : Access) (addr : AccAddress) :
  In addr (addressList acl role)
  <-> exists g, In g acl /\ AccessGrant.Address g = addr
                /\ AccessGrant.HasAccess g role = true.
Proof.
  induction acl as [|g acl IH]; simpl.
  - split; [intros [] | intros [g [[] _]]].
  - destruct (AccessGrant.HasAccess g role) eqn:E; simpl; rewrite IH; split.
    + intros [<- | [g' (Hg & Ha & Hr)]].
      * exists g. auto.
      * exists g'. auto.
    + intros [g' ([<- | Hg] & Ha & Hr)]; [now left | right; exists g'; auto].
    + intros [g' (Hg & Ha & Hr)]. exists g'. auto.
    + intros [g' ([<- | Hg] & Ha & Hr)]; [congruence | exists g'; auto].
Qed.

(** X1.  [AddressListForPermission] lists exactly the addresses that
    [HasAccess] accepts for the role. *)
Theorem AddressListForPermission_HasAccess
  (ma : MarkerAccount.t) (role : Access) (addr : AccAddress) :
  In addr (AddressListForPermission ma role)
  <-> HasAccess ma (String_ addr) role = true.
Proof.
  unfold AddressListForPermission, String_.
  rewrite addressList_In, HasAccess_In.
  split; intros [g (Hg & Ha & Hr)]; exists g; repeat split; auto;
    now apply AccessGrant_HasAccess_In.
Qed.

(** X2.  [ValidateAtLeastOneAddrHasAccess] passes exactly when
    [AtLeastOneAddrHasAccess] holds; it fails on the empty list, names
    the one address when a single address was given, and lists all
    addresses, in order, otherwise. *)
Theorem ValidateAtLeastOneAddrHasAccess_cases
  (ma : MarkerAccount.t) (addrs : list AccAddress) (role : Access) :
  (ValidateAtLeastOneAddrHasAccess ma addrs role = Ok tt
   <-> AtLeastOneAddrHasAccess ma addrs role = true)
  /\ (AtLeastOneAddrHasAccess ma addrs role = false ->
      ValidateAtLeastOneAddrHasAccess ma addrs role
      = match addrs with
        | [addr] => Err (ErrNoAccess (String_ addr) role (Denom ma) (Address ma))
        | _ => Err (ErrNoneHavePermission (map String_ addrs) role (Denom ma)
                      (Address ma))
        end)
  /\ AtLeastOneAddrHasAccess ma [] role = false.
Proof.
  assert (Hfail : AtLeastOneAddrHasAccess ma addrs role = false ->
      ValidateAtLeastOneAddrHasAccess ma addrs role
      = match addrs with
        | [addr] => Err (ErrNoAccess (String_ addr) role (Denom ma) (Address ma))
        | _ => Err (ErrNoneHavePermission (map String_ addrs) role (Denom ma)
                      (Address ma))
        end).
  { intros H. destruct addrs as [|a [|b rest]].
    - reflexivity.
    - unfold AtLeastOneAddrHasAccess in H. simpl in H. rewrite orb_false_r in H.
      unfold ValidateAtLeastOneAddrHasAccess, ValidateHasAccess. now rewrite H.
    - unfold ValidateAtLeastOneAddrHasAccess. now rewrite H. }
  split; [|split; [exact Hfail | reflexivity]].
  split.
  - intros Hok. destruct (AtLeastOneAddrHasAccess ma addrs role) eqn:E;
      [reflexivity|].
    rewrite (Hfail eq_refl) in Hok. destruct addrs as [|a [|b rest]]; discriminate Hok.
  - apply ValidateAtLeastOneAddrHasAccess_ok.
Qed.

End AccessQueries.

Section RevokeAndGrant.

Import sdk types types.MarkerAccount Spec.

Variable VerifyAddressFormat : AccAddress -> option error.

Lemma with_AccessControl_same (ma : MarkerAccount.t) :
  with_AccessControl ma (AccessControl ma) = ma.
Proof.
  now destruct ma.
Qed.

Lemma entriesNotFor_absent (addr : string) (acl : list AccessGrant.t) :
  (forall g, In g acl -> AccessGrant.Address g <> addr) ->
  entriesNotFor addr acl = acl.
Proof.
  unfold entriesNotFor. induction acl as [|g acl IH]; intros H; simpl; [reflexivity|].
  assert (E : String.eqb (AccessGrant.Address g) addr = false).
  { apply String.eqb_neq, H. now left. }
  rewrite E. simpl. f_equal. apply IH. intros g' Hg'. apply H. now right.
Qed.

Lemma HasAccess_entriesNotFor (ma : MarkerAccount.t) (addr other : string)
  (role : Access) (extra : list AccessGrant.t) :
  other <> addr ->
  (forall g, In g extra -> AccessGrant.Address g = addr) ->
  HasAccess (with_AccessControl ma (entriesNotFor addr (AccessControl ma) ++ extra))
            other role
  = HasAccess ma other role.
Proof.
  intros Hne Hextra.
  apply eq_true_iff_eq. rewrite !HasAccess_In. simpl.
  split; intros [g (Hg & Ha & Hr)]; exists g; repeat split; auto.
  - apply in_app_or in Hg as [Hg | Hg].
    + now apply entriesNotFor_In in Hg.
    + apply Hextra in Hg. congruence.
  - apply in_or_app. left. apply entriesNotFor_In. split; [exact Hg | congruence].
Qed.

Lemma RevokeAccess_result (ma : MarkerAccount.t) (addr : AccAddress) :
  RevokeAccess VerifyAddressFormat ma addr
  = match VerifyAddressFormat addr with
    | Some _ => Err ErrRevokeInvalidAddress
    | None => Ok (with_AccessControl ma (entriesNotFor addr (AccessControl ma)))
    end.
Proof.
  reflexivity.
Qed.

(** X3.  [RevokeAccess] fails exactly when the address is malformed,
    and then with its own error whatever the verifier said: it fails
    when the verifier rejects the address and succeeds when the
    verifier accepts it.  When it succeeds, the access list is the list
    of the grants of the other addresses: the address is left without
    any role, every other address with the roles it had, and no other
    field of the marker changes. *)
Theorem RevokeAccess_removes_all_roles
  (ma : MarkerAccount.t) (addr : AccAddress) :
  (VerifyAddressFormat addr <> None ->
   RevokeAccess VerifyAddressFormat ma addr = Err ErrRevokeInvalidAddress)
  /\ (VerifyAddressFormat addr = None ->
      exists ma',
        RevokeAccess VerifyAddressFormat ma addr = Ok ma'
        /\ AccessControl ma' = entriesNotFor addr (AccessControl ma)
        /\ (forall role, HasAccess ma' addr role = false)
        /\ (forall other role,
              other <> addr -> HasAccess ma' other role = HasAccess ma other role)
        /\ ma' = with_AccessControl ma (AccessControl ma')).
Proof.
  rewrite RevokeAccess_result. split.
  - intros H. destruct (VerifyAddressFormat addr); [reflexivity | contradiction].
  - intros ->. eexists.
    split; [reflexivity | split; [reflexivity | split; [|split; [|reflexivity]]]].
    + intros role. destruct (HasAccess _ addr role) eqn:E; [|reflexivity].
      apply HasAccess_In in E as [g (Hg & Ha & _)]. simpl in Hg.
      apply entriesNotFor_In in Hg as [_ Hne]. contradiction.
    + intros other role Hne.
      rewrite <- (HasAccess_entriesNotFor ma addr other role [] Hne)
        by (intros g []).
      now rewrite app_nil_r.
Qed.

(** X4.  For a well-formed address, revoking twice is revoking once:
    on the marker a first [RevokeAccess] returns, a second one succeeds
    and returns that same marker; and revoking an address that has no
    grant succeeds and returns the marker as it was. *)
Theorem RevokeAccess_idempotent (ma : MarkerAccount.t) (addr : AccAddress) :
  VerifyAddressFormat addr = None ->
  (forall ma',
     RevokeAccess VerifyAddressFormat ma addr = Ok ma' ->
     RevokeAccess VerifyAddressFormat ma' addr = Ok ma')
  /\ ((forall g, In g (AccessControl ma) -> AccessGrant.Address g <> addr) ->
      RevokeAccess VerifyAddressFormat ma addr = Ok ma).
Proof.
  intros Hverify. split.
  - intros ma'. rewrite !RevokeAccess_result, Hverify.
    intros [= <-]. simpl. now rewrite entriesNotFor_idem.
  - intros Habsent. rewrite RevokeAccess_result, Hverify.
    rewrite (entriesNotFor_absent addr _ Habsent).
    now rewrite with_AccessControl_same.
Qed.

Section Interface.

Context {G : Type} {I : AccessGrantI.t G}.
Hypothesis Hmerge : mergesByUnion I.

(** X5.  After a successful [GrantAccess] the address holds the roles
    granted and the roles it held before, and every other address holds
    what it held before: a grant takes nothing away from anyone. *)
Theorem GrantAccess_only_adds_roles
  (ma ma' : MarkerAccount.t) (access : G) :
  GrantAccess VerifyAddressFormat ma access = Ok ma' ->
  (forall role,
     HasAccess ma' (AccessGrantI.GetAddress access) role = true
     <-> In role (AccessGrantI.GetAccessList access)
         \/ HasAccess ma (AccessGrantI.GetAddress access) role = true)
  /\ (forall other role,
        other <> AccessGrantI.GetAddress access ->
        HasAccess ma' other role = HasAccess ma other role)
  /\ (forall addr role, HasAccess ma addr role = true -> HasAccess ma' addr role = true).
Proof.
  intros Hgrant.
  apply (GrantAccess_shape VerifyAddressFormat Hmerge) in Hgrant
    as [perms [-> Hroles]].
  assert (Hsame : forall role,
             HasAccess (with_AccessControl ma
                          (entriesNotFor (AccessGrantI.GetAddress access)
                                         (AccessControl ma)
                           ++ [AccessGrant.mk (AccessGrantI.GetAddress access) perms]))
                       (AccessGrantI.GetAddress access) role = true
             <-> In role (AccessGrantI.GetAccessList access)
                 \/ HasAccess ma (AccessGrantI.GetAddress access) role = true).
  { intros role. rewrite <- Hroles, HasAccess_In. simpl. split.
    - intros [g (Hg & Ha & Hr)]. apply in_app_or in Hg as [Hg | [<- | []]].
      + apply entriesNotFor_In in Hg as [_ Hne]. contradiction.
      + exact Hr.
    - intros Hr. exists (AccessGrant.mk (AccessGrantI.GetAddress access) perms).
      split; [apply in_or_app; right; now left | now split]. }
  assert (Hother : forall other role,
             other <> AccessGrantI.GetAddress access ->
             HasAccess (with_AccessControl ma
                          (entriesNotFor (AccessGrantI.GetAddress access)
                                         (AccessControl ma)
                           ++ [AccessGrant.mk (AccessGrantI.GetAddress access) perms]))
                       other role
             = HasAccess ma other role).
  { intros other role Hne. apply HasAccess_entriesNotFor; [exact Hne|].
    intros g [<- | []]. reflexivity. }
  split; [exact Hsame | split; [exact Hother|]].
  intros addr role Hheld.
  destruct (String.eqb addr (AccessGrantI.GetAddress access)) eqn:E.
  - apply String.eqb_eq in E; subst addr. apply Hsame. now right.
  - apply String.eqb_neq in E. now rewrite Hother.
Qed.

(** X6.  [RevokeAccess] undoes [GrantAccess]: revoking the address after the
    grant gives what revoking it before the grant gives, which is the
    marker itself when the address had no grant. *)
Theorem RevokeAccess_undoes_GrantAccess
  (ma ma' : MarkerAccount.t) (access : G) :
  GrantAccess VerifyAddressFormat ma access = Ok ma' ->
  RevokeAccess VerifyAddressFormat ma' (AccessGrantI.GetAddress access)
  = RevokeAccess VerifyAddressFormat ma (AccessGrantI.GetAddress access)
  /\ ((forall g, In g (AccessControl ma) ->
        AccessGrant.Address g <> AccessGrantI.GetAddress access) ->
      RevokeAccess VerifyAddressFormat ma' (AccessGrantI.GetAddress access) = Ok ma).
Proof.
  intros Hgrant.
  assert (Hverify : VerifyAddressFormat (AccessGrantI.GetAddress access) = None).
  { revert Hgrant. unfold GrantAccess.
    destruct (AccessGrantI.Validate access); simpl; [discriminate|].
    destruct (mergeExisting access (AccessControl ma)) as [merged|] eqn:Hm;
      simpl; [|discriminate].
    apply (mergeExisting_union Hmerge) in Hm as [<- _].
    rewrite RevokeAccess_result.
    now destruct (VerifyAddressFormat (AccessGrantI.GetAddress merged)). }
  apply (GrantAccess_shape VerifyAddressFormat Hmerge) in Hgrant
    as [perms [-> _]].
  rewrite !RevokeAccess_result, Hverify.
  assert (Heq : entriesNotFor (AccessGrantI.GetAddress access)
                  (entriesNotFor (AccessGrantI.GetAddress access) (AccessControl ma)
                   ++ [AccessGrant.mk (AccessGrantI.GetAddress access) perms])
                = entriesNotFor (AccessGrantI.GetAddress access) (AccessControl ma)).
  { unfold entriesNotFor at 1. rewrite filter_app.
    change (filter _ (entriesNotFor ?a ?l)) with (entriesNotFor a (entriesNotFor a l)).
    rewrite entriesNotFor_idem. simpl. rewrite String.eqb_refl. simpl.
    apply app_nil_r. }
  change (AccessControl (with_AccessControl ma ?l)) with l.
  rewrite Heq. split; [reflexivity|].
  intros Habsent. rewrite (entriesNotFor_absent _ _ Habsent).
  f_equal. now destruct ma.
Qed.

(** X7.  [GrantAccess] keeps the access list free of duplicate addresses. *)
Theorem GrantAccess_keeps_addresses_unique
  (ma ma' : MarkerAccount.t) (access : G) :
  NoDup (map AccessGrant.Address (AccessControl ma)) ->
  GrantAccess VerifyAddressFormat ma access = Ok ma' ->
  NoDup (map AccessGrant.Address (AccessControl ma')).
Proof.
  intros Hnd Hgrant.
  apply (GrantAccess_shape VerifyAddressFormat Hmerge) in Hgrant
    as [perms [-> _]].
  simpl. rewrite map_app. simpl.
  assert (Hfilter : forall acl,
             NoDup (map AccessGrant.Address acl) ->
             NoDup (map AccessGrant.Address
                      (entriesNotFor (AccessGrantI.GetAddress access) acl))
             /\ forall a, In a (map AccessGrant.Address
                                  (entriesNotFor (AccessGrantI.GetAddress access) acl)) ->
                          In a (map AccessGrant.Address acl)
                          /\ a <> AccessGrantI.GetAddress access).
  { intros acl Hacl. split.
    - unfold entriesNotFor. induction acl as [|g acl IH]; simpl; [constructor|].
      inversion Hacl as [|? ? Hnotin Hacl']; subst.
      destruct (negb _); simpl; [|now apply IH].
      constructor; [|now apply IH].
      intros Hin. apply Hnotin. apply in_map_iff in Hin as [g' [Hg' Hin]].
      apply filter_In in Hin as [Hin _]. apply in_map_iff. now exists g'.
    - intros a Hin. apply in_map_iff in Hin as [g [<- Hin]].
      apply entriesNotFor_In in Hin as [Hin Hne].
      split; [now apply in_map | exact Hne]. }
  destruct (Hfilter _ Hnd) as [Hnd' Hin'].
  apply NoDup_app.
  - exact Hnd'.
  - constructor; [intros [] | constructor].
  - intros a Hin [<- | []]. now apply Hin' in Hin as [_ Hne].
Qed.

End Interface.

End RevokeAndGrant.

Section Lifecycle.

Import sdk types types.MarkerAccount Spec.

Variable VerifyAddressFormat : AccAddress -> option error.

Lemma after_keeps_noManagerWhenActive (ma : MarkerAccount.t) (m : Mutation) :
  noManagerWhenActive ma -> noManagerWhenActive (after VerifyAddressFormat ma m).
Proof.
  unfold noManagerWhenActive, after. intros Hinv.
  destruct m; simpl.
  - unfold SetStatus. destruct (MarkerStatus_eqb status StatusUndefined); [exact Hinv|].
    destruct status; simpl; intros H; try discriminate H; reflexivity.
  - unfold SetManager.
    destruct (negb (Empty manager)
              && negb (MarkerStatus_eqb (Status ma) StatusProposed)) eqn:E;
      [exact Hinv|].
    destruct (VerifyAddressFormat manager); simpl; [exact Hinv|].
    intros Hactive. rewrite Hactive in E. simpl in E. rewrite andb_true_r in E.
    apply negb_false_iff, String.eqb_eq in E. exact E.
  - unfold SetSupply. destruct (negb _); exact Hinv.
  - destruct (grantAccess VerifyAddressFormat ma grant) as [ma'|] eqn:Hg;
      [|exact Hinv].
    destruct grant as [address perms].
    apply grantAccess_shape in Hg as [merged [-> _]]. exact Hinv.
  - rewrite RevokeAccess_result. destruct (VerifyAddressFormat addr); exact Hinv.
  - exact Hinv.
  - exact Hinv.
Qed.

(** X8.  A marker made by [NewMarkerAccount] has no manager while it is
    Active, whatever calls of [SetStatus], [SetManager], [SetSupply],
    [GrantAccess], [RevokeAccess] and the plain setters are made on it
    afterwards, in any order, failing or not. *)
Theorem active_marker_has_no_manager
  (baseAcc : AccAddress) (totalSupply : Coin) (manager : AccAddress)
  (accessControls : list AccessGrant.t) (status : MarkerStatus)
  (markerType : types.MarkerType)
  (supplyFixed allowGovernanceControl allowForcedTransfer : bool)
  (requiredAttributes : list string) (calls : list Mutation) :
  noManagerWhenActive
    (afterAll VerifyAddressFormat
       (NewMarkerAccount baseAcc totalSupply manager accessControls status
          markerType supplyFixed allowGovernanceControl allowForcedTransfer
          requiredAttributes)
       calls).
Proof.
  unfold afterAll.
  assert (Hstart : noManagerWhenActive
                     (NewMarkerAccount baseAcc totalSupply manager accessControls
                        status markerType supplyFixed allowGovernanceControl
                        allowForcedTransfer requiredAttributes)).
  { unfold noManagerWhenActive, NewMarkerAccount. simpl. now intros ->. }
  revert Hstart. generalize (NewMarkerAccount baseAcc totalSupply manager
    accessControls status markerType supplyFixed allowGovernanceControl
    allowForcedTransfer requiredAttributes).
  induction calls as [|m calls IH]; intros ma Hinv; simpl; [exact Hinv|].
  apply IH. now apply after_keeps_noManagerWhenActive.
Qed.

(** X9.  [SetStatus] refuses Undefined and leaves it at that: every
    other status is accepted whatever status the marker is in.  What
    the status set decides is whether a manager can be set next: after
    a status other than Proposed, [SetManager] rejects every address
    that is not empty; after Proposed, even coming from Destroyed, it
    accepts every well-formed one. *)
Theorem SetStatus_then_SetManager
  (ma : MarkerAccount.t) (manager : AccAddress) :
  SetStatus ma StatusUndefined = Err (ErrInvalidStatus StatusUndefined)
  /\ forall status,
       status <> StatusUndefined ->
       exists ma',
         SetStatus ma status = Ok ma'
         /\ Status ma' = status
         /\ (status <> StatusProposed -> Empty manager = false ->
             SetManager VerifyAddressFormat ma' manager = Err ErrManagerNotProposed)
         /\ (status = StatusProposed -> VerifyAddressFormat manager = None ->
             exists ma'', SetManager VerifyAddressFormat ma' manager = Ok ma''
                          /\ Manager ma'' = manager /\ Status ma'' = StatusProposed).
Proof.
  split; [reflexivity|].
  intros status Hdef. unfold SetStatus.
  assert (E : MarkerStatus_eqb status StatusUndefined = false)
    by now apply MarkerStatus_eqb_neq.
  rewrite E. eexists. split; [reflexivity | split; [reflexivity | split]].
  - intros Hnp He. unfold SetManager. simpl Status.
    apply MarkerStatus_eqb_neq in Hnp. now rewrite He, Hnp.
  - intros -> Hv. simpl. unfold SetManager. simpl Status. simpl MarkerStatus_eqb.
    rewrite andb_false_r, Hv. simpl. eexists. split; [reflexivity | split; reflexivity].
Qed.

(** X10.  [SetSupply] accepts exactly the coins of the marker's denom, and
    [GetSupply] then gives the coin back when it is a valid one;
    [SetSupply] does not look at the amount, and after a negative one
    [GetSupply] panics. *)
Theorem SetSupply_GetSupply
  (ValidateDenom : string -> option error) (ma : MarkerAccount.t) (total : Coin) :
  (sdk.Denom total <> Denom ma -> SetSupply ma total = Err ErrSupplyDenom)
  /\ (sdk.Denom total = Denom ma ->
      exists ma',
        SetSupply ma total = Ok ma'
        /\ (ValidateDenom (sdk.Denom total) = None -> (0 <= Amount total)%Z ->
            GetSupply ValidateDenom ma' = Some total)
        /\ ((Amount total < 0)%Z -> GetSupply ValidateDenom ma' = None)).
Proof.
  unfold SetSupply. split.
  - intros Hne. apply String.eqb_neq in Hne. now rewrite Hne.
  - intros Heq. rewrite Heq, String.eqb_refl. simpl.
    eexists. split; [reflexivity|]. unfold GetSupply. simpl. rewrite <- Heq. split.
    + intros -> Hpos. apply Z.ltb_ge in Hpos. rewrite Hpos. now destruct total.
    + intros Hneg. apply Z.ltb_lt in Hneg. rewrite Hneg.
      now destruct (ValidateDenom (sdk.Denom total)).
Qed.

End Lifecycle.

Section MoreRequiredAttributes.

Import types Spec.

Lemma collectRemovals_ok (currentAttrs removeAttrs toRem : list string) :
  (forall n, In n removeAttrs -> In n currentAttrs) ->
  collectRemovals currentAttrs removeAttrs toRem = Ok (rev removeAttrs ++ toRem).
Proof.
  revert toRem; induction removeAttrs as [|ra rest IH]; intros toRem H; simpl;
    [reflexivity|].
  assert (E : existsb (String.eqb ra) currentAttrs = true).
  { apply existsb_eqb_In, H. now left. }
  rewrite E, IH.
  - now rewrite <- app_assoc.
  - intros n Hn. apply H. now right.
Qed.

Lemma collectRemovals_err (currentAttrs pre post toRem : list string) (name : string) :
  (forall n, In n pre -> In n currentAttrs) ->
  ~ In name currentAttrs ->
  collectRemovals currentAttrs (pre ++ name :: post) toRem = Err (ErrNotRequired name).
Proof.
  revert toRem; induction pre as [|ra pre IH]; intros toRem Hpre Hname; simpl.
  - apply existsb_eqb_not_In in Hname. now rewrite Hname.
  - assert (E : existsb (String.eqb ra) currentAttrs = true).
    { apply existsb_eqb_In, Hpre. now left. }
    rewrite E. apply IH; [|exact Hname]. intros n Hn. apply Hpre. now right.
Qed.

Lemma filter_none {A : Type} (f : A -> bool) (l : list A) :
  (forall x, In x l -> f x = false) -> filter f l = [].
Proof.
  induction l as [|y l IH]; intros H; simpl; [reflexivity|].
  rewrite (H y (or_introl eq_refl)). apply IH. intros x Hx. apply H. now right.
Qed.

Lemma filter_not_listed (listed listed' l : list string) :
  (forall n, In n listed <-> In n listed') ->
  filter (fun ca => negb (existsb (String.eqb ca) listed)) l
  = filter (fun ca => negb (existsb (String.eqb ca) listed')) l.
Proof.
  intros H. apply filter_ext. intros ca. f_equal.
  apply eq_true_iff_eq. rewrite !existsb_eqb_In. apply H.
Qed.

(** X11.  [RemoveFromRequiredAttributes] fails with [ErrNotRequired] naming
    the first name to remove that is not in the current list; when all
    are, it returns the current list without every occurrence of the
    names to remove, the others in their order.  A name listed twice to
    remove is no failure. *)
Theorem RemoveFromRequiredAttributes_spec (currentAttrs : list string) :
  (forall pre name post,
     (forall n, In n pre -> In n currentAttrs) ->
     ~ In name currentAttrs ->
     RemoveFromRequiredAttributes currentAttrs (pre ++ name :: post)
     = Err (ErrNotRequired name))
  /\ (forall removeAttrs,
        (forall n, In n removeAttrs -> In n currentAttrs) ->
        RemoveFromRequiredAttributes currentAttrs removeAttrs
        = Ok (filter (fun ca => negb (existsb (String.eqb ca) removeAttrs))
                     currentAttrs)).
Proof.
  unfold RemoveFromRequiredAttributes. split.
  - intros pre name post Hpre Hname.
    now rewrite (collectRemovals_err currentAttrs pre post [] name Hpre Hname).
  - intros removeAttrs Hall.
    rewrite (collectRemovals_ok currentAttrs removeAttrs [] Hall). simpl.
    f_equal. apply filter_not_listed. intros n.
    rewrite app_nil_r. symmetry. apply in_rev.
Qed.

Lemma AddToRequiredAttributes_ok_inv (addAttrs currentAttrs updated : list string) :
  AddToRequiredAttributes currentAttrs addAttrs = Ok updated ->
  updated = currentAttrs ++ addAttrs
  /\ NoDup addAttrs
  /\ (forall n, In n addAttrs -> ~ In n currentAttrs).
Proof.
  revert currentAttrs; induction addAttrs as [|aa rest IH]; intros currentAttrs; simpl.
  - intros [= <-]. rewrite app_nil_r.
    split; [reflexivity | split; [constructor | intros n []]].
  - destruct (existsb (String.eqb aa) currentAttrs) eqn:E; [discriminate|].
    apply existsb_eqb_not_In in E.
    intros H. apply IH in H as (-> & Hnd & Hfresh).
    split; [now rewrite <- app_assoc | split].
    + constructor; [|exact Hnd].
      intros Hin. apply (Hfresh aa Hin). apply in_or_app. right. now left.
    + intros n [<- | Hn]; [exact E|].
      intros Hin. apply (Hfresh n Hn). apply in_or_app. now left.
Qed.

(** X12.  Removing what was just added gives the list back: when
    [AddToRequiredAttributes] succeeds, [RemoveFromRequiredAttributes]
    of the same names on its result succeeds with the original list. *)
Theorem RemoveFromRequiredAttributes_undoes_Add
  (currentAttrs addAttrs updated : list string) :
  AddToRequiredAttributes currentAttrs addAttrs = Ok updated ->
  RemoveFromRequiredAttributes updated addAttrs = Ok currentAttrs.
Proof.
  intros H. apply AddToRequiredAttributes_ok_inv in H as (-> & _ & Hfresh).
  unfold RemoveFromRequiredAttributes.
  rewrite (collectRemovals_ok (currentAttrs ++ addAttrs) addAttrs []).
  - simpl. f_equal. rewrite app_nil_r, filter_app.
    assert (H1 : filter (fun ca => negb (existsb (String.eqb ca) (rev addAttrs)))
                        currentAttrs = currentAttrs).
    { apply forallb_filter_id, forallb_forall. intros ca Hca.
      apply negb_true_iff, existsb_eqb_not_In. intros Hin.
      apply in_rev in Hin. exact (Hfresh ca Hin Hca). }
    assert (H2 : filter (fun ca => negb (existsb (String.eqb ca) (rev addAttrs)))
                        addAttrs = []).
    { apply filter_none. intros ca Hca.
      apply negb_false_iff, existsb_eqb_In. now apply -> in_rev. }
    rewrite H1, H2. apply app_nil_r.
  - intros n Hn. apply in_or_app. now right.
Qed.

End MoreRequiredAttributes.

Section MarkerValidation.

Import sdk types Spec.

Lemma IsOneOf_In (access : Access) (accesses : list Access) :
  IsOneOf access accesses = true <-> In access accesses.
Proof.
  unfold IsOneOf. rewrite existsb_exists. split.
  - intros [x [Hx Heq]]. apply Access_eqb_eq in Heq. now subst.
  - intros H. exists access. split; [exact H | now apply Access_eqb_eq].
Qed.

Lemma ibcAccessCheck_pass (permissions : list Access) :
  ibcAccessCheck permissions = Pass tt
  <-> forall access, In access permissions ->
                     access <> Access_Burn /\ access <> Access_Mint.
Proof.
  induction permissions as [|a rest IH]; cbn -[IsOneOf].
  - split; [intros _ access [] | reflexivity].
  - destruct (IsOneOf a [Access_Burn; Access_Mint]) eqn:E.
    + split; [discriminate|]. intros H.
      apply IsOneOf_In in E. destruct (H a (or_introl eq_refl)) as [Hb Hm].
      destruct E as [E | [E | []]]; congruence.
    + rewrite IH. split.
      * intros H access [<- | Hin]; [|now apply H].
        split; intros ->; discriminate E.
      * intros H access Hin. apply H. now right.
Qed.

Lemma ibcGrantsCheck_pass (grants : list AccessGrant.t) :
  ibcGrantsCheck grants = Pass tt
  <-> forall grant access,
        In grant grants -> In access (AccessGrant.Permissions grant) ->
        access <> Access_Burn /\ access <> Access_Mint.
Proof.
  induction grants as [|g rest IH]; simpl.
  - split; [intros _ grant access [] | reflexivity].
  - destruct (ibcAccessCheck (AccessGrant.Permissions g)) as [[]|err] eqn:E.
    + rewrite IH. pose proof (proj1 (ibcAccessCheck_pass _) E) as E'. split.
      * intros H grant access [<- | Hin] Ha; [now apply E' | now apply (H grant)].
      * intros H grant access Hin. apply H. now right.
    + split; [discriminate|]. intros H.
      assert (Hp : ibcAccessCheck (AccessGrant.Permissions g) = Pass tt).
      { apply ibcAccessCheck_pass. intros access. apply H. now left. }
      rewrite Hp in E. discriminate E.
Qed.

(** X13.  [ValidateIbcDenom] has nothing to say about a denom that does not
    start with "ibc/"; an ibc denom passes exactly when its supply is
    not fixed and no grant carries Burn or Mint, and the fixed supply
    is what is reported first. *)
Theorem ValidateIbcDenom_spec (ma : MarkerAccount.t) :
  (ValidateIbcDenom ma = Pass tt
   <-> (startsWith (MarkerAccount.Denom ma) "ibc/" ->
        MarkerAccount.SupplyFixed ma = false
        /\ forall grant access,
             In grant (MarkerAccount.AccessControl ma) ->
             In access (AccessGrant.Permissions grant) ->
             access <> Access_Burn /\ access <> Access_Mint))
  /\ (startsWith (MarkerAccount.Denom ma) "ibc/" ->
      MarkerAccount.SupplyFixed ma = true ->
      ValidateIbcDenom ma = Fail ErrIbcFixedSupply).
Proof.
  unfold ValidateIbcDenom.
  destruct (GoStrings.HasPrefix (MarkerAccount.Denom ma) "ibc/") eqn:Hp; simpl.
  - assert (Hs : startsWith (MarkerAccount.Denom ma) "ibc/")
      by now apply HasPrefix_startsWith.
    destruct (MarkerAccount.SupplyFixed ma); split.
    + split; [discriminate | intros H; now destruct (H Hs)].
    + reflexivity.
    + rewrite ibcGrantsCheck_pass. split; [now split | intros H; now apply H].
    + discriminate.
  - assert (Hs : ~ startsWith (MarkerAccount.Denom ma) "ibc/").
    { intros Hs. apply HasPrefix_startsWith in Hs. congruence. }
    split; [split; [intros _ Hs'; contradiction | reflexivity] | contradiction].
Qed.

Lemma accessesForMarkerType_supported (markerType : MarkerType)
  (supported permissions : list Access) :
  markerType = MarkerType_Coin /\ supported = coinAccesses
  \/ markerType = MarkerType_RestrictedCoin /\ supported = restrictedCoinAccesses ->
  accessesForMarkerType markerType permissions
  = match find (fun access => negb (IsOneOf access supported)) permissions with
    | Some access => Fail (ErrAccessNotSupported access markerType)
    | None => Pass tt
    end.
Proof.
  intros Hty. induction permissions as [|a rest IH]; cbn -[IsOneOf]; [reflexivity|].
  rewrite IH. destruct Hty as [[-> ->] | [-> ->]]; cbn -[IsOneOf];
    now destruct (negb _).
Qed.

Lemma grantsForMarkerType_all_supported (markerType : MarkerType)
  (supported : list Access) (grants : list AccessGrant.t) :
  markerType = MarkerType_Coin /\ supported = coinAccesses
  \/ markerType = MarkerType_RestrictedCoin /\ supported = restrictedCoinAccesses ->
  (forall grant access,
     In grant grants -> In access (AccessGrant.Permissions grant) ->
     IsOneOf access supported = true) ->
  grantsForMarkerType markerType grants = Pass tt.
Proof.
  intros Hty. induction grants as [|g rest IH]; intros H; simpl; [reflexivity|].
  rewrite (accessesForMarkerType_supported markerType supported _ Hty).
  destruct (find _ (AccessGrant.Permissions g)) as [a|] eqn:E.
  - apply find_some in E as [Hin Hno].
    rewrite (H g a (or_introl eq_refl) Hin) in Hno. discriminate Hno.
  - apply IH. intros grant access Hin. apply H. now right.
Qed.

Lemma grantsForMarkerType_unsupported (markerType : MarkerType)
  (supported : list Access) (grants : list AccessGrant.t) :
  markerType = MarkerType_Coin /\ supported = coinAccesses
  \/ markerType = MarkerType_RestrictedCoin /\ supported = restrictedCoinAccesses ->
  (exists grant access,
     In grant grants /\ In access (AccessGrant.Permissions grant)
     /\ IsOneOf access supported = false) ->
  exists access,
    IsOneOf access supported = false
    /\ grantsForMarkerType markerType grants
       = Fail (ErrAccessNotSupported access markerType).
Proof.
  intros Hty (grant & access & Hg & Ha & Hno).
  induction grants as [|g rest IH]; [destruct Hg|]. simpl.
  rewrite (accessesForMarkerType_supported markerType supported _ Hty).
  destruct (find _ (AccessGrant.Permissions g)) as [a|] eqn:E.
  - apply find_some in E as [_ E]. apply negb_true_iff in E.
    exists a. now split.
  - destruct Hg as [-> | Hg]; [|now apply IH].
    apply (find_none _ _ E) in Ha. rewrite Hno in Ha. discriminate Ha.
Qed.

Lemma grantsForMarkerType_unknown (grants : list AccessGrant.t) :
  grantsForMarkerType MarkerType_Unknown grants
  = if forallb (fun grant => (length (AccessGrant.Permissions grant) =? 0)%nat) grants
    then Pass tt
    else Fail (ErrUnsupportedMarkerType MarkerType_Unknown).
Proof.
  induction grants as [|g rest IH]; simpl; [reflexivity|].
  destruct (AccessGrant.Permissions g) as [|a perms]; simpl; [exact IH | reflexivity].
Qed.

Section WithValidateGrants.

Variable ValidateGrants : list AccessGrant.t -> option error.

(** X14.  [ValidateGrantsForMarkerType] rejects, for a Coin marker, every
    grant list that carries a role outside the six a Coin marker
    supports (Transfer and ForceTransfer are outside), and for a marker
    of unknown type every grant list that carries a role at all; a list
    of supported roles is handed on to [ValidateGrants], whose verdict
    is the result. *)
Theorem ValidateGrantsForMarkerType_spec (grants : list AccessGrant.t) :
  ((exists grant access,
      In grant grants /\ In access (AccessGrant.Permissions grant)
      /\ IsOneOf access coinAccesses = false) ->
   exists access,
     IsOneOf access coinAccesses = false
     /\ ValidateGrantsForMarkerType ValidateGrants MarkerType_Coin grants
        = Fail (ErrAccessNotSupported access MarkerType_Coin))
  /\ IsOneOf Access_Transfer coinAccesses = false
  /\ IsOneOf Access_ForceTransfer coinAccesses = false
  /\ (forall markerType supported,
        markerType = MarkerType_Coin /\ supported = coinAccesses
        \/ markerType = MarkerType_RestrictedCoin
           /\ supported = restrictedCoinAccesses ->
        (forall grant access,
           In grant grants -> In access (AccessGrant.Permissions grant) ->
           IsOneOf access supported = true) ->
        ValidateGrantsForMarkerType ValidateGrants markerType grants
        = match ValidateGrants grants with
          | Some err => Fail (ErrFromCollaborator err)
          | None => Pass tt
          end)
  /\ ((exists grant, In grant grants /\ AccessGrant.Permissions grant <> []) ->
      ValidateGrantsForMarkerType ValidateGrants MarkerType_Unknown grants
      = Fail (ErrUnsupportedMarkerType MarkerType_Unknown)).
Proof.
  unfold ValidateGrantsForMarkerType.
  split; [|split; [reflexivity | split; [reflexivity | split]]].
  - intros H.
    destruct (grantsForMarkerType_unsupported MarkerType_Coin coinAccesses grants
                (or_introl (conj eq_refl eq_refl)) H) as [access [Hno ->]].
    now exists access.
  - intros markerType supported Hty Hall.
    now rewrite (grantsForMarkerType_all_supported markerType supported grants Hty Hall).
  - intros [grant [Hin Hne]]. rewrite grantsForMarkerType_unknown.
    assert (E : forallb (fun grant => (length (AccessGrant.Permissions grant) =? 0)%nat)
                        grants = false).
    { destruct (forallb _ grants) eqn:E; [|reflexivity].
      rewrite forallb_forall in E. specialize (E grant Hin).
      apply Nat.eqb_eq in E. destruct (AccessGrant.Permissions grant);
        [contradiction | discriminate E]. }
    now rewrite E.
Qed.

End WithValidateGrants.

End MarkerValidation.

Section ValidateMarker.

Import sdk types Spec.

Variable ValidMarkerStatus : MarkerStatus -> bool.
Variable TrimSpace : string -> string.
Variable MarkerAddress : string -> result AccAddress.
Variable ValidateGrants : list AccessGrant.t -> option error.
Variable GrantsForAddress : AccAddress -> list AccessGrant.t -> AccessGrant.t.
Variable BaseAccountValidate : MarkerAccount.t -> option error.

Lemma length_eqb_0 {A : Type} (l : list A) : (length l =? 0)%nat = true <-> l = [].
Proof.
  destruct l; simpl; split; intros H; try reflexivity; discriminate H.
Qed.

(** X15.  [Validate] passes exactly the markers that satisfy every one of its
    checks: a recognized status; a supply that is not negative; before
    Active, a manager or an Admin grant; when Finalized, a Mint grant or
    a supply; a denom that is not blank and whose derived address is
    the marker's own; the ibc rules; grants the marker type supports;
    no grant to the marker itself; a manager other than the marker
    itself; forced transfers on restricted markers only; and a valid
    base account. *)
Theorem Validate_passes_iff (ma : MarkerAccount.t) :
  Validate ValidMarkerStatus TrimSpace MarkerAddress ValidateGrants
    GrantsForAddress BaseAccountValidate ma = Pass tt
  <-> ValidMarkerStatus (MarkerAccount.Status ma) = true
      /\ (0 <= MarkerAccount.Supply ma)%Z
      /\ ((MarkerStatus_value (MarkerAccount.Status ma)
           < MarkerStatus_value StatusActive)%Z ->
          MarkerAccount.Manager ma <> ""
          \/ MarkerAccount.AddressListForPermission ma Access_Admin <> [])
      /\ (MarkerAccount.Status ma = StatusFinalized ->
          MarkerAccount.AddressListForPermission ma Access_Mint <> []
          \/ MarkerAccount.Supply ma <> 0%Z)
      /\ TrimSpace (MarkerAccount.Denom ma) <> ""
      /\ MarkerAddress (MarkerAccount.Denom ma) = Ok (MarkerAccount.Address ma)
      /\ ValidateIbcDenom ma = Pass tt
      /\ ValidateGrantsForMarkerType ValidateGrants (MarkerAccount.MarkerType ma)
           (MarkerAccount.AccessControl ma) = Pass tt
      /\ AccessGrant.GetAccessList
           (GrantsForAddress (MarkerAccount.Address ma)
              (MarkerAccount.AccessControl ma)) = []
      /\ MarkerAccount.Manager ma <> MarkerAccount.Address ma
      /\ (MarkerAccount.AllowForcedTransfer ma = true ->
          MarkerAccount.MarkerType ma = MarkerType_RestrictedCoin)
      /\ BaseAccountValidate ma = None.
Proof.
  unfold Validate, MarkerAccount.GetAddress, String_, Equals.
  destruct (ValidMarkerStatus (MarkerAccount.Status ma)) eqn:E1; cbn [negb];
    [|split; [discriminate | intros (H & _); discriminate H]].
  destruct (MarkerAccount.Supply ma <? 0)%Z eqn:E2;
    [split; [discriminate | intros (_ & H & _); apply Z.ltb_lt in E2; lia]|].
  apply Z.ltb_ge in E2.
  destruct ((MarkerStatus_value (MarkerAccount.Status ma)
             <? MarkerStatus_value StatusActive)%Z
            && String.eqb (MarkerAccount.Manager ma) ""
            && (length (MarkerAccount.AddressListForPermission ma Access_Admin) =? 0)%nat)
    eqn:E3.
  { split; [discriminate|]. intros (_ & _ & H & _).
    apply andb_true_iff in E3 as [E3 E3c]. apply andb_true_iff in E3 as [E3a E3b].
    apply Z.ltb_lt in E3a. apply String.eqb_eq in E3b. apply length_eqb_0 in E3c.
    destruct (H E3a) as [Hm | Ha]; contradiction. }
  assert (H3 : (MarkerStatus_value (MarkerAccount.Status ma)
                < MarkerStatus_value StatusActive)%Z ->
               MarkerAccount.Manager ma <> ""
               \/ MarkerAccount.AddressListForPermission ma Access_Admin <> []).
  { intros Hlt. apply Z.ltb_lt in Hlt. rewrite Hlt in E3. simpl in E3.
    apply andb_false_iff in E3 as [E3 | E3].
    - left. now apply String.eqb_neq.
    - right. intros Hnil. apply length_eqb_0 in Hnil. congruence. }
  clear E3.
  destruct (MarkerStatus_eqb (MarkerAccount.Status ma) StatusFinalized
            && (length (MarkerAccount.AddressListForPermission ma Access_Mint) =? 0)%nat
            && (MarkerAccount.Supply ma =? 0)%Z) eqn:E4.
  { split; [discriminate|]. intros (_ & _ & _ & H & _).
    apply andb_true_iff in E4 as [E4 E4c]. apply andb_true_iff in E4 as [E4a E4b].
    apply MarkerStatus_eqb_eq in E4a. apply length_eqb_0 in E4b. apply Z.eqb_eq in E4c.
    destruct (H E4a) as [Hm | Hs]; contradiction. }
  assert (H4 : MarkerAccount.Status ma = StatusFinalized ->
               MarkerAccount.AddressListForPermission ma Access_Mint <> []
               \/ MarkerAccount.Supply ma <> 0%Z).
  { intros Hf. apply MarkerStatus_eqb_eq in Hf. rewrite Hf in E4. simpl in E4.
    apply andb_false_iff in E4 as [E4 | E4].
    - left. intros Hnil. apply length_eqb_0 in Hnil. congruence.
    - right. now apply Z.eqb_neq. }
  clear E4.
  destruct (String.eqb (TrimSpace (MarkerAccount.Denom ma)) "") eqn:E5.
  { split; [discriminate|]. intros (_ & _ & _ & _ & H & _).
    apply String.eqb_eq in E5. contradiction. }
  apply String.eqb_neq in E5.
  destruct (MarkerAddress (MarkerAccount.Denom ma)) as [markerAddress|err] eqn:E6;
    [|split; [discriminate | intros (_ & _ & _ & _ & _ & H & _); discriminate H]].
  destruct (ValidateIbcDenom ma) as [[]|err] eqn:E7;
    [|split; [discriminate | intros (_ & _ & _ & _ & _ & _ & H & _); discriminate H]].
  destruct (String.eqb (MarkerAccount.Address ma) markerAddress) eqn:E8; simpl.
  2:{ split; [discriminate|]. intros (_ & _ & _ & _ & _ & H & _).
      injection H as ->. rewrite String.eqb_refl in E8. discriminate E8. }
  apply String.eqb_eq in E8. subst markerAddress.
  destruct (ValidateGrantsForMarkerType ValidateGrants (MarkerAccount.MarkerType ma)
              (MarkerAccount.AccessControl ma)) as [[]|err] eqn:E9;
    [|split; [discriminate
             | intros (_ & _ & _ & _ & _ & _ & _ & H & _); discriminate H]].
  destruct (AccessGrant.GetAccessList
              (GrantsForAddress (MarkerAccount.Address ma)
                 (MarkerAccount.AccessControl ma))) as [|a selfGrant] eqn:E10; simpl.
  2:{ split; [discriminate
             | intros (_ & _ & _ & _ & _ & _ & _ & _ & H & _); discriminate H]. }
  destruct (String.eqb (MarkerAccount.Manager ma) (MarkerAccount.Address ma)) eqn:E11.
  { split; [discriminate|]. intros (_ & _ & _ & _ & _ & _ & _ & _ & _ & H & _).
    apply String.eqb_eq in E11. contradiction. }
  apply String.eqb_neq in E11.
  destruct (MarkerAccount.AllowForcedTransfer ma
            && negb (MarkerType_eqb (MarkerAccount.MarkerType ma)
                       MarkerType_RestrictedCoin)) eqn:E12.
  { split; [discriminate|].
    intros (_ & _ & _ & _ & _ & _ & _ & _ & _ & _ & H & _).
    apply andb_true_iff in E12 as [E12a E12b]. apply negb_true_iff in E12b.
    rewrite (H E12a) in E12b. discriminate E12b. }
  assert (H12 : MarkerAccount.AllowForcedTransfer ma = true ->
                MarkerAccount.MarkerType ma = MarkerType_RestrictedCoin).
  { intros Ha. rewrite Ha in E12. simpl in E12. apply negb_false_iff in E12.
    now apply MarkerType_eqb_eq. }
  clear E12.
  destruct (BaseAccountValidate ma) as [err|] eqn:E13.
  - split; [discriminate|].
    intros (_ & _ & _ & _ & _ & _ & _ & _ & _ & _ & _ & H). discriminate H.
  - split; [intros _ | reflexivity].
    repeat (split; [assumption || reflexivity|]). reflexivity.
Qed.

End ValidateMarker.

(** * Further properties of the send restriction *)

Section MoreMatcher.

Import keeper Spec.

Lemma findMissingAttributes_filter (required : list string)
  (attributes : list Attribute) :
  findMissingAttributes required attributes
  = filter (fun req =>
              negb (existsb (fun attr => MatchAttribute req (Name attr)) attributes))
           required.
Proof.
  induction required as [|req rest IH]; simpl; [reflexivity|].
  destruct (existsb _ attributes); simpl; now rewrite IH.
Qed.

(** X16.  [findMissingAttributes] keeps, in their order, exactly the required
    patterns that no attribute name matches: it is empty exactly when
    every required pattern is matched, and it is the whole list when no
    attribute is held. *)
Theorem findMissingAttributes_spec (required : list string)
  (attributes : list Attribute) :
  findMissingAttributes required attributes
  = filter (fun req =>
              negb (existsb (fun attr => MatchAttribute req (Name attr)) attributes))
           required
  /\ (forall req,
        In req (findMissingAttributes required attributes)
        <-> In req required
            /\ forall attr, In attr attributes ->
                            MatchAttribute req (Name attr) = false)
  /\ (findMissingAttributes required attributes = []
      <-> forall req, In req required ->
            exists attr, In attr attributes /\ MatchAttribute req (Name attr) = true)
  /\ findMissingAttributes required [] = required.
Proof.
  split; [apply findMissingAttributes_filter|].
  assert (Hin : forall req,
             In req (findMissingAttributes required attributes)
             <-> In req required
                 /\ forall attr, In attr attributes ->
                                 MatchAttribute req (Name attr) = false).
  { intros req. rewrite findMissingAttributes_filter, filter_In, negb_true_iff.
    split; intros [Hr H]; split; try exact Hr.
    - intros attr Hattr.
      destruct (MatchAttribute req (Name attr)) eqn:E; [|reflexivity].
      assert (Hex : existsb (fun attr => MatchAttribute req (Name attr)) attributes
                    = true) by (apply existsb_exists; now exists attr).
      congruence.
    - destruct (existsb _ attributes) eqn:E; [|reflexivity].
      apply existsb_exists in E as [attr [Hattr Hm]].
      rewrite (H attr Hattr) in Hm. discriminate Hm. }
  split; [exact Hin | split].
  - split.
    + intros Hnil req Hreq.
      destruct (existsb (fun attr => MatchAttribute req (Name attr)) attributes) eqn:E.
      * apply existsb_exists in E. exact E.
      * assert (Hmiss : In req (findMissingAttributes required attributes)).
        { apply Hin. split; [exact Hreq|]. intros attr Hattr.
          destruct (MatchAttribute req (Name attr)) eqn:Em; [|reflexivity].
          assert (Hex : existsb (fun attr => MatchAttribute req (Name attr)) attributes
                        = true) by (apply existsb_exists; now exists attr).
          congruence. }
        rewrite Hnil in Hmiss. destruct Hmiss.
    + intros Hall.
      destruct (findMissingAttributes required attributes) as [|req rest] eqn:E;
        [reflexivity|].
      assert (Hreq : In req (req :: rest)) by now left.
      apply Hin in Hreq as [Hreq Hno].
      destruct (Hall req Hreq) as [attr [Hattr Hm]].
      rewrite (Hno attr Hattr) in Hm. discriminate Hm.
  - clear Hin.
    induction required as [|req rest IH]; simpl; [reflexivity | now rewrite IH].
Qed.

Lemma app_assoc_string (s1 s2 s3 : string) :
  ((s1 ++ s2) ++ s3 = s1 ++ (s2 ++ s3))%string.
Proof.
  induction s1 as [|c s1 IH]; simpl; [reflexivity | now rewrite IH].
Qed.

(** X17.  Every pattern that is not empty matches the attribute name equal to
    it, wildcard or not.  A wildcard pattern "*.x" matches every name
    that ends with ".x", also ".x" itself and every extension of a
    matching name to the left, but never the bare name "x". *)
Theorem MatchAttribute_wildcard_facts :
  (forall requiredPattern,
     requiredPattern <> "" -> MatchAttribute requiredPattern requiredPattern = true)
  /\ (forall rest, MatchAttribute ("*." ++ rest) rest = false)
  /\ (forall rest, MatchAttribute ("*." ++ rest) ("." ++ rest) = true)
  /\ (forall rest pre attributeName,
        MatchAttribute ("*." ++ rest) attributeName = true ->
        MatchAttribute ("*." ++ rest) (pre ++ attributeName) = true).
Proof.
  split; [|split; [|split]].
  - intros p Hne.
    destruct (GoStrings.HasPrefix p "*.") eqn:Hp.
    + apply HasPrefix_startsWith in Hp as [rest ->].
      rewrite MatchAttribute_wildcard. apply HasSuffix_endsWith.
      now exists "*".
    + rewrite MatchAttribute_exact; [apply String.eqb_refl | exact Hne |].
      intros Hs. apply HasPrefix_startsWith in Hs. congruence.
  - intros rest. rewrite MatchAttribute_wildcard.
    destruct (GoStrings.HasSuffix rest ("." ++ rest)) eqn:E; [|reflexivity].
    apply HasSuffix_endsWith in E as [pre E].
    apply (f_equal String.length) in E. rewrite !length_app_string in E.
    simpl in E. lia.
  - intros rest. rewrite MatchAttribute_wildcard. apply HasSuffix_endsWith.
    now exists "".
  - intros rest pre a. rewrite !MatchAttribute_wildcard.
    rewrite !HasSuffix_endsWith. intros [pre' ->].
    exists (pre ++ pre')%string.
    symmetry. apply app_assoc_string.
Qed.

Lemma MatchAttribute_wildcard_facts_witness :
  MatchAttribute "*.kyc.example" "*.kyc.example" = true
  /\ MatchAttribute "kyc.example" "kyc.example" = true
  /\ MatchAttribute ("*." ++ "kyc.example") ("b." ++ "a.kyc.example") = true.
Proof.
  destruct MatchAttribute_wildcard_facts as (Hrefl & _ & _ & Hext).
  split; [|split].
  - apply Hrefl. discriminate.
  - apply Hrefl. discriminate.
  - apply Hext. reflexivity.
Defined.

End MoreMatcher.

Section Normalizer.

Import sdk types keeper Spec.

Variable GetMaxValueLength : Context -> nat.
Variable Normalize : Context -> string -> result string.

Lemma normalizeRequiredAttribute_identity (ctx : Context) (maxLength : nat)
  (attr : string) :
  (forall name, Normalize ctx name = Ok name) ->
  String.length attr <= maxLength ->
  normalizeRequiredAttribute Normalize ctx maxLength attr = Pass attr.
Proof.
  intros Hid Hlen. unfold normalizeRequiredAttribute.
  apply Nat.ltb_ge in Hlen. rewrite Hlen.
  destruct (GoStrings.HasPrefix attr "*."); rewrite Hid.
  - now rewrite take_drop.
  - reflexivity.
Qed.

(** X18.  [NormalizeRequiredAttributes] fails as soon as a name is longer
    than the maximum, before the normalizer sees it.  When it succeeds
    it returns one name for each name given, in order: a name that
    starts with "*." is normalized behind that prefix, which is kept,
    and any other name is normalized as a whole.  With a normalizer
    that changes nothing the names come back as they were. *)
Theorem NormalizeRequiredAttributes_spec (ctx : Context)
  (requiredAttributes : list string) :
  ((exists attr, In attr requiredAttributes
                 /\ GetMaxValueLength ctx < String.length attr) ->
   exists err,
     NormalizeRequiredAttributes GetMaxValueLength Normalize ctx requiredAttributes
     = Fail err)
  /\ (forall result,
        NormalizeRequiredAttributes GetMaxValueLength Normalize ctx requiredAttributes
        = Pass result ->
        Forall2 (fun attr normalized =>
                   String.length attr <= GetMaxValueLength ctx
                   /\ ((exists rest normalizedRest,
                          attr = ("*." ++ rest)%string
                          /\ Normalize ctx rest = Ok normalizedRest
                          /\ normalized = ("*." ++ normalizedRest)%string)
                       \/ (~ startsWith attr "*."
                           /\ Normalize ctx attr = Ok normalized)))
                requiredAttributes result)
  /\ ((forall name, Normalize ctx name = Ok name) ->
      (forall attr, In attr requiredAttributes ->
                    String.length attr <= GetMaxValueLength ctx) ->
      NormalizeRequiredAttributes GetMaxValueLength Normalize ctx requiredAttributes
      = Pass requiredAttributes).
Proof.
  unfold NormalizeRequiredAttributes.
  generalize (GetMaxValueLength ctx) as maxLength. intros maxLength.
  split; [|split].
  - intros [attr [Hin Hlong]].
    induction requiredAttributes as [|a rest IH]; [destruct Hin|]. simpl.
    destruct (normalizeRequiredAttribute Normalize ctx maxLength a) as [n|err] eqn:E;
      [|now exists err].
    destruct Hin as [-> | Hin].
    + unfold normalizeRequiredAttribute in E.
      apply Nat.ltb_lt in Hlong. rewrite Hlong in E. discriminate E.
    + destruct (IH Hin) as [err ->]. now exists err.
  - induction requiredAttributes as [|a rest IH]; intros result; simpl.
    + intros [= <-]. constructor.
    + destruct (normalizeRequiredAttribute Normalize ctx maxLength a) as [n|err] eqn:E;
        [|discriminate].
      destruct (normalizeEach Normalize ctx maxLength rest) as [ns|err] eqn:Er;
        [|discriminate].
      intros [= <-]. constructor; [|now apply IH].
      unfold normalizeRequiredAttribute in E.
      destruct (maxLength <? String.length a)%nat eqn:Hlen; [discriminate|].
      apply Nat.ltb_ge in Hlen. split; [exact Hlen|].
      destruct (GoStrings.HasPrefix a "*.") eqn:Hp.
      * left. apply HasPrefix_startsWith in Hp as [r ->]. simpl in E.
        destruct (Normalize ctx r) as [nr|] eqn:En; [|discriminate].
        injection E as <-. now exists r, nr.
      * right. split.
        -- intros Hs. apply HasPrefix_startsWith in Hs. congruence.
        -- destruct (Normalize ctx a) as [na|]; [|discriminate].
           now injection E as <-.
  - intros Hid Hall.
    induction requiredAttributes as [|a rest IH]; simpl; [reflexivity|].
    rewrite (normalizeRequiredAttribute_identity ctx maxLength a Hid)
      by (apply Hall; now left).
    rewrite IH; [reflexivity|]. intros attr Hin. apply Hall. now right.
Qed.

End Normalizer.

Section DenomRules.

Import sdk types keeper Spec.
Local Open Scope go_scope.

Variable MustGetMarkerAddress : string -> AccAddress.
Variable k : Keeper.

Lemma validateSendDenom_restricted
  (ctx : Context) (fromAddr toAddr : AccAddress) (admins : list AccAddress)
  (denom : string) (toMarker : option MarkerAccount.t) (marker : MarkerAccount.t) :
  GetMarker k ctx (MustGetMarkerAddress denom) = Ok (Some marker) ->
  MarkerAccount.Status marker = StatusActive ->
  MarkerAccount.MarkerType marker = MarkerType_RestrictedCoin ->
  Equals toAddr (feeCollectorAddr k) = false ->
  validateSendDenom MustGetMarkerAddress k ctx fromAddr toAddr admins denom toMarker
  = if (0 <? length admins)%nat
       && AtLeastOneAddrHasAccess marker admins Access_Transfer
    then Ok tt
    else if IsSendDeny k ctx (MustGetMarkerAddress denom) fromAddr
    then Err (ErrOnDenyList (String_ fromAddr))
    else if MarkerAccount.AddressHasAccess marker fromAddr Access_Transfer
    then Ok tt
    else
      match toMarker with
      | Some _ =>
          if (length admins =? 0)%nat
          then Err (ErrNoAccess (String_ fromAddr) Access_Transfer denom
                      (MarkerAccount.GetAddress marker))
          else Err (ErrNoneHave (String_ fromAddr :: map String_ admins)
                      Access_Transfer denom (MarkerAccount.GetAddress marker))
      | None =>
          if (length (MarkerAccount.GetRequiredAttributes marker) =? 0)%nat
          then
            if IsReqAttrBypassAddr k fromAddr
            then Ok tt
            else Err (ErrNoTransferPermissions (String_ fromAddr) denom)
          else if IsReqAttrBypassAddr k toAddr
          then Ok tt
          else
            match GetAllAttributesAddr k ctx toAddr with
            | Err err => Err (ErrGetAttributes (String_ toAddr) err)
            | Ok attributes =>
                if negb (length (findMissingAttributes
                                   (MarkerAccount.GetRequiredAttributes marker)
                                   attributes) =? 0)%nat
                then Err (ErrMissingAttributes (String_ toAddr) denom
                            (findMissingAttributes
                               (MarkerAccount.GetRequiredAttributes marker)
                               attributes))
                else Ok tt
            end
      end.
Proof.
  intros Hm Hst Hty Hto. unfold validateSendDenom. rewrite Hm. simpl.
  unfold MarkerAccount.GetStatus, MarkerAccount.GetMarkerType.
  rewrite Hst, Hty, Hto. reflexivity.
Qed.

Lemma AtLeastOneAddrHasAccess_nonempty (ma : MarkerAccount.t)
  (addrs : list AccAddress) (role : Access) :
  AtLeastOneAddrHasAccess ma addrs role = true -> (0 <? length addrs)%nat = true.
Proof.
  destruct addrs; [discriminate | reflexivity].
Qed.

(** X19.  A denom without a marker passes the per-denom rule, and so does the
    denom of an Active marker that is not a RestrictedCoin, whoever
    sends to whomever; the denom of a marker that is not Active is
    denied with [MarkerNotActive], restricted or not, whatever access
    the sender or a transfer agent has. *)
Theorem validateSendDenom_status_and_type
  (ctx : Context) (fromAddr toAddr : AccAddress) (admins : list AccAddress)
  (denom : string) (toMarker : option MarkerAccount.t) :
  (GetMarker k ctx (MustGetMarkerAddress denom) = Ok None ->
   validateSendDenom MustGetMarkerAddress k ctx fromAddr toAddr admins denom toMarker
   = Ok tt)
  /\ (forall marker,
        GetMarker k ctx (MustGetMarkerAddress denom) = Ok (Some marker) ->
        MarkerAccount.Status marker = StatusActive ->
        MarkerAccount.MarkerType marker <> MarkerType_RestrictedCoin ->
        validateSendDenom MustGetMarkerAddress k ctx fromAddr toAddr admins denom
          toMarker
        = Ok tt)
  /\ (forall marker,
        GetMarker k ctx (MustGetMarkerAddress denom) = Ok (Some marker) ->
        MarkerAccount.Status marker <> StatusActive ->
        validateSendDenom MustGetMarkerAddress k ctx fromAddr toAddr admins denom
          toMarker
        = Err (ErrSendNotActive denom (MarkerAccount.Status marker))
        /\ deniedWith
             (validateSendDenom MustGetMarkerAddress k ctx fromAddr toAddr admins
                denom toMarker)
             MarkerNotActive).
Proof.
  unfold validateSendDenom. split; [|split].
  - now intros ->.
  - intros marker -> Hst Hty. simpl.
    unfold MarkerAccount.GetStatus, MarkerAccount.GetMarkerType. rewrite Hst. simpl.
    destruct (MarkerType_eqb (MarkerAccount.MarkerType marker)
                             MarkerType_RestrictedCoin) eqn:E; [|reflexivity].
    apply MarkerType_eqb_eq in E. contradiction.
  - intros marker -> Hst. simpl. unfold MarkerAccount.GetStatus.
    apply MarkerStatus_eqb_neq in Hst. rewrite Hst. simpl.
    split; [reflexivity | eexists; split; reflexivity].
Qed.

(** X20.  On an Active RestrictedCoin denom that is not going to the fee
    collector, Transfer access decides first: a transfer agent holding
    Transfer lets the send pass even when the sender is on the deny
    list, and a sender holding Transfer who is not on the deny list
    passes whatever the destination and the required attributes are. *)
Theorem validateSendDenom_transfer_access_allows
  (ctx : Context) (fromAddr toAddr : AccAddress) (admins : list AccAddress)
  (denom : string) (toMarker : option MarkerAccount.t) (marker : MarkerAccount.t) :
  GetMarker k ctx (MustGetMarkerAddress denom) = Ok (Some marker) ->
  MarkerAccount.Status marker = StatusActive ->
  MarkerAccount.MarkerType marker = MarkerType_RestrictedCoin ->
  Equals toAddr (feeCollectorAddr k) = false ->
  (AtLeastOneAddrHasAccess marker admins Access_Transfer = true ->
   validateSendDenom MustGetMarkerAddress k ctx fromAddr toAddr admins denom toMarker
   = Ok tt)
  /\ (IsSendDeny k ctx (MustGetMarkerAddress denom) fromAddr = false ->
      MarkerAccount.AddressHasAccess marker fromAddr Access_Transfer = true ->
      validateSendDenom MustGetMarkerAddress k ctx fromAddr toAddr admins denom
        toMarker
      = Ok tt).
Proof.
  intros Hm Hst Hty Hto.
  rewrite (validateSendDenom_restricted ctx fromAddr toAddr admins denom toMarker
             marker Hm Hst Hty Hto).
  split.
  - intros Hagent.
    now rewrite (AtLeastOneAddrHasAccess_nonempty _ _ _ Hagent), Hagent.
  - intros Hdeny Hfrom. rewrite Hdeny, Hfrom.
    now destruct ((0 <? length admins)%nat && _).
Qed.

(** X21.  A send of an Active RestrictedCoin denom into a marker account,
    with nobody holding Transfer, is denied with
    [TransferNotAuthorized], naming the sender alone when there is no
    transfer agent and the sender followed by the agents otherwise: the
    required attributes and the bypass addresses are not looked at. *)
Theorem validateSendDenom_into_marker_needs_transfer
  (ctx : Context) (fromAddr toAddr : AccAddress) (admins : list AccAddress)
  (denom : string) (toMarker marker : MarkerAccount.t) :
  GetMarker k ctx (MustGetMarkerAddress denom) = Ok (Some marker) ->
  MarkerAccount.Status marker = StatusActive ->
  MarkerAccount.MarkerType marker = MarkerType_RestrictedCoin ->
  Equals toAddr (feeCollectorAddr k) = false ->
  AtLeastOneAddrHasAccess marker admins Access_Transfer = false ->
  IsSendDeny k ctx (MustGetMarkerAddress denom) fromAddr = false ->
  MarkerAccount.AddressHasAccess marker fromAddr Access_Transfer = false ->
  validateSendDenom MustGetMarkerAddress k ctx fromAddr toAddr admins denom
    (Some toMarker)
  = match admins with
    | [] => Err (ErrNoAccess (String_ fromAddr) Access_Transfer denom
                   (MarkerAccount.Address marker))
    | _ => Err (ErrNoneHave (String_ fromAddr :: map String_ admins)
                  Access_Transfer denom (MarkerAccount.Address marker))
    end
  /\ deniedWith
       (validateSendDenom MustGetMarkerAddress k ctx fromAddr toAddr admins denom
          (Some toMarker))
       TransferNotAuthorized.
Proof.
  intros Hm Hst Hty Hto Hagent Hdeny Hfrom.
  rewrite (validateSendDenom_restricted ctx fromAddr toAddr admins denom
             (Some toMarker) marker Hm Hst Hty Hto).
  rewrite Hagent, Hdeny, Hfrom, andb_false_r.
  destruct admins as [|a rest]; simpl;
    (split; [reflexivity | eexists; split; reflexivity]).
Qed.


(** X23.  [validateSendDenoms] passes exactly when every coin's denom passes
    [validateSendDenom], so whether a list of coins passes does not
    depend on their order or on repetitions; when it fails, the error
    is that of the first coin whose denom fails. *)
Theorem validateSendDenoms_all_must_pass
  (ctx : Context) (fromAddr toAddr : AccAddress) (admins : list AccAddress)
  (amt : Coins) (toMarker : option MarkerAccount.t) :
  (validateSendDenoms MustGetMarkerAddress k ctx fromAddr toAddr admins amt toMarker
   = Ok tt
   <-> forall coin, In coin amt ->
         validateSendDenom MustGetMarkerAddress k ctx fromAddr toAddr admins
           (Denom coin) toMarker = Ok tt)
  /\ (forall pre coin post err,
        amt = pre ++ coin :: post ->
        (forall c, In c pre ->
           validateSendDenom MustGetMarkerAddress k ctx fromAddr toAddr admins
             (Denom c) toMarker = Ok tt) ->
        validateSendDenom MustGetMarkerAddress k ctx fromAddr toAddr admins
          (Denom coin) toMarker = Err err ->
        validateSendDenoms MustGetMarkerAddress k ctx fromAddr toAddr admins amt
          toMarker = Err err)
  /\ (forall amt',
        (forall coin, In coin amt <-> In coin amt') ->
        (validateSendDenoms MustGetMarkerAddress k ctx fromAddr toAddr admins amt
           toMarker = Ok tt
         <-> validateSendDenoms MustGetMarkerAddress k ctx fromAddr toAddr admins amt'
               toMarker = Ok tt)).
Proof.
  assert (Hall : forall coins,
             validateSendDenoms MustGetMarkerAddress k ctx fromAddr toAddr admins
               coins toMarker = Ok tt
             <-> forall coin, In coin coins ->
                   validateSendDenom MustGetMarkerAddress k ctx fromAddr toAddr admins
                     (Denom coin) toMarker = Ok tt).
  { induction coins as [|c coins IH]; simpl.
    - split; [intros _ coin [] | reflexivity].
    - destruct (validateSendDenom MustGetMarkerAddress k ctx fromAddr toAddr admins
                  (Denom c) toMarker) as [[]|err] eqn:E; simpl.
      + rewrite IH. split.
        * intros H coin [<- | Hin]; [exact E | now apply H].
        * intros H coin Hin. apply H. now right.
      + split; [discriminate|]. intros H.
        rewrite (H c (or_introl eq_refl)) in E. discriminate E. }
  split; [apply Hall | split].
  - intros pre coin post err -> Hpre Hcoin.
    induction pre as [|c pre IH]; simpl.
    + now rewrite Hcoin.
    + rewrite (Hpre c (or_introl eq_refl)). simpl.
      apply IH. intros c' Hc'. apply Hpre. now right.
  - intros amt' Hsame. rewrite !Hall. split; intros H coin Hin; apply H, Hsame, Hin.
Qed.

End DenomRules.

Section GrantsAndSends.

Import sdk types keeper Spec.
Local Open Scope go_scope.

Variable MustGetMarkerAddress : string -> AccAddress.

Lemma AtLeastOneAddrHasAccess_mono (ma ma' : MarkerAccount.t)
  (addrs : list AccAddress) (role : Access) :
  (forall addr, MarkerAccount.HasAccess ma addr role = true ->
                MarkerAccount.HasAccess ma' addr role = true) ->
  AtLeastOneAddrHasAccess ma addrs role = true ->
  AtLeastOneAddrHasAccess ma' addrs role = true.
Proof.
  intros Hmono. unfold AtLeastOneAddrHasAccess. rewrite !existsb_exists.
  intros [addr [Hin H]]. exists addr. split; [exact Hin | now apply Hmono].
Qed.

(** X24.  More access never denies: when a denom passes the per-denom rule,
    it still passes after the denom's marker has been given further
    access grants (same status, type and required attributes, and
    every role held before still held), everything else being equal. *)
Theorem validateSendDenom_monotone_in_access
  (k k' : Keeper) (ctx : Context) (fromAddr toAddr : AccAddress)
  (admins : list AccAddress) (denom : string) (toMarker : option MarkerAccount.t)
  (marker marker' : MarkerAccount.t) :
  feeCollectorAddr k' = feeCollectorAddr k ->
  IsSendDeny k' ctx (MustGetMarkerAddress denom) fromAddr
  = IsSendDeny k ctx (MustGetMarkerAddress denom) fromAddr ->
  IsReqAttrBypassAddr k' fromAddr = IsReqAttrBypassAddr k fromAddr ->
  IsReqAttrBypassAddr k' toAddr = IsReqAttrBypassAddr k toAddr ->
  GetAllAttributesAddr k' ctx toAddr = GetAllAttributesAddr k ctx toAddr ->
  GetMarker k ctx (MustGetMarkerAddress denom) = Ok (Some marker) ->
  GetMarker k' ctx (MustGetMarkerAddress denom) = Ok (Some marker') ->
  MarkerAccount.Status marker' = MarkerAccount.Status marker ->
  MarkerAccount.MarkerType marker' = MarkerAccount.MarkerType marker ->
  MarkerAccount.RequiredAttributes marker' = MarkerAccount.RequiredAttributes marker ->
  (forall addr role,
     MarkerAccount.HasAccess marker addr role = true ->
     MarkerAccount.HasAccess marker' addr role = true) ->
  validateSendDenom MustGetMarkerAddress k ctx fromAddr toAddr admins denom toMarker
  = Ok tt ->
  validateSendDenom MustGetMarkerAddress k' ctx fromAddr toAddr admins denom toMarker
  = Ok tt.
Proof.
  intros Hfc Hdeny Hbf Hbt Hattrs Hm Hm' Hst Hty Hreq Hmono.
  unfold validateSendDenom. rewrite Hm, Hm'. simpl.
  unfold MarkerAccount.GetStatus, MarkerAccount.GetMarkerType,
    MarkerAccount.GetRequiredAttributes, MarkerAccount.AddressHasAccess.
  rewrite Hst, Hty, Hreq, Hfc, Hdeny, Hbf, Hbt, Hattrs.
  destruct (negb (MarkerStatus_eqb (MarkerAccount.Status marker) StatusActive));
    [discriminate|].
  destruct (negb (MarkerType_eqb (MarkerAccount.MarkerType marker)
                                 MarkerType_RestrictedCoin)); [reflexivity|].
  destruct (Equals toAddr (feeCollectorAddr k)); [discriminate|].
  destruct (AtLeastOneAddrHasAccess marker' admins Access_Transfer) eqn:Ea'.
  - rewrite (AtLeastOneAddrHasAccess_nonempty _ _ _ Ea'). reflexivity.
  - assert (Ea : AtLeastOneAddrHasAccess marker admins Access_Transfer = false).
    { destruct (AtLeastOneAddrHasAccess marker admins Access_Transfer) eqn:E;
        [|reflexivity].
      rewrite (AtLeastOneAddrHasAccess_mono marker marker' admins Access_Transfer
                 (fun addr => Hmono addr Access_Transfer) E) in Ea'.
      discriminate Ea'. }
    rewrite Ea, !andb_false_r.
    destruct (IsSendDeny k ctx (MustGetMarkerAddress denom) fromAddr); [discriminate|].
    destruct (MarkerAccount.HasAccess marker' (String_ fromAddr) Access_Transfer)
      eqn:Ef'; [reflexivity|].
    assert (Ef : MarkerAccount.HasAccess marker (String_ fromAddr) Access_Transfer
                 = false).
    { destruct (MarkerAccount.HasAccess marker (String_ fromAddr) Access_Transfer)
        eqn:E; [|reflexivity].
      rewrite (Hmono _ _ E) in Ef'. discriminate Ef'. }
    rewrite Ef.
    destruct toMarker.
    + destruct (length admins =? 0)%nat; discriminate.
    + intros H. exact H.
Qed.

End GrantsAndSends.

Section WholeSend.

Import sdk types keeper Spec.
Local Open Scope go_scope.

Variable MustGetMarkerAddress : string -> AccAddress.
Variable k : Keeper.

Lemma bind_Ok_const {T U : Type} (r : result T) (v : U) (a : U) :
  bind r (fun _ => Ok v) = Ok a -> a = v.
Proof.
  destruct r; simpl; [now intros [= <-] | discriminate].
Qed.

Lemma receiverAndDenomChecks_returns_toAddr
  (ctx : Context) (fromAddr toAddr : AccAddress) (admins : list AccAddress)
  (amt : Coins) (a : AccAddress) :
  receiverAndDenomChecks MustGetMarkerAddress k ctx fromAddr toAddr admins amt = Ok a ->
  a = toAddr.
Proof.
  unfold receiverAndDenomChecks.
  destruct (depositCheck admins fromAddr (markerOrNil (GetMarker k ctx toAddr)));
    simpl; [|discriminate].
  apply bind_Ok_const.
Qed.

(** X25.  [SendRestrictionFn] never redirects a send: when it allows one, the
    address it returns is the destination it was given.  With bypass
    active, or from a module account, every send to an address other
    than the fee collector is allowed, whatever the markers, the deny
    list and the attributes are. *)
Theorem SendRestrictionFn_returns_destination
  (ctx : Context) (fromAddr toAddr : AccAddress) (amt : Coins) :
  (forall a,
     SendRestrictionFn MustGetMarkerAddress k ctx fromAddr toAddr amt = Ok a ->
     a = toAddr)
  /\ (HasBypass ctx || Equals fromAddr (markerModuleAddr k)
        || Equals fromAddr (ibcTransferModuleAddr k) = true ->
      Equals toAddr (feeCollectorAddr k) = false ->
      SendRestrictionFn MustGetMarkerAddress k ctx fromAddr toAddr amt = Ok toAddr).
Proof.
  unfold SendRestrictionFn. split.
  - intros a.
    destruct (HasBypass ctx || Equals fromAddr (markerModuleAddr k)
              || Equals fromAddr (ibcTransferModuleAddr k)).
    + apply bind_Ok_const.
    + destruct (markerOrNil (GetMarker k ctx fromAddr)) as [fromMarker|].
      * destruct (withdrawCheck _ _ _ _); simpl; [|discriminate].
        destruct (fromStatusCheck _ _ _); simpl; [|discriminate].
        apply receiverAndDenomChecks_returns_toAddr.
      * apply receiverAndDenomChecks_returns_toAddr.
  - intros Hb Hto. now rewrite Hb, Hto.
Qed.

(** X26.  A send into a RestrictedCoin marker account needs Deposit access on
    that marker.  When the call has transfer agents, one of them must
    hold it, and the sender's own Deposit access does not count; when
    it has none, the sender must hold it.  Otherwise the send is denied
    with [DepositNotAuthorized].  (The sender is not a marker account
    here, so that the sender-side checks do not come first.) *)
Theorem SendRestrictionFn_deposit_access
  (ctx : Context) (fromAddr toAddr : AccAddress) (amt : Coins)
  (toMarker : MarkerAccount.t) :
  HasBypass ctx || Equals fromAddr (markerModuleAddr k)
    || Equals fromAddr (ibcTransferModuleAddr k) = false ->
  markerOrNil (GetMarker k ctx fromAddr) = None ->
  GetMarker k ctx toAddr = Ok (Some toMarker) ->
  MarkerAccount.MarkerType toMarker = MarkerType_RestrictedCoin ->
  (GetTransferAgents ctx <> [] ->
   AtLeastOneAddrHasAccess toMarker (GetTransferAgents ctx) Access_Deposit = false ->
   deniedWith (SendRestrictionFn MustGetMarkerAddress k ctx fromAddr toAddr amt)
     DepositNotAuthorized)
  /\ (GetTransferAgents ctx = [] ->
      MarkerAccount.AddressHasAccess toMarker fromAddr Access_Deposit = false ->
      SendRestrictionFn MustGetMarkerAddress k ctx fromAddr toAddr amt
      = Err (ErrNoAccess (String_ fromAddr) Access_Deposit
               (MarkerAccount.Denom toMarker) (MarkerAccount.Address toMarker))).
Proof.
  intros Hnb Hfrom Hto Hty.
  unfold SendRestrictionFn. rewrite Hnb, Hfrom.
  unfold receiverAndDenomChecks, depositCheck. rewrite Hto. simpl.
  unfold MarkerAccount.GetMarkerType. rewrite Hty. simpl.
  split.
  - intros Hne Hnone.
    destruct (GetTransferAgents ctx) as [|a [|b rest]] eqn:Ea; [contradiction| |].
    + unfold AtLeastOneAddrHasAccess in Hnone. simpl in Hnone.
      rewrite orb_false_r in Hnone. simpl.
      unfold MarkerAccount.ValidateHasAccess. rewrite Hnone. simpl.
      eexists; split; reflexivity.
    + cbn [length Nat.ltb Nat.leb]. unfold ValidateAtLeastOneAddrHasAccess.
      rewrite Hnone. simpl. eexists; split; reflexivity.
  - intros -> Hnone. simpl.
    unfold MarkerAccount.ValidateAddressHasAccess, MarkerAccount.ValidateHasAccess.
    unfold MarkerAccount.AddressHasAccess in Hnone. now rewrite Hnone.
Qed.

(** X27.  A failed lookup is treated in two ways.  When the marker of a denom
    cannot be looked up, the per-denom rule fails with the error of the
    lookup.  When the marker of the sender or of the receiver cannot be
    looked up, the error is dropped and the address is treated as not
    being a marker: no withdraw, status or deposit check is made. *)
Theorem lookup_errors
  (ctx : Context) (fromAddr toAddr : AccAddress) (amt : Coins) :
  (forall admins denom toMarker err,
     GetMarker k ctx (MustGetMarkerAddress denom) = Err err ->
     validateSendDenom MustGetMarkerAddress k ctx fromAddr toAddr admins denom toMarker
     = Err err)
  /\ (forall err,
        HasBypass ctx || Equals fromAddr (markerModuleAddr k)
          || Equals fromAddr (ibcTransferModuleAddr k) = false ->
        GetMarker k ctx fromAddr = Err err ->
        SendRestrictionFn MustGetMarkerAddress k ctx fromAddr toAddr amt
        = receiverAndDenomChecks MustGetMarkerAddress k ctx fromAddr toAddr
            (GetTransferAgents ctx) amt)
  /\ (forall admins err,
        GetMarker k ctx toAddr = Err err ->
        receiverAndDenomChecks MustGetMarkerAddress k ctx fromAddr toAddr admins amt
        = (validateSendDenoms MustGetMarkerAddress k ctx fromAddr toAddr admins amt
             None ;;
           Ok toAddr)).
Proof.
  split; [|split].
  - intros admins denom toMarker err H. unfold validateSendDenom. now rewrite H.
  - intros err Hnb H. unfold SendRestrictionFn. now rewrite Hnb, H.
  - intros admins err H. unfold receiverAndDenomChecks. now rewrite H.
Qed.

End WholeSend.

Section EndToEnd.

Import sdk types keeper Spec.
Local Open Scope go_scope.

Variable MustGetMarkerAddress : string -> AccAddress.
Variable k : Keeper.


End EndToEnd.

(** ** The further properties on concrete markers and calls *)

Section MoreExamples.

Import sdk types types.MarkerAccount keeper Spec Scenario.
Local Open Scope go_scope.

(** [Validate] on concrete markers: a Proposed coin marker with two
    admins passes; the same marker with forced transfers allowed, or
    with a grant to itself, does not. *)
Example Validate_examples :
  validate twoAdmins = Pass tt
  /\ validate (SetAllowForcedTransfer twoAdmins true)
     = Fail ErrForcedTransferNotRestricted
  /\ validate (with_AccessControl twoAdmins
                 [AccessGrant.mk (markerAddr "hotdog") [Access_Admin]])
     = Fail (ErrSelfGrant "hotdog" [Access_Admin])
  /\ validate (with_AccessControl twoAdmins
                 [AccessGrant.mk alice [Access_Admin; Access_Transfer]])
     = Fail (ErrInvalidAccessPrivileges
               (ErrAccessNotSupported Access_Transfer MarkerType_Coin))
  /\ validate (with_AccessControl twoAdmins [AccessGrant.mk alice [Access_Mint]])
     = Fail ErrManagerRequired.
Proof.
  repeat split.
Qed.

Lemma RevokeAccess_removes_all_roles_witness :
  RevokeAccess verifyNonEmpty twoAdmins "" = Err ErrRevokeInvalidAddress
  /\ exists ma',
       RevokeAccess verifyNonEmpty twoAdmins alice = Ok ma'
       /\ AccessControl ma' = [AccessGrant.mk bob [Access_Admin]]
       /\ (forall role, HasAccess ma' alice role = false)
       /\ (forall other role,
             other <> alice ->
             HasAccess ma' other role = HasAccess twoAdmins other role)
       /\ ma' = with_AccessControl twoAdmins (AccessControl ma').
Proof.
  split.
  - apply (proj1 (RevokeAccess_removes_all_roles verifyNonEmpty twoAdmins "")).
    discriminate.
  - apply (proj2 (RevokeAccess_removes_all_roles verifyNonEmpty twoAdmins alice)).
    reflexivity.
Defined.

Lemma RevokeAccess_idempotent_witness :
  RevokeAccess verifyNonEmpty twoAdmins alice = Ok onlyBob
  /\ RevokeAccess verifyNonEmpty onlyBob alice = Ok onlyBob
  /\ RevokeAccess verifyNonEmpty twoAdmins carol = Ok twoAdmins.
Proof.
  split; [reflexivity | split].
  - apply (proj1 (RevokeAccess_idempotent verifyNonEmpty twoAdmins alice eq_refl)).
    reflexivity.
  - apply (proj2 (RevokeAccess_idempotent verifyNonEmpty twoAdmins carol eq_refl)).
    intros g [<- | [<- | []]]; discriminate.
Defined.

Lemma GrantAccess_only_adds_roles_witness :
  (forall role,
     HasAccess twoAdminsRegranted alice role = true
     <-> In role [Access_Mint] \/ HasAccess twoAdmins alice role = true)
  /\ (forall other role,
        other <> alice ->
        HasAccess twoAdminsRegranted other role = HasAccess twoAdmins other role)
  /\ (forall addr role,
        HasAccess twoAdmins addr role = true ->
        HasAccess twoAdminsRegranted addr role = true).
Proof.
  apply (@GrantAccess_only_adds_roles verifyNonEmpty AccessGrant.t
           (AccessGrant_AccessGrantI verifyNonEmpty)
           (AccessGrant_mergesByUnion verifyNonEmpty)
           twoAdmins twoAdminsRegranted (AccessGrant.mk alice [Access_Mint])).
  reflexivity.
Defined.

Lemma RevokeAccess_undoes_GrantAccess_witness :
  RevokeAccess verifyNonEmpty
    (marker "hotdog" StatusProposed MarkerType_Coin
       [AccessGrant.mk alice [Access_Admin]; AccessGrant.mk bob [Access_Admin];
        AccessGrant.mk carol [Access_Burn]] [])
    carol
  = Ok twoAdmins.
Proof.
  apply (@RevokeAccess_undoes_GrantAccess verifyNonEmpty AccessGrant.t
           (AccessGrant_AccessGrantI verifyNonEmpty)
           (AccessGrant_mergesByUnion verifyNonEmpty)
           twoAdmins
           (marker "hotdog" StatusProposed MarkerType_Coin
              [AccessGrant.mk alice [Access_Admin]; AccessGrant.mk bob [Access_Admin];
               AccessGrant.mk carol [Access_Burn]] [])
           (AccessGrant.mk carol [Access_Burn])).
  - reflexivity.
  - intros g [<- | [<- | []]]; discriminate.
Defined.

Lemma GrantAccess_keeps_addresses_unique_witness :
  NoDup (map AccessGrant.Address (AccessControl twoAdminsRegranted)).
Proof.
  apply (@GrantAccess_keeps_addresses_unique verifyNonEmpty AccessGrant.t
           (AccessGrant_AccessGrantI verifyNonEmpty)
           (AccessGrant_mergesByUnion verifyNonEmpty)
           twoAdmins twoAdminsRegranted (AccessGrant.mk alice [Access_Mint])).
  - constructor; [intros [H | []]; discriminate H|].
    constructor; [intros [] | constructor].
  - reflexivity.
Defined.

Lemma active_marker_has_no_manager_witness :
  Status (afterAll verifyNonEmpty
            (NewMarkerAccount (markerAddr "hotdog") (NewCoin "hotdog" 1000) alice []
               StatusProposed MarkerType_Coin true true false [])
            [CallSetManager bob; CallSetStatus StatusFinalized;
             CallSetStatus StatusActive; CallSetManager carol]) = StatusActive
  /\ Manager (afterAll verifyNonEmpty
                (NewMarkerAccount (markerAddr "hotdog") (NewCoin "hotdog" 1000) alice []
                   StatusProposed MarkerType_Coin true true false [])
                [CallSetManager bob; CallSetStatus StatusFinalized;
                 CallSetStatus StatusActive; CallSetManager carol]) = "".
Proof.
  split; [reflexivity|].
  apply (active_marker_has_no_manager verifyNonEmpty (markerAddr "hotdog")
           (NewCoin "hotdog" 1000) alice [] StatusProposed MarkerType_Coin
           true true false []
           [CallSetManager bob; CallSetStatus StatusFinalized;
            CallSetStatus StatusActive; CallSetManager carol]).
  reflexivity.
Defined.

Lemma SetStatus_then_SetManager_witness :
  SetStatus destroyedCoin StatusUndefined = Err (ErrInvalidStatus StatusUndefined)
  /\ (exists ma',
        SetStatus activeCoin StatusCancelled = Ok ma'
        /\ Status ma' = StatusCancelled
        /\ SetManager verifyNonEmpty ma' alice = Err ErrManagerNotProposed)
  /\ (exists ma',
        SetStatus destroyedCoin StatusProposed = Ok ma'
        /\ Status ma' = StatusProposed
        /\ exists ma'', SetManager verifyNonEmpty ma' alice = Ok ma''
                        /\ Manager ma'' = alice /\ Status ma'' = StatusProposed).
Proof.
  split; [|split].
  - apply (proj1 (SetStatus_then_SetManager verifyNonEmpty destroyedCoin alice)).
  - destruct (proj2 (SetStatus_then_SetManager verifyNonEmpty activeCoin alice)
                StatusCancelled ltac:(discriminate))
      as (ma' & Hset & Hst & Hreject & _).
    exists ma'. split; [exact Hset | split; [exact Hst|]].
    apply Hreject; [discriminate | reflexivity].
  - destruct (proj2 (SetStatus_then_SetManager verifyNonEmpty destroyedCoin alice)
                StatusProposed ltac:(discriminate))
      as (ma' & Hset & Hst & _ & Haccept).
    exists ma'. split; [exact Hset | split; [exact Hst|]].
    apply Haccept; reflexivity.
Defined.

Lemma RemoveFromRequiredAttributes_undoes_Add_witness :
  RemoveFromRequiredAttributes ["kyc"; "aml"; "tax"] ["aml"; "tax"] = Ok ["kyc"].
Proof.
  apply (RemoveFromRequiredAttributes_undoes_Add ["kyc"] ["aml"; "tax"]).
  reflexivity.
Defined.

Lemma validateSendDenom_transfer_access_allows_witness :
  IsSendDeny (keeperOf [security StatusActive] [(markerAddr "security", carol)] [])
    plainCall (markerAddr "security") carol = true
  /\ validateSendDenom markerAddr
       (keeperOf [security StatusActive] [(markerAddr "security", carol)] [])
       (agentCall [alice]) carol dave [alice] "security" None
     = Ok tt
  /\ validateSendDenom markerAddr
       (keeperOf [security StatusActive] [(markerAddr "security", carol)] [])
       plainCall alice (markerAddr "hotdog") [] "security" (Some twoAdmins)
     = Ok tt.
Proof.
  split; [reflexivity | split].
  - apply (proj1 (validateSendDenom_transfer_access_allows markerAddr
             (keeperOf [security StatusActive] [(markerAddr "security", carol)] [])
             (agentCall [alice]) carol dave [alice] "security" None
             (security StatusActive) eq_refl eq_refl eq_refl eq_refl)).
    reflexivity.
  - apply (proj2 (validateSendDenom_transfer_access_allows markerAddr
             (keeperOf [security StatusActive] [(markerAddr "security", carol)] [])
             plainCall alice (markerAddr "hotdog") [] "security" (Some twoAdmins)
             (security StatusActive) eq_refl eq_refl eq_refl eq_refl));
      reflexivity.
Defined.

Lemma validateSendDenom_into_marker_needs_transfer_witness :
  validateSendDenom markerAddr
    (keeperOf [security StatusActive] [] [(markerAddr "hotdog", "kyc.example")])
    (agentCall [bob]) carol (markerAddr "hotdog") [bob] "security" (Some twoAdmins)
  = Err (ErrNoneHave [carol; bob] Access_Transfer "security" (markerAddr "security"))
  /\ deniedWith
       (validateSendDenom markerAddr
          (keeperOf [security StatusActive] [] [(markerAddr "hotdog", "kyc.example")])
          (agentCall [bob]) carol (markerAddr "hotdog") [bob] "security"
          (Some twoAdmins))
       TransferNotAuthorized.
Proof.
  apply (validateSendDenom_into_marker_needs_transfer markerAddr
           (keeperOf [security StatusActive] [] [(markerAddr "hotdog", "kyc.example")])
           (agentCall [bob]) carol (markerAddr "hotdog") [bob] "security"
           twoAdmins (security StatusActive)); reflexivity.
Defined.


Lemma validateSendDenom_monotone_in_access_witness :
  validateSendDenom markerAddr
    (keeperOf [securityWithCarol StatusActive] [] [(dave, "kyc.example")])
    plainCall carol dave [] "security" None
  = Ok tt.
Proof.
  apply (validateSendDenom_monotone_in_access markerAddr
           (keeperOf [security StatusActive] [] [(dave, "kyc.example")])
           (keeperOf [securityWithCarol StatusActive] [] [(dave, "kyc.example")])
           plainCall carol dave [] "security" None
           (security StatusActive) (securityWithCarol StatusActive));
    try reflexivity.
  intros addr role H. unfold HasAccess in *. simpl in *.
  rewrite !orb_false_r in H. apply orb_true_iff in H as [H | H].
  - rewrite H. reflexivity.
  - rewrite H. now rewrite orb_true_r.
Defined.

Lemma SendRestrictionFn_deposit_access_witness :
  deniedWith
    (SendRestrictionFn markerAddr (keeperOf [security StatusActive] [] [])
       (agentCall [alice]) carol (markerAddr "security") [NewCoin "nhash" 7])
    DepositNotAuthorized
  /\ SendRestrictionFn markerAddr (keeperOf [security StatusActive] [] [])
       plainCall carol (markerAddr "security") [NewCoin "nhash" 7]
     = Err (ErrNoAccess carol Access_Deposit "security" (markerAddr "security")).
Proof.
  split.
  - apply (SendRestrictionFn_deposit_access markerAddr
             (keeperOf [security StatusActive] [] []) (agentCall [alice]) carol
             (markerAddr "security") [NewCoin "nhash" 7] (security StatusActive));
      try reflexivity.
    discriminate.
  - apply (SendRestrictionFn_deposit_access markerAddr
             (keeperOf [security StatusActive] [] []) plainCall carol
             (markerAddr "security") [NewCoin "nhash" 7] (security StatusActive));
      reflexivity.
Defined.


End MoreExamples.
